(** * Clyrdia contract-analysis API: admission, sanitisation, caching,
      streaming and batch orchestration.

    A shallow embedding of the request admission and orchestration layer
    of the service ([app/core/security.py], [app/core/cache.py],
    [app/services/openai_service.py], [app/services/document_service.py],
    [app/api/v1/endpoints.py], [app/tasks/analysis_tasks.py]) together
    with the properties its specification states about it.

    Conventions.
    - A Python [str] is a [string]; every [ascii] stands for the code
      point of the same number (0..255).
    - A Python [dict] keyed by strings is a [gmap string _].
    - [time.time()] is an exact rational; the rounding of binary floating
      point is not represented.
    - The Redis clock counts milliseconds in [Z].
    - Code that raises returns a sum: the normal result or the exception. *)

From Stdlib Require Import ZArith QArith Lqa Ascii String List Bool Lia.
From stdpp Require Import gmap strings list fin_maps pretty.

#[local] Set Warnings "-register-all".

Local Open Scope string_scope.
Local Open Scope list_scope.
Local Open Scope Z_scope.

(* ===================================================================== *)
(** * The operations of Python's [str] that the service uses *)
(* ===================================================================== *)

Module Py.

(** [len(s)] *)
Definition len (s : string) : Z := Z.of_nat (String.length s).

(** [s[:n]] and [s[n:]] for a count [n] of characters. *)
Fixpoint take (n : nat) (s : string) : string :=
  match n, s with
  | S n', String c s' => String c (take n' s')
  | _, _ => ""
  end.

Fixpoint drop (n : nat) (s : string) : string :=
  match n, s with
  | S n', String _ s' => drop n' s'
  | _, _ => s
  end.

(** A slice bound as Python reads it: a negative one counts from the
    end, and both are clamped to the string. *)
Definition bound (s : string) (i : Z) : Z :=
  if (i <? 0)%Z then Z.max (i + len s) 0 else Z.min i (len s).

(** [s[i:j]] *)
Definition slice (s : string) (i j : Z) : string :=
  take (Z.to_nat (bound s j - bound s i)) (drop (Z.to_nat (bound s i)) s).

(** [s.find(sub)]: the lowest index where [sub] starts, or -1. *)
Fixpoint find (sub s : string) : Z :=
  if String.prefix sub s then 0
  else match s with
       | "" => -1
       | String _ s' => let i := find sub s' in if (i =? -1)%Z then -1 else i + 1
       end.

(** [s.rfind(sub)]: the highest index where [sub] starts, or -1. *)
Fixpoint rfind (sub s : string) : Z :=
  match s with
  | "" => if String.prefix sub "" then 0 else -1
  | String _ s' =>
      let i := rfind sub s' in
      if (i =? -1)%Z then (if String.prefix sub s then 0 else -1) else i + 1
  end.

(** [sub in s] *)
Fixpoint contains (sub s : string) : bool :=
  String.prefix sub s ||
  match s with
  | "" => false
  | String _ s' => contains sub s'
  end.

(** [s.replace(old, new)] for a non-empty [old]: one pass from the left
    over non-overlapping occurrences. [skip] counts the characters of
    the occurrence just replaced that are still to be passed over. *)
Fixpoint replace_from (old new : string) (skip : nat) (s : string) : string :=
  match s with
  | "" => ""
  | String c s' =>
      match skip with
      | S k => replace_from old new k s'
      | O =>
          if String.prefix old s
          then new +:+ replace_from old new (String.length old - 1) s'
          else String c (replace_from old new 0 s')
      end
  end.

(** With an empty [old] Python inserts [new] before every character and
    at the end. *)
Fixpoint intersperse (new s : string) : string :=
  match s with
  | "" => new
  | String c s' => new +:+ String c (intersperse new s')
  end.

Definition replace (s old new : string) : string :=
  match old with
  | "" => intersperse new s
  | _ => replace_from old new 0 s
  end.

(** [c.isspace()] for the code points below 256. *)
Definition isspace (c : ascii) : bool :=
  let n := nat_of_ascii c in
  ((9 <=? n) && (n <=? 13) || (28 <=? n) && (n <=? 32) ||
   (n =? 133) || (n =? 160))%nat.

Fixpoint lstrip (s : string) : string :=
  match s with
  | String c s' => if isspace c then lstrip s' else s
  | "" => ""
  end.

Definition rstrip (s : string) : string := String.rev (lstrip (String.rev s)).

(** [s.strip()] *)
Definition strip (s : string) : string := rstrip (lstrip s).

(** [c.lower()] for the code points below 256: the ASCII capitals and
    the Latin-1 capitals (all of 192..222 but the multiplication sign). *)
Definition lower_char (c : ascii) : ascii :=
  let n := nat_of_ascii c in
  if ((65 <=? n) && (n <=? 90) ||
      (192 <=? n) && (n <=? 222) && negb (n =? 215))%nat
  then ascii_of_nat (n + 32) else c.

(** [s.lower()] *)
Fixpoint lower (s : string) : string :=
  match s with
  | "" => ""
  | String c s' => String (lower_char c) (lower s')
  end.

(** [sep.join(l)] *)
Fixpoint join (sep : string) (l : list string) : string :=
  match l with
  | [] => ""
  | [x] => x
  | x :: rest => x +:+ sep +:+ join sep rest
  end.

(** [s.split(sep)] for a one-character separator: the pieces between
    the separators, empty ones included. *)
Fixpoint split_on (sep : ascii) (s : string) : list string :=
  match s with
  | "" => [""]
  | String c s' =>
      let rest := split_on sep s' in
      if Ascii.eqb c sep then "" :: rest
      else match rest with
           | piece :: more => String c piece :: more
           | [] => [String c ""]
           end
  end.

(** [s.split()]: the maximal runs of characters that are not white space. *)
Fixpoint words_from (cur : string) (s : string) : list string :=
  match s with
  | "" => match cur with "" => [] | _ => [String.rev cur] end
  | String c s' =>
      if isspace c
      then match cur with
           | "" => words_from "" s'
           | _ => String.rev cur :: words_from "" s'
           end
      else words_from (String c cur) s'
  end.

Definition split_ws (s : string) : list string := words_from "" s.

(** [s.encode()]: UTF-8, one byte below 128 and two from there on. *)
Fixpoint encode (s : string) : string :=
  match s with
  | "" => ""
  | String c s' =>
      let n := nat_of_ascii c in
      if (n <? 128)%nat then String c (encode s')
      else String (ascii_of_nat (192 + n / 64))
             (String (ascii_of_nat (128 + n mod 64)) (encode s'))
  end.

(** The characters the denylist needs and a string literal cannot hold. *)
Definition double_quote : string := String (ascii_of_nat 34) "".
Definition newline : ascii := ascii_of_nat 10.

End Py.
(* ===================================================================== *)
(** * Values, exceptions and the libraries the service calls *)
(* ===================================================================== *)

(** A value that [json.loads] returns. A dict is the list of its items. *)
Inductive json : Type :=
  | JNull
  | JBool (b : bool)
  | JNumber (q : Q)
  | JString (s : string)
  | JList (l : list json)
  | JDict (items : list (string * json)).

(** A value [json.dumps(value, default=str)] can write: what
    [json.loads] can return, and besides a tuple, or an object the
    encoder has no rule for (a datetime, say), kept as its [str()]. *)
Inductive pyval : Type :=
  | PyNone
  | PyBool (b : bool)
  | PyNumber (q : Q)
  | PyStr (s : string)
  | PyList (l : list pyval)
  | PyTuple (l : list pyval)
  | PyDict (items : list (string * pyval))
  | PyObject (str : string).

Module PyJson.

(** [d.get(key, default)] *)
Fixpoint dict_get (items : list (string * json)) (key : string) (default : json) : json :=
  match items with
  | [] => default
  | (k, v) :: rest => if String.eqb k key then v else dict_get rest key default
  end.

(** [type(v).__name__] *)
Definition type_name (v : json) : string :=
  match v with
  | JNull => "NoneType"
  | JBool _ => "bool"
  | JNumber q => if (Zpos (Qden q) =? 1)%Z then "int" else "float"
  | JString _ => "str"
  | JList _ => "list"
  | JDict _ => "dict"
  end.

(** [bool(v)] *)
Definition truthy (v : json) : bool :=
  match v with
  | JNull => false
  | JBool b => b
  | JNumber q => negb (Qnum q =? 0)%Z
  | JString s => negb (String.eqb s "")
  | JList l => match l with [] => false | _ => true end
  | JDict d => match d with [] => false | _ => true end
  end.

(** [len(v)], where [v] has a length. *)
Definition len (v : json) : option Z :=
  match v with
  | JString s => Some (Py.len s)
  | JList l => Some (Z.of_nat (length l))
  | JDict d => Some (Z.of_nat (length d))
  | _ => None
  end.

(** The JSON value of the text [json.dumps(value, default=str)] writes:
    a tuple is written as an array, and an object without a rule as the
    string [default] makes of it. *)
Fixpoint to_json (v : pyval) : json :=
  match v with
  | PyNone => JNull
  | PyBool b => JBool b
  | PyNumber q => JNumber q
  | PyStr s => JString s
  | PyList l => JList (map to_json l)
  | PyTuple l => JList (map to_json l)
  | PyDict items => JDict (map (fun kv => (fst kv, to_json (snd kv))) items)
  | PyObject str => JString str
  end.

(** A value [json.loads] returned, among the values of Python. *)
Fixpoint of_json (j : json) : pyval :=
  match j with
  | JNull => PyNone
  | JBool b => PyBool b
  | JNumber q => PyNumber q
  | JString s => PyStr s
  | JList l => PyList (map of_json l)
  | JDict items => PyDict (map (fun kv => (fst kv, of_json (snd kv))) items)
  end.

End PyJson.

(** An exception that reaches a handler: its class and [str(e)]. *)
Record exn : Type := mk_exn { exn_class : string; exn_str : string }.

(** The outcome of code that may raise. *)
Inductive outcome (A : Type) : Type :=
  | Returns (a : A)
  | Raises (e : exn).
Arguments Returns {A} a.
Arguments Raises {A} e.

(** [fastapi.HTTPException] *)
Record HTTPException : Type := mk_http {
  status_code : Z;
  detail : string
}.

(** The outcome of a request handler: a body; an [HTTPException],
    which the application answers with that status; or another
    exception that leaves the handler, which the application's handler
    of [Exception] answers with status 500. *)
Inductive http (A : Type) : Type :=
  | Respond (body : A)
  | Abort (e : HTTPException)
  | Unhandled (e : exn).
Arguments Respond {A} body.
Arguments Abort {A} e.
Arguments Unhandled {A} e.

(** The status of the response the client receives. *)
Definition status_of {A} (r : http A) : Z :=
  match r with
  | Respond _ => 200
  | Abort e => status_code e
  | Unhandled _ => 500
  end.

(** A generator as its consumer sees it: the values it yields, in order,
    and how it ends, by returning or by raising. *)
Record generator (A : Type) : Type := mk_gen {
  yields : list A;
  raised : option exn
}.
Arguments mk_gen {A} yields raised.
Arguments yields {A} g.
Arguments raised {A} g.

(** What [json.loads] does with a text: it returns a value, it raises
    [JSONDecodeError], or it raises another exception ([RecursionError]
    on nesting too deep, the [ValueError] of an integer of more than
    4300 digits). *)
Inductive decoding : Type :=
  | Decoded (value : json)
  | JSONDecodeError
  | DecodingRaises (e : exn).

(** The [json] module between JSON values and their texts: the text the
    encoder writes for a value, and [json.loads]. *)
Class Json : Type := {
  json_text : json -> string;
  json_loads : string -> decoding
}.

(** [json.dumps(value, default=str)] *)
Definition json_dumps `{Json} (value : pyval) : string :=
  json_text (PyJson.to_json value).

(** The text extractors behind [DocumentService.supported_formats]
    (PyPDF2, python-docx and the text codecs): from a media type and the
    bytes of a file, the text or the exception. *)
Class TextExtractor : Type :=
  extract_text : string -> string -> outcome string.

(** [hashlib.md5(b).hexdigest()] and [hashlib.sha256(b).hexdigest()] of
    a byte string. *)
Class Hashlib : Type := {
  md5_hexdigest : string -> string;
  sha256_hexdigest : string -> string
}.

(* ===================================================================== *)
(** * RateLimiter ([app/core/security.py]) *)
(* ===================================================================== *)

Module RateLimiter.

(** [req_time > horizon] on timestamps. *)
Definition Qgtb (x y : Q) : bool := negb (Qle_bool x y).

Record t : Type := mk {
  requests_per_minute : Z;
  requests_per_hour : Z;
  minute_requests : gmap string (list Q);
  hour_requests : gmap string (list Q)
}.

(** [RateLimiter.__init__] *)
Definition init (per_minute per_hour : Z) : t :=
  mk per_minute per_hour ∅ ∅.

(** The list comprehension [[r for r in l if r > horizon]]. *)
Definition prune (horizon : Q) (l : list Q) : list Q :=
  List.filter (fun req_time => Qgtb req_time horizon) l.

(** One iteration of the loops of [_cleanup_old_entries]: rebind the
    client's list to the pruned one, and delete the key when it is empty. *)
Definition cleanup_client (horizon : Q) (d : gmap string (list Q))
    (client_id : string) : gmap string (list Q) :=
  match d !! client_id with
  | Some l =>
      match prune horizon l with
      | [] => delete client_id d
      | l' => <[client_id := l']> d
      end
  | None => d
  end.

(** [for client_id in list(d.keys()): ...] *)
Definition cleanup_dict (horizon : Q) (d : gmap string (list Q))
    : gmap string (list Q) :=
  fold_left (cleanup_client horizon) (map fst (map_to_list d)) d.

Definition _cleanup_old_entries (self : t) (current_time : Q) : t :=
  let minute_ago := (current_time - 60)%Q in
  let hour_ago := (current_time - 3600)%Q in
  mk (requests_per_minute self) (requests_per_hour self)
     (cleanup_dict minute_ago (minute_requests self))
     (cleanup_dict hour_ago (hour_requests self)).

(** [len(l)] as a Python integer. *)
Definition len {A} (l : list A) : Z := Z.of_nat (length l).

(** [if client_id not in d: d[client_id] = []] *)
Definition ensure (client_id : string) (d : gmap string (list Q))
    : gmap string (list Q) :=
  match d !! client_id with
  | Some _ => d
  | None => <[client_id := []]> d
  end.

(** [d[client_id].append(x)] *)
Definition append (client_id : string) (x : Q) (d : gmap string (list Q))
    : gmap string (list Q) :=
  <[client_id := (d !!! client_id) ++ [x]]> d.

(** [RateLimiter.is_allowed]: the answer and the limiter afterwards. *)
Definition is_allowed (self : t) (current_time : Q) (client_id : string)
    : bool * t :=
  let s1 := _cleanup_old_entries self current_time in
  let mr := ensure client_id (minute_requests s1) in
  if len (mr !!! client_id) >=? requests_per_minute s1 then
    (false, mk (requests_per_minute s1) (requests_per_hour s1) mr
               (hour_requests s1))
  else
    let hr := ensure client_id (hour_requests s1) in
    if len (hr !!! client_id) >=? requests_per_hour s1 then
      (false, mk (requests_per_minute s1) (requests_per_hour s1) mr hr)
    else
      (true, mk (requests_per_minute s1) (requests_per_hour s1)
                (append client_id current_time mr)
                (append client_id current_time hr)).

(** The timestamps on record for a client: the list under its key, or
    none when the key is absent. *)
Definition minute_seq (self : t) (client_id : string) : list Q :=
  minute_requests self !!! client_id.
Definition hour_seq (self : t) (client_id : string) : list Q :=
  hour_requests self !!! client_id.

(** A run of calls, oldest first: each is a clock reading and a client. *)
Fixpoint run (self : t) (calls : list (Q * string)) : list bool * t :=
  match calls with
  | [] => ([], self)
  | (now, c) :: rest =>
      let '(b, s1) := is_allowed self now c in
      let '(bs, s2) := run s1 rest in
      (b :: bs, s2)
  end.

(** The clock readings of the admitted calls of one client. *)
Fixpoint admitted (client_id : string) (calls : list (Q * string))
    (answers : list bool) : list Q :=
  match calls, answers with
  | (now, c) :: calls', b :: answers' =>
      if b && bool_decide (c = client_id)
      then now :: admitted client_id calls' answers'
      else admitted client_id calls' answers'
  | _, _ => []
  end.

End RateLimiter.

(* ===================================================================== *)
(** * Input sanitisation ([app/core/security.py]) *)
(* ===================================================================== *)

Module Security.

Definition dangerous_chars : list string :=
  ["<"; ">"; "&"; Py.double_quote; "'"; "javascript:"; "data:"].

(** The loop [for char in dangerous_chars: sanitized = sanitized.replace(char, "")]. *)
Definition remove_dangerous (text : string) : string :=
  fold_left (fun sanitized char => Py.replace sanitized char "") dangerous_chars text.

(** [sanitize_input]. The form field may be missing ([None]). *)
Definition sanitize_input (text : option string) : string :=
  match text with
  | None | Some "" => ""
  | Some text =>
      let sanitized := remove_dangerous text in
      let sanitized :=
        if (Py.len sanitized >? 10000)%Z
        then Py.slice sanitized 0 10000 else sanitized in
      Py.strip sanitized
  end.

End Security.

(* ===================================================================== *)
(** * Content validation ([app/services/document_service.py]) *)
(* ===================================================================== *)

Module DocumentService.

(** [fastapi.UploadFile] *)
Record UploadFile : Type := mk_upload {
  filename : string;
  content_type : string;
  size : option Z;
  content : string
}.

Definition supported_formats : list string :=
  ["application/pdf";
   "application/vnd.openxmlformats-officedocument.wordprocessingml.document";
   "text/plain"].

(** [str(list(self.supported_formats.keys()))] *)
Definition supported_formats_str : string :=
  "['application/pdf', 'application/vnd.openxmlformats-officedocument.wordprocessingml.document', 'text/plain']".

(** [DocumentService._generate_hash] *)
Definition _generate_hash `{Hashlib} (content : string) : string :=
  sha256_hexdigest content.

(** [DocumentService.process_document] *)
Definition process_document `{Hashlib} `{TextExtractor}
    (file : UploadFile) (max_size : Z) : http (string * string) :=
  let too_large := match size file with
                   | Some n => negb (n =? 0)%Z && (n >? max_size)%Z
                   | None => false
                   end in
  if too_large then
    Abort (mk_http 413
      ("File size " +:+ pretty (default 0%Z (size file)) +:+
       " bytes exceeds maximum allowed size " +:+ pretty max_size +:+ " bytes"))
  else if negb (existsb (String.eqb (content_type file)) supported_formats) then
    Abort (mk_http 400
      ("Unsupported file type: " +:+ content_type file +:+
       ". Supported types: " +:+ supported_formats_str))
  else
    match extract_text (content_type file) (content file) with
    | Raises e =>
        Abort (mk_http 500 ("Failed to process document: " +:+ exn_str e))
    | Returns extracted_text =>
        Respond (extracted_text, _generate_hash (content file))
    end.

Definition document_indicators : list string :=
  ["contract"; "agreement"; "terms"; "conditions"; "clause";
   "party"; "parties"; "effective date"; "termination";
   "liability"; "indemnification"; "governing law"].

(** [sum(1 for indicator in document_indicators if indicator in text_lower)] *)
Definition indicator_count (text_lower : string) : Z :=
  Z.of_nat (length (List.filter (fun indicator => Py.contains indicator text_lower)
                      document_indicators)).

(** [DocumentService.validate_document_content] *)
Definition validate_document_content (text : string) : bool :=
  if String.eqb text "" || String.eqb (Py.strip text) "" then false
  else if (Py.len (Py.strip text) <? 50)%Z then false
  else
    let text_lower := Py.lower text in
    (indicator_count text_lower >=? 2)%Z.

(** One round of [while '\n\n\n' in t: t = t.replace('\n\n\n', '\n\n')];
    the fuel bounds the rounds by the length of the text, and every
    round that runs shortens it. *)
Fixpoint collapse_newlines (fuel : nat) (t : string) : string :=
  let nl := String Py.newline "" in
  match fuel with
  | O => t
  | S fuel' =>
      if Py.contains (nl +:+ nl +:+ nl) t
      then collapse_newlines fuel' (Py.replace t (nl +:+ nl +:+ nl) (nl +:+ nl))
      else t
  end.

(** [DocumentService.sanitize_text] *)
Definition sanitize_text (text : string) : string :=
  match text with
  | "" => ""
  | _ =>
      let lines := Py.split_on Py.newline text in
      let cleaned_lines :=
        List.filter (fun cleaned_line => negb (String.eqb cleaned_line ""))
          (map (fun line => Py.join " " (Py.split_ws line)) lines) in
      let cleaned_text := Py.join (String Py.newline "") cleaned_lines in
      Py.strip (collapse_newlines (String.length cleaned_text) cleaned_text)
  end.

End DocumentService.
(* ===================================================================== *)
(** * The cache ([app/core/cache.py]) *)
(* ===================================================================== *)

(** The commands of the Redis server that [CacheManager] issues, as the
    server documents them. The clock of the server counts milliseconds.
    A key holds a string and, when it was written with [SETEX], the
    instant at which it expires; a key whose instant is past is absent
    for every command. *)
Module Redis.

Record entry : Type := mk_entry {
  payload : string;
  expires_at : option Z
}.

Abbreviation db := (gmap string entry).

(** The latest instant the server can hold: the largest signed 64-bit
    number of milliseconds. *)
Definition latest : Z := 9223372036854775807.

(** A key is expired when the clock is past its instant. *)
Definition live (now : Z) (e : entry) : bool :=
  match expires_at e with
  | None => true
  | Some t => (now <=? t)%Z
  end.

(** What the server holds under a key at an instant. *)
Definition lookup (now : Z) (d : db) (k : string) : option entry :=
  match d !! k with
  | Some e => if live now e then Some e else None
  | None => None
  end.

(** [GET key] *)
Definition get (now : Z) (d : db) (k : string) : option string :=
  payload <$> lookup now d k.

(** Whether the server takes a number of seconds from now as an expire
    time: it refuses one whose milliseconds, or whose instant, are
    beyond [latest]. *)
Definition in_range (now seconds : Z) : bool :=
  (seconds <=? latest / 1000)%Z && (1000 * seconds <=? latest - now)%Z.

(** [SETEX key seconds value]: the keys afterwards, or [None] where the
    server replies with the error of an invalid expire time: for a
    number of seconds that is not positive or not in range. *)
Definition setex (now : Z) (d : db) (k : string) (seconds : Z) (v : string)
    : option db :=
  if (0 <? seconds)%Z && in_range now seconds
  then Some (<[k := mk_entry v (Some (now + 1000 * seconds)%Z)]> d)
  else None.

(** [KEYS prefix*] *)
Definition keys (now : Z) (d : db) (prefix : string) : list string :=
  map fst (List.filter (fun kv => String.prefix prefix (fst kv) && live now (snd kv))
             (map_to_list d)).

(** [TTL key]: the time left in seconds, rounded to the nearest (a key
    with less than half a second left reports 0); -1 for a key that
    never expires, -2 for a key that is absent. *)
Definition ttl (now : Z) (d : db) (k : string) : Z :=
  match lookup now d k with
  | Some e => match expires_at e with
              | Some t => ((t - now + 500) / 1000)%Z
              | None => -1
              end
  | None => -2
  end.

(** [DEL key] *)
Definition del (d : db) (k : string) : db := delete k d.

End Redis.

Module CacheManager.

Record t : Type := mk {
  redis_client : option Redis.db;
  default_ttl : Z;
  max_size : Z
}.

Definition with_db (self : t) (d : Redis.db) : t :=
  mk (Some d) (default_ttl self) (max_size self).

Section Operations.
Context `{Json} `{Hashlib}.

(** [CacheManager._generate_key] *)
Definition _generate_key (key : string) : string :=
  "clyrdia:" +:+ md5_hexdigest (Py.encode key).

(** [CacheManager.get] at an instant of the server's clock. Every
    exception of [json.loads] is caught and gives [None]. *)
Definition get (self : t) (now : Z) (key : string) : option json :=
  match redis_client self with
  | None => None
  | Some d =>
      let cache_key := _generate_key key in
      match Redis.get now d cache_key with
      | Some "" | None => None
      | Some value =>
          match json_loads value with
          | Decoded v => Some v
          | JSONDecodeError | DecodingRaises _ => None
          end
      end
  end.

(** [CacheManager._check_size_limit] on a connected client. *)
Definition _check_size_limit (self : t) (now : Z) (d : Redis.db) : bool :=
  (Z.of_nat (length (Redis.keys now d "clyrdia:")) >=? max_size self)%Z.

(** [key_ttls.sort(key=lambda x: x[1])]: a stable sort, by insertion. *)
Fixpoint insert_by_ttl (x : string * Z) (l : list (string * Z)) : list (string * Z) :=
  match l with
  | [] => [x]
  | y :: l' => if (snd x <=? snd y)%Z then x :: l else y :: insert_by_ttl x l'
  end.

Definition sort_by_ttl (l : list (string * Z)) : list (string * Z) :=
  foldr insert_by_ttl [] l.

(** The list [key_ttls] before it is sorted: the keys whose [TTL] is
    positive, each with it. *)
Definition key_ttls (now : Z) (d : Redis.db) : list (string * Z) :=
  List.filter (fun kt => (snd kt >? 0)%Z)
    (map (fun key => (key, Redis.ttl now d key)) (Redis.keys now d "clyrdia:")).

(** The keys [_evict_oldest] deletes. *)
Definition evicted (now : Z) (d : Redis.db) : list string :=
  let sorted := sort_by_ttl (key_ttls now d) in
  let to_remove := Z.max 1 (Z.of_nat (length sorted) / 10) in
  map fst (firstn (Z.to_nat to_remove) sorted).

(** [CacheManager._evict_oldest] on a connected client. *)
Definition _evict_oldest (now : Z) (d : Redis.db) : Redis.db :=
  match Redis.keys now d "clyrdia:" with
  | [] => d
  | _ => fold_left Redis.del (evicted now d) d
  end.

(** [ttl or self.default_ttl] *)
Definition effective_ttl (self : t) (ttl : option Z) : Z :=
  match ttl with
  | None | Some 0%Z => default_ttl self
  | Some n => n
  end.

(** [CacheManager.set]: the answer and the cache afterwards. The
    eviction comes before the write; an error reply of [SETEX] is an
    exception, which the handler of the method turns into the answer
    [False]. *)
Definition set (self : t) (now : Z) (key : string) (value : pyval) (ttl : option Z)
    : bool * t :=
  match redis_client self with
  | None => (false, self)
  | Some d =>
      let cache_key := _generate_key key in
      let ttl := effective_ttl self ttl in
      let d1 := if _check_size_limit self now d then _evict_oldest now d else d in
      match Redis.setex now d1 cache_key ttl (json_dumps value) with
      | None => (false, with_db self d1)
      | Some d2 => (true, with_db self d2)
      end
  end.

End Operations.

End CacheManager.
(* ===================================================================== *)
(** * The model service ([app/services/openai_service.py]) *)
(* ===================================================================== *)

(** What the completion endpoint of the model provider does with one
    request: it refuses it, or it streams chunks, each with a piece of
    content or none, until the stream ends or breaks. *)
Inductive stream_end : Type :=
  | EndOfStream
  | StreamRaises (e : exn).

Inductive completion : Type :=
  | CreateRaises (e : exn)
  | Stream (contents : list (option string)) (ending : stream_end).

(** The prompt [_build_analysis_prompt] writes is a fixed text around
    three holes; it is kept as what fills them. *)
Record prompt : Type := mk_prompt {
  prompt_text : string;
  prompt_industry : string;
  prompt_focus : string
}.

(** The dict that [_process_analysis_response] returns. *)
Record analysis_result : Type := mk_result {
  overall_risk : json;
  overall_risk_score : json;
  issues : json;
  recommendations : json;
  summary : json;
  raw_response : string
}.

(** The [data] of an event, which fixes its [type]. *)
Inductive chunk_data : Type :=
  | ProgressData (content full_response : string)
  | AnalysisData (r : analysis_result)
  | ErrorData (message : string).

(** An event [{type, data, timestamp, is_final}]. *)
Record chunk : Type := mk_chunk {
  data : chunk_data;
  timestamp : Q;
  is_final : bool
}.

Definition chunk_type (c : chunk) : string :=
  match data c with
  | ProgressData _ _ => "progress"
  | AnalysisData _ => "analysis_complete"
  | ErrorData _ => "error"
  end.

Module OpenAIService.

Section Service.
Context `{Json}.

(** The model provider, and the clock of the event loop read when the
    [n]-th event of a stream is built. *)
Variable create : prompt -> completion.
Variable loop_time : nat -> Q.

(** [OpenAIService._build_analysis_prompt] *)
Definition _build_analysis_prompt (contract_text : string)
    (industry : option string) (analysis_types : option (list string)) : prompt :=
  mk_prompt
    (Py.slice contract_text 0 8000)
    (match industry with None | Some "" => "General" | Some i => i end)
    (Py.join ", " (match analysis_types with
                   | None | Some [] => ["legal"; "financial"; "compliance"]
                   | Some l => l
                   end)).

(** The result returned when the response does not decode. *)
Definition fallback (response : string) : analysis_result :=
  mk_result (JString "medium") (JNumber 50) (JList [])
    (JList [JString "Review the contract manually for detailed analysis"])
    (JString "AI analysis completed but response parsing failed")
    response.

(** [OpenAIService._process_analysis_response]. The handler catches
    [json.JSONDecodeError] only: the [ValueError] of the guard, another
    exception of [json.loads] and the [AttributeError] of [.get] on a
    value that is no dict leave the method. *)
Definition _process_analysis_response (response : string) : outcome analysis_result :=
  let json_start := Py.find "{" response in
  let json_end := (Py.rfind "}" response + 1)%Z in
  if (json_start =? -1)%Z || (json_end =? 0)%Z then
    Raises (mk_exn "ValueError" "No JSON found in response")
  else
    let json_str := Py.slice response json_start json_end in
    match json_loads json_str with
    | JSONDecodeError => Returns (fallback response)
    | DecodingRaises e => Raises e
    | Decoded (JDict analysis_data) =>
        Returns (mk_result
          (PyJson.dict_get analysis_data "overall_risk" (JString "medium"))
          (PyJson.dict_get analysis_data "overall_risk_score" (JNumber 50))
          (PyJson.dict_get analysis_data "issues" (JList []))
          (PyJson.dict_get analysis_data "recommendations" (JList []))
          (PyJson.dict_get analysis_data "summary" (JString "Analysis completed"))
          response)
    | Decoded v =>
        Raises (mk_exn "AttributeError"
                  ("'" +:+ PyJson.type_name v +:+ "' object has no attribute 'get'"))
    end.

(** The progress events of the loop over the provider's chunks: [n]
    events were yielded before, and [full_response] is the text so far. *)
Fixpoint progress_events (n : nat) (full_response : string)
    (contents : list (option string)) : list chunk * string :=
  match contents with
  | [] => ([], full_response)
  | (None | Some "") :: rest => progress_events n full_response rest
  | Some content :: rest =>
      let full_response := full_response +:+ content in
      let '(events, final) := progress_events (S n) full_response rest in
      (mk_chunk (ProgressData content full_response) (loop_time n) false :: events,
       final)
  end.

Definition error_event (n : nat) (prefix : string) (e : exn) : chunk :=
  mk_chunk (ErrorData (prefix +:+ exn_str e)) (loop_time n) true.

(** [OpenAIService._stream_analysis]: every exception is caught and
    turned into a last event of type [error]. *)
Definition _stream_analysis (p : prompt) : generator chunk :=
  match create p with
  | CreateRaises e => mk_gen [error_event 0 "Streaming failed: " e] None
  | Stream contents ending =>
      let '(events, full_response) := progress_events 0 "" contents in
      let n := length events in
      match ending with
      | StreamRaises e =>
          mk_gen (events ++ [error_event n "Streaming failed: " e]) None
      | EndOfStream =>
          match _process_analysis_response full_response with
          | Returns analysis_result =>
              mk_gen (events ++ [mk_chunk (AnalysisData analysis_result) (loop_time n) true])
                     None
          | Raises e =>
              mk_gen (events ++ [error_event n "Streaming failed: " e]) None
          end
      end
  end.

(** [try: async for chunk in inner: yield chunk
     except Exception as e: yield error event]. *)
Definition relay_or_report (inner : generator chunk) : generator chunk :=
  match raised inner with
  | None => inner
  | Some e =>
      mk_gen (yields inner ++ [error_event (length (yields inner)) "Analysis failed: " e])
             None
  end.

(** [OpenAIService.analyze_contract] *)
Definition analyze_contract (contract_text : string) (industry : option string)
    (analysis_types : option (list string)) : generator chunk :=
  relay_or_report
    (_stream_analysis (_build_analysis_prompt contract_text industry analysis_types)).

End Service.

End OpenAIService.
(* ===================================================================== *)
(** * The request handlers ([app/api/v1/endpoints.py]) *)
(* ===================================================================== *)

(** The arguments [analyze_contract] passes to [ContractAnalysis]. *)
Record analysis_metadata : Type := mk_metadata {
  meta_industry : option string;
  meta_analysis_types : list string;
  meta_text_length : Z;
  meta_model_used : string
}.

Record ContractAnalysis : Type := mk_analysis {
  analysis_id : string;
  contract_hash : string;
  total_issues : Z;
  ca_overall_risk_score : json;
  risk_level : json;
  ca_issues : json;
  ca_summary : json;
  ca_recommendations : json;
  metadata : analysis_metadata;
  created_at : Q;
  processing_time : Q
}.

(** [ContractAnalysis(...).dict()]: the dict of the model that pydantic
    builds from the arguments, or [None] where it raises
    [ValidationError]. *)
Class Pydantic : Type :=
  model_dict : ContractAnalysis -> option pyval.

(** What [analyze_contract] returns: the model it built, as its dict,
    or the value it read from the cache. *)
Inductive analysis_body : Type :=
  | Fresh (analysis_response : pyval)
  | Cached (cached_analysis : json).

Module Endpoints.

(** What of a request the handlers read. *)
Record Request : Type := mk_request {
  forwarded_for : option string;
  client_host : option string;
  contract_text : option string;
  file_upload : option DocumentService.UploadFile;
  industry : option string;
  analysis_type : list string
}.

(** The settings the handlers read. *)
Record Settings : Type := mk_settings {
  max_file_size : Z;
  openai_model : string
}.

(** The module-level [rate_limiter] and [cache]. *)
Record State : Type := mk_state {
  rate_limiter : RateLimiter.t;
  cache : CacheManager.t
}.

(** What the world outside decides while one request is served: the
    clocks, the model provider, the identifier drawn and the record
    store. *)
Record World : Type := mk_world {
  time_now : Q;
  redis_now_get : Z;
  redis_now_set : Z;
  create : prompt -> completion;
  loop_time : nat -> Q;
  uuid4 : string;
  time_created : Q;
  time_elapsed : Q;
  store_fails : bool
}.

(** What a handler leaves behind: the response, the two module-level
    objects afterwards, the prompts sent to the model provider and
    whether the handler logged a failure of the record store. *)
Record Result (A : Type) : Type := mk_outcome {
  response : http A;
  state : State;
  model_calls : list prompt;
  store_error_logged : bool
}.
Arguments mk_outcome {A} response state model_calls store_error_logged.
Arguments response {A} r.
Arguments state {A} r.
Arguments model_calls {A} r.
Arguments store_error_logged {A} r.

(** [get_client_id] of [app/core/security.py] *)
Definition get_client_id (request : Request) : string :=
  match forwarded_for request with
  | Some (String _ _ as forwarded) =>
      Py.strip (hd "" (Py.split_on "," forwarded))
  | _ => match client_host request with
         | Some host => host
         | None => "unknown"
         end
  end.

(** [not contract_text] *)
Definition no_text (contract_text : option string) : bool :=
  match contract_text with
  | None | Some "" => true
  | Some _ => false
  end.

(** The loop of [analyze_contract] over the events of the model
    service: the first [analysis_complete] ends it with a result, the
    first [error] raises. [None] when the events run out. *)
Fixpoint first_outcome (events : list chunk) : option (http analysis_result) :=
  match events with
  | [] => None
  | chunk :: rest =>
      match data chunk with
      | AnalysisData analysis_result => Some (Respond analysis_result)
      | ErrorData message =>
          Some (Abort (mk_http 500 ("Analysis failed: " +:+ message)))
      | ProgressData _ _ => first_outcome rest
      end
  end.

Definition internal_error (where_ : string) : HTTPException :=
  mk_http 500 ("Internal server error during " +:+ where_).

(** [log_response(None, duration, logger)]: [log_response] reads
    [response.status_code] of the [None] it is given. *)
Definition log_response_of_None : exn :=
  mk_exn "AttributeError" "'NoneType' object has no attribute 'status_code'".

(** [try: ... finally: log_response(None, duration, logger)]: the
    exception raised in the [finally] clause takes the place of what the
    [try] statement was about to return or raise; what the statement
    did before stays done. *)
Definition finally_log_response {A} (r : Result A) : Result A :=
  mk_outcome (Unhandled log_response_of_None) (state r) (model_calls r)
    (store_error_logged r).

Section Handlers.
Context `{Hashlib} `{TextExtractor} `{Pydantic}.
Context `{Json}.
Variable settings : Settings.

(** [f"analysis:{contract_hash}:{industry}:{':'.join(analysis_type)}"] *)
Definition analysis_cache_key (contract_hash : string) (industry : option string)
    (analysis_type : list string) : string :=
  "analysis:" +:+ contract_hash +:+ ":" +:+ default "None" industry +:+ ":" +:+
  Py.join ":" analysis_type.

(** [hashlib.sha256(extracted_text.encode()).hexdigest()] *)
Definition text_fingerprint (extracted_text : string) : string :=
  sha256_hexdigest (Py.encode extracted_text).

(** The text and the fingerprint [analyze_contract] works with, from
    the upload or from the form field. *)
Definition prepare (request : Request) : http (string * string) :=
  match file_upload request with
  | Some upload =>
      match DocumentService.process_document upload (max_file_size settings) with
      | Abort e => Abort e
      | Unhandled e => Unhandled e
      | Respond (extracted_text, contract_hash) =>
          if negb (DocumentService.validate_document_content extracted_text) then
            Abort (mk_http 400
              "Invalid document content. Please ensure this is a valid contract.")
          else
            Respond (DocumentService.sanitize_text extracted_text, contract_hash)
      end
  | None =>
      let extracted_text := Security.sanitize_input (contract_text request) in
      if String.eqb extracted_text "" then
        Abort (mk_http 400 "Invalid contract text provided")
      else
        Respond (extracted_text, text_fingerprint extracted_text)
  end.

(** [analyze_contract] after the cache had nothing to offer: the
    analysis by the model, the record, the record store and the cache. *)
Definition analyze_afresh (st1 : State) (w : World) (request : Request)
    (extracted_text contract_hash cache_key : string) : Result analysis_body :=
  let sent :=
    OpenAIService._build_analysis_prompt extracted_text (industry request)
      (Some (analysis_type request)) in
  let events :=
    OpenAIService.analyze_contract (create w) (loop_time w) extracted_text
      (industry request) (Some (analysis_type request)) in
  match first_outcome (yields events) with
  | Some (Abort e) => mk_outcome (Abort e) st1 [sent] false
  | Some (Unhandled _) =>
      mk_outcome (Abort (internal_error "contract analysis")) st1 [sent] false
  | None =>
      match raised events with
      | Some _ => mk_outcome (Abort (internal_error "contract analysis")) st1 [sent] false
      | None => mk_outcome (Abort (mk_http 500 "Analysis failed to complete"))
                  st1 [sent] false
      end
  | Some (Respond analysis_result) =>
      match PyJson.len (issues analysis_result) with
      | None => mk_outcome (Abort (internal_error "contract analysis")) st1 [sent] false
      | Some n =>
          let arguments :=
            mk_analysis (uuid4 w) contract_hash n
              (overall_risk_score analysis_result)
              (overall_risk analysis_result)
              (issues analysis_result)
              (summary analysis_result)
              (recommendations analysis_result)
              (mk_metadata (industry request) (analysis_type request)
                 (Py.len extracted_text) (openai_model settings))
              (time_created w) (time_elapsed w) in
          match model_dict arguments with
          | None => mk_outcome (Abort (internal_error "contract analysis")) st1 [sent] false
          | Some analysis_response =>
              let '(_, cache1) :=
                CacheManager.set (cache st1) (redis_now_set w) cache_key
                  analysis_response (Some 3600%Z) in
              mk_outcome (Respond (Fresh analysis_response))
                         (mk_state (rate_limiter st1) cache1)
                         [sent] (store_fails w)
          end
      end
  end.

(** The [try] statement of [analyze_contract] with its two [except]
    clauses: what it is about to return or raise when control reaches
    the [finally] clause. *)
Definition analyze_contract_try (st : State) (w : World) (request : Request)
    : Result analysis_body :=
  let client_id := get_client_id request in
  let '(allowed, limiter) :=
    RateLimiter.is_allowed (rate_limiter st) (time_now w) client_id in
  let st1 := mk_state limiter (cache st) in
  if negb allowed then
    mk_outcome (Abort (mk_http 429 "Rate limit exceeded. Please try again later."))
               st1 [] false
  else if no_text (contract_text request) && negb (bool_decide (is_Some (file_upload request))) then
    mk_outcome (Abort (mk_http 400 "Either contract_text or file_upload must be provided"))
               st1 [] false
  else
    match prepare request with
    | Abort e => mk_outcome (Abort e) st1 [] false
    | Unhandled _ =>
        mk_outcome (Abort (internal_error "contract analysis")) st1 [] false
    | Respond (extracted_text, contract_hash) =>
        let cache_key :=
          analysis_cache_key contract_hash (industry request) (analysis_type request) in
        match CacheManager.get (cache st1) (redis_now_get w) cache_key with
        | Some cached_analysis =>
            if PyJson.truthy cached_analysis
            then mk_outcome (Respond (Cached cached_analysis)) st1 [] false
            else analyze_afresh st1 w request extracted_text contract_hash cache_key
        | None => analyze_afresh st1 w request extracted_text contract_hash cache_key
        end
    end.

(** [analyze_contract], the handler of [POST /analyze]: the [try]
    statement, then the [finally] clause, whose exception is what leaves
    the handler. *)
Definition analyze_contract (st : State) (w : World) (request : Request)
    : Result analysis_body :=
  finally_log_response (analyze_contract_try st w request).

(** The error event [generate_stream] builds in its handler. *)
Definition error_chunk (e : exn) (now : Q) : chunk :=
  mk_chunk (ErrorData (exn_str e)) now true.

(** The events [generate_stream] forwards from a run of events: each one
    up to and with the first that is final. *)
Fixpoint forwarded (events : list chunk) : list chunk :=
  match events with
  | [] => []
  | chunk :: rest => chunk :: (if is_final chunk then [] else forwarded rest)
  end.

(** [generate_stream]: what the connection receives from a generator of
    events. [now] is the clock read in the handler. *)
Definition generate_stream (source : generator chunk) (now : Q) : list chunk :=
  let sent := forwarded (yields source) in
  if existsb is_final (yields source) then sent
  else match raised source with
       | Some e => sent ++ [error_chunk e now]
       | None => sent
       end.

(** The text [analyze_contract_stream] works with. *)
Definition prepare_stream (request : Request) : http string :=
  match file_upload request with
  | Some upload =>
      match DocumentService.process_document upload (max_file_size settings) with
      | Abort e => Abort e
      | Unhandled e => Unhandled e
      | Respond (extracted_text, _) =>
          if negb (DocumentService.validate_document_content extracted_text) then
            Abort (mk_http 400
              "Invalid document content. Please ensure this is a valid contract.")
          else
            Respond (DocumentService.sanitize_text extracted_text)
      end
  | None =>
      let extracted_text := Security.sanitize_input (contract_text request) in
      if String.eqb extracted_text "" then
        Abort (mk_http 400 "Invalid contract text provided")
      else
        Respond extracted_text
  end.

(** [analyze_contract_stream], the handler of [POST /analyze/stream]:
    the body is the sequence of events the connection receives. *)
Definition analyze_contract_stream (st : State) (w : World) (request : Request)
    : Result (list chunk) :=
  let client_id := get_client_id request in
  let '(allowed, limiter) :=
    RateLimiter.is_allowed (rate_limiter st) (time_now w) client_id in
  let st1 := mk_state limiter (cache st) in
  if negb allowed then
    mk_outcome (Abort (mk_http 429 "Rate limit exceeded. Please try again later."))
               st1 [] false
  else if no_text (contract_text request) && negb (bool_decide (is_Some (file_upload request))) then
    mk_outcome (Abort (mk_http 400 "Either contract_text or file_upload must be provided"))
               st1 [] false
  else
    match prepare_stream request with
    | Abort e => mk_outcome (Abort e) st1 [] false
    | Unhandled _ =>
        mk_outcome (Abort (internal_error "streaming analysis")) st1 [] false
    | Respond extracted_text =>
        let sent :=
          OpenAIService._build_analysis_prompt extracted_text (industry request)
            (Some (analysis_type request)) in
        let events :=
          OpenAIService.analyze_contract (create w) (loop_time w) extracted_text
            (industry request) (Some (analysis_type request)) in
        mk_outcome (Respond (generate_stream events (time_created w))) st1 [sent] false
    end.

End Handlers.

End Endpoints.
(* ===================================================================== *)
(** * The batch task ([app/tasks/analysis_tasks.py]) *)
(* ===================================================================== *)

Module AnalysisTasks.

(** An item of [contracts_data]: a dict read with [.get]. [cd_id] is
    [JNull] when the key is absent. *)
Record contract_data : Type := mk_item {
  cd_id : json;
  cd_text : option string;
  cd_industry : option string;
  cd_analysis_types : option (list string)
}.

(** An entry of the list [results]. *)
Inductive item_result : Type :=
  | ItemCompleted (contract_id : json) (analysis_id : string) (result : analysis_result)
  | ItemFailed (contract_id : json) (error : string).

(** The dict the task returns. *)
Record report : Type := mk_report {
  total : Z;
  completed : Z;
  failed : Z;
  results : list item_result
}.

(** The loop [for chunk in ...: if chunk["type"] == "analysis_complete":
    analysis_result = chunk["data"]; break]. *)
Fixpoint first_complete (events : list chunk) : option analysis_result :=
  match events with
  | [] => None
  | chunk :: rest =>
      match data chunk with
      | AnalysisData analysis_result => Some analysis_result
      | _ => first_complete rest
      end
  end.

Section Batch.

(** The collaborators as the worker meets them at the item of index
    [i]: what iterating [openai_service.analyze_contract(...)] gives, and
    what the two calls of the record store do. *)
Variable analyze : nat -> string -> option string -> option (list string) -> generator chunk.
Variable store_analysis : nat -> analysis_result -> string -> outcome string.
Variable store_issues : nat -> string -> json -> outcome unit.
Variable task_id : string.

(** The body of the loop for one item: the entry it appends. Every
    exception raised in it is caught by the handler of the item. *)
Definition analyze_item (i : nat) (contract : contract_data) : item_result :=
  let contract_text := default "" (cd_text contract) in
  let industry := cd_industry contract in
  let analysis_types :=
    default ["legal"; "financial"; "compliance"] (cd_analysis_types contract) in
  let events := analyze i contract_text industry (Some analysis_types) in
  match first_complete (yields events) with
  | Some analysis_result =>
      let contract_hash := "batch_" +:+ task_id +:+ "_" +:+ pretty i in
      match store_analysis i analysis_result contract_hash with
      | Raises e => ItemFailed (cd_id contract) (exn_str e)
      | Returns analysis_id =>
          if PyJson.truthy (issues analysis_result) then
            match store_issues i analysis_id (issues analysis_result) with
            | Raises e => ItemFailed (cd_id contract) (exn_str e)
            | Returns _ => ItemCompleted (cd_id contract) analysis_id analysis_result
            end
          else ItemCompleted (cd_id contract) analysis_id analysis_result
      end
  | None =>
      match raised events with
      | Some e => ItemFailed (cd_id contract) (exn_str e)
      | None => ItemFailed (cd_id contract) "Analysis failed to complete"
      end
  end.

(** One turn of [for i, contract_data in enumerate(contracts_data)]:
    the counters and the list after it. *)
Definition batch_step (acc : nat * (Z * Z * list item_result))
    (contract : contract_data) : nat * (Z * Z * list item_result) :=
  let '(i, (completed, failed, results)) := acc in
  match analyze_item i contract with
  | ItemCompleted _ _ _ as entry => (S i, ((completed + 1)%Z, failed, results ++ [entry]))
  | ItemFailed _ _ as entry => (S i, (completed, (failed + 1)%Z, results ++ [entry]))
  end.

(** [batch_analyze_contracts] *)
Definition batch_analyze_contracts (contracts_data : list contract_data) : report :=
  let total_contracts := Z.of_nat (length contracts_data) in
  let '(_, (completed, failed, results)) :=
    fold_left batch_step contracts_data (O, (0%Z, 0%Z, [])) in
  mk_report total_contracts completed failed results.

End Batch.

End AnalysisTasks.

(** The batch task on a list of any values. [AnalysisTasks] above is the
    loop on items that are dicts; an item of another type has no method
    [get]: the body of the loop raises [AttributeError], and so does the
    handler of the item when it reads [contract_data.get("id")] for the
    entry of the failure. That exception leaves the loop; the handler of
    the task sets the state [FAILURE] and raises it again. *)
Module BatchTask.
Import AnalysisTasks.

(** An item of [contracts_data]: a dict, or a value of another type,
    kept as the name of its type ([str], [list], [int], ...). *)
Inductive item : Type :=
  | DictItem (contract_data : contract_data)
  | OtherItem (type_name : string).

(** [contract_data.get] on a value that is no dict. *)
Definition no_get (type_name : string) : exn :=
  mk_exn "AttributeError" ("'" +:+ type_name +:+ "' object has no attribute 'get'").

Section Batch.
Variable analyze : nat -> string -> option string -> option (list string) -> generator chunk.
Variable store_analysis : nat -> analysis_result -> string -> outcome string.
Variable store_issues : nat -> string -> json -> outcome unit.
Variable task_id : string.

(** One turn of the loop, unless an exception has left it before. *)
Definition batch_step (acc : outcome (nat * (Z * Z * list item_result)))
    (contract_data : item) : outcome (nat * (Z * Z * list item_result)) :=
  match acc with
  | Raises e => Raises e
  | Returns acc =>
      match contract_data with
      | DictItem contract_data =>
          Returns (AnalysisTasks.batch_step analyze store_analysis store_issues
                     task_id acc contract_data)
      | OtherItem type_name => Raises (no_get type_name)
      end
  end.

(** [batch_analyze_contracts] *)
Definition batch_analyze_contracts (contracts_data : list item) : outcome report :=
  let total_contracts := Z.of_nat (length contracts_data) in
  match fold_left batch_step contracts_data (Returns (O, (0%Z, 0%Z, []))) with
  | Returns (_, (completed, failed, results)) =>
      Returns (mk_report total_contracts completed failed results)
  | Raises e => Raises e
  end.

End Batch.

End BatchTask.
(* ===================================================================== *)
(** * The single-contract task ([app/tasks/analysis_tasks.py]) *)
(* ===================================================================== *)

Module AsyncTask.





Section Task.

(** The collaborators as the worker meets them: what iterating
    [openai_service.analyze_contract(...)] gives, and what the two calls
    of the record store do. The call [cache.set(...)] of the task is the
    call of a coroutine function that is not awaited: it runs nothing
    and raises nothing. *)
Variable analyze : string -> option string -> option (list string) -> generator chunk.
Variable store_analysis : analysis_result -> string -> outcome string.
Variable store_issues : string -> json -> outcome unit.
Variable task_id : string.



End Task.

End AsyncTask.

(* ===================================================================== *)
(** * The handler of the templates ([app/api/v1/endpoints.py]) *)
(* ===================================================================== *)

Module Templates.
Import Endpoints.

(** [i.value] for a [str]: there is no such attribute. *)
Definition value (i : string) : outcome string :=
  Raises (mk_exn "AttributeError" "'str' object has no attribute 'value'").

(** [[i.value for i in allowed_file_types]] *)
Fixpoint values (allowed_file_types : list string) : outcome (list string) :=
  match allowed_file_types with
  | [] => Returns []
  | i :: rest =>
      match value i with
      | Raises e => Raises e
      | Returns v =>
          match values rest with
          | Raises e => Raises e
          | Returns vs => Returns (v :: vs)
          end
      end
  end.

Section Handler.

(** The type of the library the handler returns, the setting
    [allowed_file_types] (a list of [str]) and the handler from the look
    into the cache on, for an industry that passed the validation. *)
Variable TemplateLibrary : Type.
Variable allowed_file_types : list string.
Variable retrieve : State -> string -> Result TemplateLibrary.

(** [not industry or industry not in [i.value for i in
    settings.allowed_file_types]] *)
Definition invalid_industry (industry : string) : outcome bool :=
  match industry with
  | "" => Returns true
  | _ =>
      match values allowed_file_types with
      | Raises e => Raises e
      | Returns vs => Returns (negb (existsb (String.eqb industry) vs))
      end
  end.

(** The [try] statement of [get_templates] with its two [except]
    clauses. *)
Definition get_templates_try (st : State) (now : Q) (request : Request)
    (industry : string) : Result TemplateLibrary :=
  let client_id := get_client_id request in
  let '(allowed, limiter) := RateLimiter.is_allowed (rate_limiter st) now client_id in
  let st1 := mk_state limiter (cache st) in
  if negb allowed then
    mk_outcome (Abort (mk_http 429 "Rate limit exceeded. Please try again later."))
               st1 [] false
  else
    match invalid_industry industry with
    | Raises _ =>
        mk_outcome
          (Abort (mk_http 500 "Internal server error while retrieving templates"))
          st1 [] false
    | Returns true =>
        mk_outcome (Abort (mk_http 400 "Invalid industry specified")) st1 [] false
    | Returns false => retrieve st1 industry
    end.

(** [get_templates], the handler of [GET /templates/{industry}]: the
    [try] statement, then the [finally] clause
    [log_response(None, duration, logger)]. *)
Definition get_templates (st : State) (now : Q) (request : Request)
    (industry : string) : Result TemplateLibrary :=
  finally_log_response (get_templates_try st now request industry).

End Handler.

End Templates.
(* ===================================================================== *)
(** * Concrete collaborators for the examples *)
(* ===================================================================== *)

Module Examples.

(** Stand-ins for the libraries, enough to run the handlers on concrete
    requests: digests that return the bytes they are given, an extractor
    that reads the bytes of a file as its text, and a [json] module that
    knows the empty object and one more value with its text. *)
Definition plain_hashlib : Hashlib :=
  {| md5_hexdigest := fun b => b; sha256_hexdigest := fun b => b |}.

Definition plain_extractor : TextExtractor :=
  fun _ content => Returns content.

Definition json_knowing (text : string) (value : json) : Json :=
  {| json_text := fun j => match j with
                           | JDict [] => "{}"
                           | _ => text
                           end;
     json_loads := fun s =>
       if String.eqb s "{}" then Decoded (JDict [])
       else if String.eqb s text then Decoded value
       else JSONDecodeError |}.

(** The [json] module on the empty object and on [null]. *)
Definition empty_object_json : Json := json_knowing "null" JNull.

(** A pydantic that accepts every record and changes no value; the
    datetime of [created_at] is kept as the text of its timestamp. *)
Definition any_schema : Pydantic := fun a =>
  Some (PyDict
    [("analysis_id", PyStr (analysis_id a));
     ("contract_hash", PyStr (contract_hash a));
     ("total_issues", PyNumber (inject_Z (total_issues a)));
     ("overall_risk_score", PyJson.of_json (ca_overall_risk_score a));
     ("risk_level", PyJson.of_json (risk_level a));
     ("issues", PyJson.of_json (ca_issues a));
     ("summary", PyJson.of_json (ca_summary a));
     ("recommendations", PyJson.of_json (ca_recommendations a));
     ("analysis_metadata",
      PyDict [("industry", from_option PyStr PyNone (meta_industry (metadata a)));
              ("analysis_types", PyList (map PyStr (meta_analysis_types (metadata a))));
              ("text_length", PyNumber (inject_Z (meta_text_length (metadata a))));
              ("model_used", PyStr (meta_model_used (metadata a)))]);
     ("created_at", PyObject ("datetime@" +:+ pretty (Qnum (created_at a))));
     ("processing_time", PyNumber (processing_time a))]).

Definition settings : Endpoints.Settings :=
  Endpoints.mk_settings 10485760 "gpt-4".

(** A provider that streams the empty object in one chunk. *)
Definition answers_empty_object : prompt -> completion :=
  fun _ => Stream [Some "{}"] EndOfStream.

(** A provider that streams a sentence without braces. *)
Definition answers_prose : prompt -> completion :=
  fun _ => Stream [Some "I cannot "; Some "analyse this."] EndOfStream.

Definition world (create : prompt -> completion) (now : Q) : Endpoints.World :=
  Endpoints.mk_world now 0 0 create (fun _ => 0%Q) "id-1" now 1%Q false.

(** The two module-level objects of a process that has just started,
    with the limits and the cache size of the default settings, and
    Redis out of reach or holding nothing. *)
Definition fresh_offline : Endpoints.State :=
  Endpoints.mk_state (RateLimiter.init 60 1000) (CacheManager.mk None 3600 1000).

Definition fresh_online : Endpoints.State :=
  Endpoints.mk_state (RateLimiter.init 60 1000) (CacheManager.mk (Some ∅) 3600 1000).

Definition text_request (text : string) : Endpoints.Request :=
  Endpoints.mk_request None (Some "10.0.0.1") (Some text) None None
    ["legal"; "financial"; "compliance"].

Definition upload_request (text : string) : Endpoints.Request :=
  Endpoints.mk_request None (Some "10.0.0.1") None
    (Some (DocumentService.mk_upload "contract.txt" "text/plain"
             (Some (Py.len text)) text))
    None ["legal"; "financial"; "compliance"].

End Examples.
(* ===================================================================== *)
(** * The other methods of the cache ([app/core/cache.py]) *)
(* ===================================================================== *)

(** Three more commands of the server. *)
Module RedisCommands.

(** [EXISTS key]: the number of the keys given that the server holds. *)
Definition exists_ (now : Z) (d : Redis.db) (k : string) : Z :=
  match Redis.lookup now d k with
  | Some _ => 1
  | None => 0
  end.

(** [DEL key]: the number of keys removed, and the keys afterwards. *)
Definition delete (now : Z) (d : Redis.db) (k : string) : Z * Redis.db :=
  (exists_ now d k, Redis.del d k).

(** [EXPIRE key seconds]: whether the time to live was set, and the
    keys afterwards; [None] where the server replies with the error of
    an invalid expire time, which it does, before it looks for the key,
    when the number of seconds is not in range. An instant that is not
    in the future deletes the key. *)
Definition expire (now : Z) (d : Redis.db) (k : string) (seconds : Z)
    : option (bool * Redis.db) :=
  if negb (Redis.in_range now seconds) || (seconds <? - (Redis.latest / 1000))%Z
  then None
  else
    match Redis.lookup now d k with
    | None => Some (false, d)
    | Some e =>
        Some (true,
              if (seconds <=? 0)%Z then Redis.del d k
              else <[k := Redis.mk_entry (Redis.payload e)
                            (Some (now + 1000 * seconds)%Z)]> d)
    end.

End RedisCommands.

(** What [get_cached_or_fetch] hands back: the value read from the cache
    or the value [fetch_func] returned. *)
Inductive fetched : Type :=
  | FromCache (value : json)
  | FromFetch (value : pyval).

Record fetch_result : Type := mk_fetch {
  fetch_value : outcome fetched;
  cache_after : CacheManager.t;
  fetch_called : bool
}.

Module CacheMethods.
Import CacheManager.

Section Methods.
Context `{Json} `{Hashlib}.

(** [CacheManager.delete] *)
Definition delete (self : t) (now : Z) (key : string) : bool * t :=
  match redis_client self with
  | None => (false, self)
  | Some d =>
      let cache_key := _generate_key key in
      let '(result, d1) := RedisCommands.delete now d cache_key in
      ((result >? 0)%Z, with_db self d1)
  end.

(** [CacheManager.exists] *)
Definition exists_ (self : t) (now : Z) (key : string) : bool :=
  match redis_client self with
  | None => false
  | Some d =>
      let cache_key := _generate_key key in
      (RedisCommands.exists_ now d cache_key >? 0)%Z
  end.

(** [CacheManager.expire]: an error reply of [EXPIRE] is an exception,
    which the handler of the method turns into the answer [False]. *)
Definition expire (self : t) (now : Z) (key : string) (ttl : Z) : bool * t :=
  match redis_client self with
  | None => (false, self)
  | Some d =>
      let cache_key := _generate_key key in
      match RedisCommands.expire now d cache_key ttl with
      | None => (false, self)
      | Some (result, d1) => (result, with_db self d1)
      end
  end.

(** [CacheManager.clear_all] *)
Definition clear_all (self : t) (now : Z) : bool * t :=
  match redis_client self with
  | None => (false, self)
  | Some d =>
      match Redis.keys now d "clyrdia:" with
      | [] => (true, self)
      | keys => (true, with_db self (fold_left Redis.del keys d))
      end
  end.

(** [get_cached_or_fetch] on the cache of the module. [fetch_func] is
    what the call of [fetch_func] with the arguments given does; the reading and
    the writing happen at two instants of the server's clock. JSON
    [null] is read back as [None]. *)
Definition get_cached_or_fetch (cache : t) (now_get now_set : Z) (key : string)
    (fetch_func : outcome pyval) (ttl : option Z) : fetch_result :=
  let fetch :=
    match fetch_func with
    | Raises e => mk_fetch (Raises e) cache true
    | Returns PyNone => mk_fetch (Returns (FromFetch PyNone)) cache true
    | Returns fresh_value =>
        mk_fetch (Returns (FromFetch fresh_value))
          (snd (set cache now_set key fresh_value ttl)) true
    end in
  match get cache now_get key with
  | None | Some JNull => fetch
  | Some cached_value => mk_fetch (Returns (FromCache cached_value)) cache false
  end.

End Methods.

End CacheMethods.
(* ===================================================================== *)
(** * Properties of the rate limiter *)
(* ===================================================================== *)

Module RateLimiterFacts.
Import RateLimiter.

Lemma Qgtb_lt (x y : Q) : Qgtb x y = true <-> (y < x)%Q.
Proof.
  unfold Qgtb. rewrite negb_true_iff, <- not_true_iff_false, Qle_bool_iff.
  split; [apply Qnot_le_lt | apply Qlt_not_le].
Qed.

(** What a pruned list leaves under a key. *)
Definition keep_nonempty (l : list Q) : option (list Q) :=
  match l with [] => None | _ => Some l end.

Lemma lookup_cleanup_client h d k c :
  cleanup_client h d k !! c =
  if decide (k = c) then d !! c ≫= (fun l => keep_nonempty (prune h l))
  else d !! c.
Proof.
  unfold cleanup_client. destruct (decide (k = c)) as [->|Hne].
  - destruct (d !! c) as [l|] eqn:E; simpl; [|done].
    destruct (prune h l) eqn:P; simpl.
    + by rewrite lookup_delete_eq.
    + by rewrite lookup_insert_eq.
  - destruct (d !! k) as [l|] eqn:E; [|done].
    destruct (prune h l); [by rewrite lookup_delete_ne|by rewrite lookup_insert_ne].
Qed.

Lemma lookup_fold_cleanup h ks : forall d c,
  NoDup ks ->
  fold_left (cleanup_client h) ks d !! c =
  if decide (c ∈ ks) then d !! c ≫= (fun l => keep_nonempty (prune h l))
  else d !! c.
Proof.
  induction ks as [|k ks IH]; intros d c Hnd; simpl.
  - destruct (decide (c ∈ [])) as [Hin|]; [by apply elem_of_nil in Hin|done].
  - apply NoDup_cons in Hnd as [Hk Hnd]. rewrite IH by done.
    rewrite lookup_cleanup_client.
    destruct (decide (c ∈ ks)) as [Hin|Hnin].
    + destruct (decide (k = c)) as [->|Hne]; [done|].
      rewrite decide_True; [done|by apply elem_of_cons; right].
    + destruct (decide (k = c)) as [->|Hne].
      * rewrite decide_True; [done|by apply elem_of_cons; left].
      * rewrite decide_False; [done|].
        intros [->|?]%elem_of_cons; done.
Qed.

Lemma lookup_cleanup_dict h d c :
  cleanup_dict h d !! c = d !! c ≫= (fun l => keep_nonempty (prune h l)).
Proof.
  unfold cleanup_dict. rewrite lookup_fold_cleanup.
  - destruct (decide (c ∈ map fst (map_to_list d))) as [Hin|Hnin]; [done|].
    destruct (d !! c) as [l|] eqn:E; [|done].
    exfalso. apply Hnin. apply list_elem_of_fmap. exists (c, l). split; [done|].
    by apply elem_of_map_to_list.
  - apply NoDup_fst_map_to_list.
Qed.

(** After the sweep a client's record is its pruned record. *)
Lemma cleanup_dict_total h d c :
  cleanup_dict h d !!! c = prune h (d !!! c).
Proof.
  rewrite !lookup_total_alt, lookup_cleanup_dict.
  destruct (d !! c) as [l|]; simpl; [|done].
  by destruct (prune h l).
Qed.

Lemma ensure_total c d k : ensure c d !!! k = d !!! k.
Proof.
  unfold ensure. destruct (d !! c) eqn:E; [done|].
  rewrite !lookup_total_alt. destruct (decide (c = k)) as [->|Hne].
  - by rewrite lookup_insert_eq, E.
  - by rewrite lookup_insert_ne.
Qed.

Lemma append_total_eq c x d : append c x d !!! c = (d !!! c) ++ [x].
Proof. unfold append. by rewrite lookup_total_insert_eq. Qed.

Lemma append_total_ne c x d k : c <> k -> append c x d !!! k = d !!! k.
Proof. intros. unfold append. by rewrite lookup_total_insert_ne. Qed.

(** The post-prune records the admission test reads. *)
Definition minute_pruned (self : t) (now : Q) (c : string) : list Q :=
  prune (now - 60)%Q (minute_seq self c).
Definition hour_pruned (self : t) (now : Q) (c : string) : list Q :=
  prune (now - 3600)%Q (hour_seq self c).

Lemma is_allowed_true self now c :
  len (minute_pruned self now c) < requests_per_minute self ->
  len (hour_pruned self now c) < requests_per_hour self ->
  fst (is_allowed self now c) = true /\
  minute_seq (snd (is_allowed self now c)) c = minute_pruned self now c ++ [now] /\
  hour_seq (snd (is_allowed self now c)) c = hour_pruned self now c ++ [now] /\
  forall k, k <> c ->
    minute_seq (snd (is_allowed self now c)) k = minute_pruned self now k /\
    hour_seq (snd (is_allowed self now c)) k = hour_pruned self now k.
Proof.
  intros Hm Hh. unfold is_allowed, minute_pruned, hour_pruned, minute_seq, hour_seq in *.
  simpl. rewrite !ensure_total, !cleanup_dict_total.
  destruct (Z.geb_spec (len (prune (now - 60) (minute_requests self !!! c)))
              (requests_per_minute self)); [lia|].
  destruct (Z.geb_spec (len (prune (now - 3600) (hour_requests self !!! c)))
              (requests_per_hour self)); [lia|].
  simpl. rewrite !append_total_eq, !ensure_total, !cleanup_dict_total.
  repeat split; try done.
  - rewrite append_total_ne, ensure_total, cleanup_dict_total; done.
  - rewrite append_total_ne, ensure_total, cleanup_dict_total; done.
Qed.

Lemma is_allowed_false self now c :
  requests_per_minute self <= len (minute_pruned self now c) \/
  requests_per_hour self <= len (hour_pruned self now c) ->
  fst (is_allowed self now c) = false /\
  forall k,
    minute_seq (snd (is_allowed self now c)) k = minute_pruned self now k /\
    hour_seq (snd (is_allowed self now c)) k = hour_pruned self now k.
Proof.
  intros Hor. unfold is_allowed, minute_pruned, hour_pruned, minute_seq, hour_seq in *.
  simpl. rewrite !ensure_total, !cleanup_dict_total.
  destruct (Z.geb_spec (len (prune (now - 60) (minute_requests self !!! c)))
              (requests_per_minute self)); simpl.
  - split; [done|]. intros k. by rewrite ensure_total, !cleanup_dict_total.
  - destruct (Z.geb_spec (len (prune (now - 3600) (hour_requests self !!! c)))
                (requests_per_hour self)); simpl; [|lia].
    split; [done|]. intros k. by rewrite !ensure_total, !cleanup_dict_total.
Qed.

Lemma is_allowed_limits self now c :
  requests_per_minute (snd (is_allowed self now c)) = requests_per_minute self /\
  requests_per_hour (snd (is_allowed self now c)) = requests_per_hour self.
Proof.
  unfold is_allowed. simpl.
  repeat match goal with |- context [if ?b then _ else _] => destruct b end; done.
Qed.

(** Both outcomes at once: what every client's record is after a call. *)
Lemma is_allowed_step self now c k :
  let r := is_allowed self now c in
  let added := if fst r && bool_decide (c = k) then [now] else [] in
  minute_seq (snd r) k = minute_pruned self now k ++ added /\
  hour_seq (snd r) k = hour_pruned self now k ++ added.
Proof.
  simpl.
  destruct (Z.lt_ge_cases (len (minute_pruned self now c)) (requests_per_minute self)) as [Hm|Hm].
  - destruct (Z.lt_ge_cases (len (hour_pruned self now c)) (requests_per_hour self)) as [Hh|Hh].
    + destruct (is_allowed_true self now c Hm Hh) as (-> & Em & Eh & Ek). simpl.
      case_bool_decide as Hck.
      * subst k. by rewrite Em, Eh.
      * destruct (Ek k) as [-> ->]; [congruence|]. by rewrite !app_nil_r.
    + destruct (is_allowed_false self now c (or_intror Hh)) as (-> & Ek).
      simpl. destruct (Ek k) as [-> ->]. by rewrite !app_nil_r.
  - destruct (is_allowed_false self now c (or_introl Hm)) as (-> & Ek).
    simpl. destruct (Ek k) as [-> ->]. by rewrite !app_nil_r.
Qed.

Lemma prune_app h l1 l2 : prune h (l1 ++ l2) = prune h l1 ++ prune h l2.
Proof. unfold prune. apply List.filter_app. Qed.

Lemma prune_prune h1 h2 l : (h1 <= h2)%Q -> prune h2 (prune h1 l) = prune h2 l.
Proof.
  intros Hle. induction l as [|x l IH]; simpl; [done|].
  destruct (Qgtb x h1) eqn:E1; simpl.
  - by rewrite IH.
  - destruct (Qgtb x h2) eqn:E2; [|done].
    apply Qgtb_lt in E2. apply not_true_iff_false in E1.
    exfalso. apply E1, Qgtb_lt. lra.
Qed.

Lemma prune_now h now : (h < now)%Q -> prune h [now] = [now].
Proof. intros Hlt. simpl. apply Qgtb_lt in Hlt. by rewrite Hlt. Qed.

(** The clock never runs backwards over the calls, up to the present. *)
Fixpoint in_order (ts : list Q) (now : Q) : Prop :=
  match ts with
  | [] => True
  | t :: ts' =>
      (t <= match ts' with [] => now | t' :: _ => t' end)%Q /\ in_order ts' now
  end.

Definition first_time (ts : list Q) (now : Q) : Q :=
  match ts with [] => now | t :: _ => t end.

(** The limiter's records are always the admitted calls pruned at the
    last clock reading. *)
Lemma run_records calls : forall self t0 (M Hr : string -> list Q) now k,
  (forall c, minute_seq self c = prune (t0 - 60)%Q (M c)) ->
  (forall c, hour_seq self c = prune (t0 - 3600)%Q (Hr c)) ->
  (t0 <= first_time (map fst calls) now)%Q ->
  in_order (map fst calls) now ->
  let r := run self calls in
  minute_pruned (snd r) now k = prune (now - 60)%Q (M k ++ admitted k calls (fst r)) /\
  hour_pruned (snd r) now k = prune (now - 3600)%Q (Hr k ++ admitted k calls (fst r)).
Proof.
  induction calls as [|[t c0] rest IH]; intros self t0 M Hr now k HM HH Ht0 Hord; simpl in *.
  - unfold minute_pruned, hour_pruned. rewrite HM, HH, !app_nil_r.
    split; apply prune_prune; lra.
  - destruct Hord as [Hnext Hord].
    destruct (is_allowed self t c0) as [b s1] eqn:Ea.
    destruct (run s1 rest) as [bs s2] eqn:Er. simpl.
    set (M' := fun c => M c ++ (if b && bool_decide (c0 = c) then [t] else [])).
    set (Hr' := fun c => Hr c ++ (if b && bool_decide (c0 = c) then [t] else [])).
    assert (HM' : forall c, minute_seq s1 c = prune (t - 60)%Q (M' c)).
    { intros c. pose proof (is_allowed_step self t c0 c) as [Em _].
      rewrite Ea in Em. simpl in Em. rewrite Em. unfold M', minute_pruned.
      rewrite prune_app, HM, prune_prune by lra. f_equal.
      destruct (b && bool_decide (c0 = c)); [|done].
      symmetry. apply prune_now. lra. }
    assert (HH' : forall c, hour_seq s1 c = prune (t - 3600)%Q (Hr' c)).
    { intros c. pose proof (is_allowed_step self t c0 c) as [_ Eh].
      rewrite Ea in Eh. simpl in Eh. rewrite Eh. unfold Hr', hour_pruned.
      rewrite prune_app, HH, prune_prune by lra. f_equal.
      destruct (b && bool_decide (c0 = c)); [|done].
      symmetry. apply prune_now. lra. }
    specialize (IH s1 t M' Hr' now k HM' HH').
    rewrite Er in IH. simpl in IH.
    destruct IH as [IHm IHh].
    { destruct rest as [|[t' c'] rest']; simpl in *; lra. }
    { done. }
    rewrite IHm, IHh. unfold M', Hr'.
    destruct (b && bool_decide (c0 = k)); simpl;
      rewrite <- ?app_assoc; simpl; rewrite ?app_nil_r; done.
Qed.

(** The admitted calls of a client that are still inside the windows. *)
(** The window of the specification, written without the limiter: the
    clock readings of a list that lie less than [span] seconds before
    [now]. A reading exactly [span] seconds old is outside. *)
Definition within (span now : Q) (ts : list Q) : list Q :=
  List.filter (fun t => if Qlt_le_dec (now - span) t then true else false) ts.

(** The admitted calls of a client in the last 60 and 3600 seconds. *)
Definition in_minute_window (L H : Z) (calls : list (Q * string)) (now : Q)
    (c : string) : list Q :=
  within 60 now (admitted c calls (fst (run (init L H) calls))).
Definition in_hour_window (L H : Z) (calls : list (Q * string)) (now : Q)
    (c : string) : list Q :=
  within 3600 now (admitted c calls (fst (run (init L H) calls))).

(** The comprehension of the sweep keeps the readings of the window. *)
Lemma prune_within span now l : prune (now - span) l = within span now l.
Proof.
  unfold prune, within. induction l as [|t l IH]; simpl; [done|].
  rewrite IH. destruct (Qlt_le_dec (now - span) t) as [Hlt|Hle].
  - by rewrite (proj2 (Qgtb_lt t (now - span)) Hlt).
  - destruct (Qgtb t (now - span)) eqn:E; [|done].
    apply Qgtb_lt in E. lra.
Qed.

Lemma run_limits calls : forall self,
  requests_per_minute (snd (run self calls)) = requests_per_minute self /\
  requests_per_hour (snd (run self calls)) = requests_per_hour self.
Proof.
  induction calls as [|[t c] rest IH]; intros self; simpl; [done|].
  destruct (is_allowed self t c) as [b s1] eqn:Ea.
  destruct (run s1 rest) as [bs s2] eqn:Er. simpl.
  specialize (IH s1). rewrite Er in IH. simpl in IH.
  pose proof (is_allowed_limits self t c) as Hl. rewrite Ea in Hl. simpl in Hl.
  destruct IH, Hl. split; congruence.
Qed.

Lemma run_windows L H calls now k :
  in_order (map fst calls) now ->
  minute_pruned (snd (run (init L H) calls)) now k = in_minute_window L H calls now k /\
  hour_pruned (snd (run (init L H) calls)) now k = in_hour_window L H calls now k.
Proof.
  intros Hord. unfold in_minute_window, in_hour_window.
  rewrite <- !prune_within.
  apply (run_records calls (init L H) (first_time (map fst calls) now)
           (fun _ => []) (fun _ => []) now k); try done; try lra.
Qed.

(** C1. Start from a fresh limiter with per-minute limit [L] and per-hour
    limit [H], and let any clients make any calls while the clock does not
    run backwards. At the next call of a client [c]: when fewer than [L]
    of its admitted calls lie in the last 60 seconds and fewer than [H]
    in the last 3600 seconds, [is_allowed] answers true and appends the
    clock reading to both of the client's sequences; when the minute
    count has reached [L] or the hour count [H], it answers false and
    no client's sequence receives a timestamp. So the call that follows
    [L] admitted ones within 60 seconds is refused. *)
Theorem is_allowed_rolling_window
    (L H : Z) (calls : list (Q * string)) (now : Q) (c : string) :
  in_order (map fst calls) now ->
  let self := snd (run (init L H) calls) in
  let m := in_minute_window L H calls now c in
  let h := in_hour_window L H calls now c in
  let r := is_allowed self now c in
  (len m < L -> len h < H ->
     fst r = true /\
     minute_seq (snd r) c = m ++ [now] /\
     hour_seq (snd r) c = h ++ [now]) /\
  (L <= len m \/ H <= len h ->
     fst r = false /\
     forall k, minute_seq (snd r) k = in_minute_window L H calls now k /\
               hour_seq (snd r) k = in_hour_window L H calls now k) /\
  (L <= len m -> fst r = false).
Proof.
  intros Hord self m h r.
  pose proof (run_limits calls (init L H)) as [HL HH]. simpl in HL, HH.
  assert (Hw : forall k,
             minute_pruned self now k = in_minute_window L H calls now k /\
             hour_pruned self now k = in_hour_window L H calls now k)
    by (intros k; by apply run_windows).
  destruct (Hw c) as [Hm Hh].
  assert (Hrej : L <= len m \/ H <= len h ->
     fst r = false /\
     forall k, minute_seq (snd r) k = in_minute_window L H calls now k /\
               hour_seq (snd r) k = in_hour_window L H calls now k).
  { intros Hor.
    destruct (is_allowed_false self now c) as [Hf Hk].
    { unfold self. rewrite HL, HH. fold self. rewrite Hm, Hh. exact Hor. }
    split; [exact Hf|]. intros k. destruct (Hk k) as [E1 E2].
    destruct (Hw k) as [W1 W2]. unfold r. by rewrite E1, E2, W1, W2. }
  split; [|split].
  - intros Hlm Hlh.
    destruct (is_allowed_true self now c) as (Ht & Em & Eh & _).
    { unfold self. rewrite HL. fold self. rewrite Hm. exact Hlm. }
    { unfold self. rewrite HH. fold self. rewrite Hh. exact Hlh. }
    unfold r. by rewrite Ht, Em, Eh, Hm, Hh.
  - exact Hrej.
  - intros Hlm. apply Hrej. by left.
Qed.

(** Limit 2 per minute: two admitted calls at 0 s and 10 s, then a call
    of another client; the third call of the first client at 30 s is
    refused, and at 61 s (the first call has left the window) admitted. *)
Lemma is_allowed_rolling_window_witness :
  in_order (map fst [(0%Q, "a"); (10%Q, "a"); (20%Q, "b")]) 30%Q /\
  fst (is_allowed (snd (run (init 2 100) [(0%Q, "a"); (10%Q, "a"); (20%Q, "b")]))
         30%Q "a") = false.
Proof.
  split.
  - simpl. repeat split; lra.
  - apply (is_allowed_rolling_window 2 100 [(0%Q, "a"); (10%Q, "a"); (20%Q, "b")] 30%Q "a").
    + simpl. repeat split; lra.
    + vm_compute. discriminate.
Defined.

End RateLimiterFacts.
(* ===================================================================== *)
(** * Properties of the string operations and of [sanitize_input] *)
(* ===================================================================== *)

Module PyFacts.
Import Py.

(** The characters of a string, in order. *)
Abbreviation chars := list_ascii_of_string.

Lemma length_chars s : length (chars s) = String.length s.
Proof. induction s; simpl; congruence. Qed.

Lemma chars_rev_app s1 : forall s2,
  chars (String.rev_app s1 s2) = rev (chars s1) ++ chars s2.
Proof.
  induction s1 as [|a s1 IH]; intros s2; simpl; [done|].
  rewrite IH. simpl. by rewrite <- app_assoc.
Qed.

Lemma chars_rev s : chars (String.rev s) = rev (chars s).
Proof. unfold String.rev. rewrite chars_rev_app. simpl. by rewrite app_nil_r. Qed.

Lemma chars_app s1 s2 : chars (s1 +:+ s2) = chars s1 ++ chars s2.
Proof. induction s1 as [|c s1 IH]; simpl; [done|]. by rewrite IH. Qed.

Lemma chars_take n : forall s, chars (take n s) = firstn n (chars s).
Proof. induction n as [|n IH]; intros [|c s]; simpl; try done. by rewrite IH. Qed.

Lemma chars_drop n : forall s, chars (drop n s) = skipn n (chars s).
Proof. induction n as [|n IH]; intros [|c s]; simpl; try done. Qed.

Lemma chars_lstrip s : chars (lstrip s) ⊆+ chars s.
Proof.
  induction s as [|c s IH]; simpl; [done|].
  destruct (isspace c); [by apply submseteq_cons|done].
Qed.

Lemma chars_strip s : chars (strip s) ⊆+ chars s.
Proof.
  unfold strip, rstrip. rewrite chars_rev, <- Permutation_rev.
  etrans; [apply chars_lstrip|].
  rewrite chars_rev, <- Permutation_rev. apply chars_lstrip.
Qed.

Lemma chars_slice s i j : chars (slice s i j) ⊆+ chars s.
Proof.
  unfold slice. rewrite chars_take, chars_drop.
  apply sublist_submseteq.
  etrans; [apply sublist_take|apply sublist_drop].
Qed.

Lemma replace_from_cons old new skip c s :
  replace_from old new skip (String c s) =
  match skip with
  | S k => replace_from old new k s
  | O => if String.prefix old (String c s)
         then new +:+ replace_from old new (String.length old - 1) s
         else String c (replace_from old new 0 s)
  end.
Proof. reflexivity. Qed.

(** Replacing by the empty string only removes characters. *)
Lemma chars_replace_from old s : forall skip,
  chars (replace_from old "" skip s) ⊆+ chars s.
Proof.
  induction s as [|c s IH]; intros skip; [done|].
  rewrite replace_from_cons. destruct skip as [|k].
  - destruct (String.prefix old (String c s)).
    + rewrite chars_app. simpl. apply submseteq_cons, IH.
    + simpl. apply submseteq_skip, IH.
  - simpl. apply submseteq_cons, IH.
Qed.

Lemma chars_remove s old :
  old <> "" -> chars (replace s old "") ⊆+ chars s.
Proof. intros Hne. destruct old; [done|]. apply chars_replace_from. Qed.

(** Removing a one-character string leaves no such character. *)
Lemma prefix_single c s :
  String.prefix (String c "") s = true ->
  exists s', s = String c s'.
Proof.
  destruct s as [|c' s']; simpl; [done|].
  destruct (ascii_dec c c') as [->|]; [eauto|done].
Qed.

Lemma replace_single_gone c s : forall skip,
  (skip <= 0)%nat -> c ∉ chars (replace_from (String c "") "" skip s).
Proof.
  induction s as [|c' s IH]; intros skip Hs.
  - apply not_elem_of_nil.
  - rewrite replace_from_cons. destruct skip; [|lia].
    destruct (String.prefix (String c "") (String c' s)) eqn:E.
    + rewrite chars_app. simpl. apply IH. lia.
    + simpl. intros [->|Hin]%elem_of_cons.
      * simpl in E. destruct (ascii_dec c' c'); [|done].
        by destruct s.
      * by apply (IH 0%nat).
Qed.

Lemma contains_single c s : contains (String c "") s = true -> c ∈ chars s.
Proof.
  induction s as [|c' s IH]; simpl; [done|].
  destruct (ascii_dec c c') as [->|Hne].
  - intros _. by left.
  - simpl. intros H. right. apply IH. destruct s; simpl in *; done.
Qed.

Lemma len_strip s : len (strip s) <= len s.
Proof.
  unfold len. rewrite <- !length_chars.
  apply inj_le, submseteq_length, chars_strip.
Qed.

Lemma len_take n s : (String.length (take n s) <= n)%nat.
Proof. rewrite <- length_chars, chars_take, length_firstn. lia. Qed.

Lemma slice_prefix s n :
  0 <= n -> len (slice s 0 n) <= n.
Proof.
  intros Hn. unfold slice, bound, len. simpl.
  destruct (n <? 0) eqn:E; [lia|].
  pose proof (len_take (Z.to_nat (Z.min n (Z.of_nat (String.length s)) -
                Z.min 0 (Z.of_nat (String.length s))))
                (drop (Z.to_nat (Z.min 0 (Z.of_nat (String.length s)))) s)).
  lia.
Qed.

End PyFacts.

Module SecurityFacts.
Import Py PyFacts Security.

(** [sanitize_input] never returns more than 10,000 characters. *)
Lemma sanitize_input_length text : len (sanitize_input text) <= 10000.
Proof.
  unfold sanitize_input. destruct text as [[|c s]|]; try done.
  set (r := remove_dangerous (String c s)).
  destruct (Z.gtb_spec (len r) 10000).
  - etrans; [apply len_strip|]. by apply slice_prefix.
  - etrans; [apply len_strip|]. done.
Qed.

(** The characters of the result are characters of the text. *)
Lemma chars_remove_dangerous_from (l : list string) : forall s,
  Forall (fun d => d <> "") l ->
  chars (fold_left (fun sanitized char => replace sanitized char "") l s)
    ⊆+ chars s.
Proof.
  induction l as [|d l IH]; intros s Hl; simpl; [done|].
  apply Forall_cons in Hl as [Hd Hl].
  etrans; [by apply IH|]. by apply chars_remove.
Qed.

(** Once a one-character entry of the denylist has had its turn, the
    character is gone for good. *)
Lemma remove_dangerous_single c (before after : list string) s :
  Forall (fun d => d <> "") after ->
  c ∉ chars (fold_left (fun sanitized char => replace sanitized char "")
               (before ++ String c "" :: after) s).
Proof.
  intros Hafter Hin. rewrite fold_left_app in Hin. simpl in Hin.
  set (s1 := fold_left _ before s) in Hin.
  eapply elem_of_submseteq in Hin; [|by apply chars_remove_dangerous_from].
  by apply (replace_single_gone c s1 0%nat) in Hin.
Qed.

Definition dangerous_single : list ascii :=
  ["<"; ">"; "&"; ascii_of_nat 34; "'"]%char.

(** None of the five one-character entries of the denylist occurs in
    what [sanitize_input] returns. *)
Lemma sanitize_input_no_single text c :
  c ∈ dangerous_single -> contains (String c "") (sanitize_input text) = false.
Proof.
  intros Hc. apply not_true_iff_false. intros Hin%contains_single.
  unfold sanitize_input in Hin.
  destruct text as [[|c0 s0]|]; try by apply elem_of_nil in Hin.
  set (r := remove_dangerous (String c0 s0)) in Hin.
  assert (Hr : c ∈ chars r).
  { destruct (len r >? 10000).
    - eapply elem_of_submseteq; [|apply chars_slice].
      eapply elem_of_submseteq; [exact Hin|apply chars_strip].
    - eapply elem_of_submseteq; [exact Hin|apply chars_strip]. }
  clear Hin. revert Hr. unfold r, remove_dangerous, dangerous_chars, dangerous_single in *.
  repeat (apply elem_of_cons in Hc as [->|Hc]);
    [ apply (remove_dangerous_single _ [])
    | apply (remove_dangerous_single _ ["<"])
    | apply (remove_dangerous_single _ ["<"; ">"])
    | apply (remove_dangerous_single _ ["<"; ">"; "&"])
    | apply (remove_dangerous_single _ ["<"; ">"; "&"; double_quote])
    | by apply elem_of_nil in Hc ];
    repeat constructor; done.
Qed.

(** C8. On the text [dadata:ta:] the pass that removes [data:] joins the
    characters around the occurrence into a new [data:], which
    [sanitize_input] returns: the result contains an entry of the
    denylist. *)
Theorem sanitize_input_rejoins_data :
  sanitize_input (Some "dadata:ta:") = "data:" /\
  contains "data:" (sanitize_input (Some "dadata:ta:")) = true /\
  existsb (fun d => contains d (sanitize_input (Some "javajavascript:script:alert(1)")))
    dangerous_chars = true.
Proof. vm_compute. done. Qed.

End SecurityFacts.
(* ===================================================================== *)
(** * Content validation and the two request paths *)
(* ===================================================================== *)

Module ValidationFacts.
Import DocumentService Endpoints.

(** [validate_document_content] refuses exactly the texts that are
    shorter than 50 characters once stripped or that hold fewer than two
    of the indicator terms. *)
Lemma validate_document_content_false text :
  validate_document_content text = false <->
  Py.len (Py.strip text) < 50 \/ indicator_count (Py.lower text) < 2.
Proof.
  unfold validate_document_content.
  destruct (String.eqb_spec text "") as [->|Hne]; simpl.
  { split; [intros _; left; by vm_compute|done]. }
  destruct (String.eqb_spec (Py.strip text) "") as [E|Hne'].
  { split; [intros _; left; rewrite E; by vm_compute|done]. }
  destruct (Z.ltb_spec (Py.len (Py.strip text)) 50).
  { split; [by left|done]. }
  destruct (Z.geb_spec (indicator_count (Py.lower text)) 2).
  - split; [done|]. intros [?|?]; lia.
  - split; [intros _; right; lia|done].
Qed.

Section Paths.
Context `{Hashlib} `{TextExtractor} `{Pydantic}.
Context `{Json}.
Variable settings : Settings.

Definition invalid_document : HTTPException :=
  mk_http 400 "Invalid document content. Please ensure this is a valid contract.".

Definition invalid_text : HTTPException :=
  mk_http 400 "Invalid contract text provided".

(** The prompt a text is sent with. *)
Definition prompt_of (request : Request) (text : string) : prompt :=
  OpenAIService._build_analysis_prompt text (industry request)
    (Some (analysis_type request)).

Lemma upload_present request upload :
  file_upload request = Some upload ->
  no_text (contract_text request) && negb (bool_decide (is_Some (file_upload request)))
  = false.
Proof.
  intros ->. rewrite bool_decide_true by eauto. by rewrite andb_false_r.
Qed.

Lemma text_present request text :
  contract_text request = Some text -> text <> "" ->
  no_text (contract_text request) && negb (bool_decide (is_Some (file_upload request)))
  = false.
Proof. intros -> Hne. by destruct text. Qed.

(** C2, as the code has it. For an admitted request with an upload whose
    extracted text is shorter than 50 characters once stripped, or holds
    fewer than two indicator terms, both handlers raise the 400 of an
    invalid document and send nothing to the model; the client of the
    streaming handler receives that 400. For an admitted request with
    raw text and no upload there is no such test: both handlers raise
    the 400 of an invalid text exactly when the sanitised text is empty,
    and otherwise the streaming handler sends the sanitised text to the
    model and answers with the events; the other handler sends it too
    unless the cache answers first. *)
Theorem content_validation_by_path (st : State) (w : World) (request : Request) :
  fst (RateLimiter.is_allowed (rate_limiter st) (time_now w) (get_client_id request))
  = true ->
  let body := analyze_contract_try settings st w request in
  let r := analyze_contract settings st w request in
  let rs := analyze_contract_stream settings st w request in
  (forall upload text h,
     file_upload request = Some upload ->
     process_document upload (max_file_size settings) = Respond (text, h) ->
     Py.len (Py.strip text) < 50 \/ indicator_count (Py.lower text) < 2 ->
     response body = Abort invalid_document /\ model_calls r = [] /\
     response rs = Abort invalid_document /\ model_calls rs = []) /\
  (forall text,
     file_upload request = None -> contract_text request = Some text -> text <> "" ->
     let sanitized := Security.sanitize_input (Some text) in
     (sanitized = "" ->
        response body = Abort invalid_text /\ model_calls r = [] /\
        response rs = Abort invalid_text /\ model_calls rs = []) /\
     (sanitized <> "" ->
        model_calls rs = [prompt_of request sanitized] /\
        (exists events, response rs = Respond events) /\
        (model_calls r = [prompt_of request sanitized] \/
         exists cached, response body = Respond cached /\ model_calls r = []))).
Proof.
  intros Hadm body r rs.
  unfold r, analyze_contract, finally_log_response. cbn [model_calls].
  fold body. unfold body, rs, analyze_contract_try, analyze_contract_stream.
  destruct (RateLimiter.is_allowed _ _ _) as [allowed limiter]. simpl in Hadm.
  subst allowed. cbn [negb]. split.
  - intros upload text h Hup Hdoc Hbad.
    apply validate_document_content_false in Hbad.
    rewrite (upload_present _ _ Hup).
    unfold prepare, prepare_stream. rewrite Hup, Hdoc, Hbad. simpl. done.
  - intros text Hup Htext Hne. rewrite (text_present _ _ Htext Hne).
    unfold prepare, prepare_stream. rewrite Hup, Htext.
    generalize (Security.sanitize_input (Some text)). intros sanitized. cbv zeta.
    split.
    + intros ->. simpl. done.
    + intros Hs. apply String.eqb_neq in Hs. rewrite Hs.
      split; [done|]. split; [eauto|].
      unfold analyze_afresh.
      destruct (CacheManager.get _ _ _) as [cached|];
        [destruct (PyJson.truthy cached); [right; eauto|left]|left];
      repeat match goal with
             | |- context [match ?x with _ => _ end] => destruct x
             | |- context [if ?x then _ else _] => destruct x
             end; done.
Qed.

End Paths.

(** An upload of five characters is refused by both handlers before the
    model is called. *)
Lemma content_validation_by_path_witness :
  let body := @analyze_contract_try Examples.plain_hashlib Examples.plain_extractor
                Examples.any_schema Examples.empty_object_json
                Examples.settings Examples.fresh_offline
                (Examples.world Examples.answers_empty_object 5%Q)
                (Examples.upload_request "hello") in
  let rs := @analyze_contract_stream Examples.plain_hashlib Examples.plain_extractor
              Examples.empty_object_json
              Examples.settings Examples.fresh_offline
              (Examples.world Examples.answers_empty_object 5%Q)
              (Examples.upload_request "hello") in
  response body = Abort invalid_document /\
  response rs = Abort invalid_document /\ model_calls rs = [].
Proof.
  pose proof (@content_validation_by_path Examples.plain_hashlib
    Examples.plain_extractor Examples.any_schema Examples.empty_object_json
    Examples.settings Examples.fresh_offline
    (Examples.world Examples.answers_empty_object 5%Q)
    (Examples.upload_request "hello") eq_refl) as [Hup _].
  destruct (Hup (DocumentService.mk_upload "contract.txt" "text/plain" (Some 5) "hello")
              "hello" "hello" eq_refl eq_refl) as (H1 & _ & H3 & H4).
  - left. by vm_compute.
  - split; [exact H1|]. split; [exact H3|exact H4].
Defined.

(** C2 does not hold of raw text: raw text of five
    characters, with none of the indicator terms, is admitted and sent
    to the model by both handlers, and the streaming handler answers
    with the events of its analysis. *)
Lemma short_raw_text_reaches_model :
  let r := @analyze_contract Examples.plain_hashlib Examples.plain_extractor
             Examples.any_schema Examples.empty_object_json
             Examples.settings Examples.fresh_offline
             (Examples.world Examples.answers_empty_object 5%Q)
             (Examples.text_request "hello") in
  let rs := @analyze_contract_stream Examples.plain_hashlib Examples.plain_extractor
              Examples.empty_object_json
              Examples.settings Examples.fresh_offline
              (Examples.world Examples.answers_empty_object 5%Q)
              (Examples.text_request "hello") in
  Py.len (Py.strip "hello") = 5 /\
  indicator_count (Py.lower "hello") = 0 /\
  validate_document_content "hello" = false /\
  model_calls r = [mk_prompt "hello" "General" "legal, financial, compliance"] /\
  model_calls rs = [mk_prompt "hello" "General" "legal, financial, compliance"] /\
  (exists events, response rs = Respond events) /\
  status_of (response rs) = 200.
Proof.
  vm_compute. repeat split. eexists. reflexivity.
Qed.

End ValidationFacts.
(* ===================================================================== *)
(** * Admission is consumed whatever the request comes to *)
(* ===================================================================== *)

Module AdmissionFacts.
Import Endpoints RateLimiterFacts.

Section Frame.
Context `{Hashlib} `{TextExtractor} `{Pydantic}.
Context `{Json}.
Variable settings : Settings.

(** Neither handler touches the limiter after the admission test. *)
Lemma analyze_contract_limiter st w request :
  rate_limiter (state (analyze_contract settings st w request)) =
  snd (RateLimiter.is_allowed (rate_limiter st) (time_now w) (get_client_id request)).
Proof.
  unfold analyze_contract, finally_log_response, analyze_contract_try, analyze_afresh.
  cbn [state].
  destruct (RateLimiter.is_allowed _ _ _) as [allowed limiter]. simpl.
  repeat match goal with
         | |- context [match ?x with _ => _ end] => destruct x
         | |- context [if ?x then _ else _] => destruct x
         end; done.
Qed.

Lemma analyze_contract_stream_limiter st w request :
  rate_limiter (state (analyze_contract_stream settings st w request)) =
  snd (RateLimiter.is_allowed (rate_limiter st) (time_now w) (get_client_id request)).
Proof.
  unfold analyze_contract_stream.
  destruct (RateLimiter.is_allowed _ _ _) as [allowed limiter]. simpl.
  repeat match goal with
         | |- context [match ?x with _ => _ end] => destruct x
         | |- context [if ?x then _ else _] => destruct x
         end; done.
Qed.

(** A request the limiter refuses: both handlers raise the 429, and the
    client of the streaming handler receives it. *)
Definition rate_limited : HTTPException :=
  mk_http 429 "Rate limit exceeded. Please try again later.".

Lemma analyze_contract_refused st w request :
  fst (RateLimiter.is_allowed (rate_limiter st) (time_now w) (get_client_id request))
  = false ->
  response (analyze_contract_try settings st w request) = Abort rate_limited /\
  response (analyze_contract_stream settings st w request) = Abort rate_limited.
Proof.
  unfold analyze_contract_try, analyze_contract_stream.
  destruct (RateLimiter.is_allowed _ _ _) as [allowed limiter]. simpl.
  by intros ->.
Qed.

(** C9. After either handler has served a request, the limiter is the
    one the admission test left, whatever the response is (an analysis,
    a 400 of validation, a 500 of the pipeline): for an admitted
    request, the clock reading of the admission is the last entry of
    both sequences of the client, after whatever the sweep kept. *)
Theorem admission_consumed_regardless (st : State) (w : World) (request : Request) :
  let client := get_client_id request in
  let now := time_now w in
  let admission := RateLimiter.is_allowed (rate_limiter st) now client in
  let after := rate_limiter (state (analyze_contract settings st w request)) in
  let after_stream :=
    rate_limiter (state (analyze_contract_stream settings st w request)) in
  after = snd admission /\
  after_stream = snd admission /\
  (fst admission = true ->
     RateLimiter.minute_seq after client =
       minute_pruned (rate_limiter st) now client ++ [now] /\
     RateLimiter.hour_seq after client =
       hour_pruned (rate_limiter st) now client ++ [now] /\
     RateLimiter.minute_seq after_stream client =
       minute_pruned (rate_limiter st) now client ++ [now] /\
     RateLimiter.hour_seq after_stream client =
       hour_pruned (rate_limiter st) now client ++ [now]).
Proof.
  intros client now admission after after_stream.
  assert (E1 : after = snd admission) by apply analyze_contract_limiter.
  assert (E2 : after_stream = snd admission) by apply analyze_contract_stream_limiter.
  split; [done|]. split; [done|].
  intros Hadm. rewrite E1, E2.
  pose proof (is_allowed_step (rate_limiter st) now client client) as [Hm Hh].
  fold admission in Hm, Hh. simpl in Hm, Hh.
  rewrite Hadm, bool_decide_true in Hm, Hh by done. simpl in Hm, Hh.
  by rewrite Hm, Hh.
Qed.

End Frame.

(** With one request allowed per minute: a request whose text sanitises
    to nothing is refused with 400, and the next request of the client,
    ten seconds later, with 429. *)
Definition one_per_minute : State :=
  mk_state (RateLimiter.init 1 1000) (CacheManager.mk None 3600 1000).

Example rejected_request_uses_the_window :
  let run := @analyze_contract_stream Examples.plain_hashlib Examples.plain_extractor
               Examples.empty_object_json Examples.settings in
  let first := run one_per_minute (Examples.world Examples.answers_empty_object 0%Q)
                 (Examples.text_request "<>") in
  let second := run (state first) (Examples.world Examples.answers_empty_object 10%Q)
                  (Examples.text_request "This agreement sets out the terms.") in
  response first = Abort (mk_http 400 "Invalid contract text provided") /\
  response second = Abort rate_limited.
Proof. vm_compute. done. Qed.

End AdmissionFacts.
(* ===================================================================== *)
(** * Response parsing and the event stream *)
(* ===================================================================== *)

Module SearchFacts.
Import Py.

Lemma find_lower sub s : -1 <= find sub s.
Proof.
  induction s as [|c s IH]; simpl.
  - destruct sub; simpl; lia.
  - match goal with |- context [if ?b then _ else _] => destruct b end; [lia|].
    destruct (Z.eqb_spec (find sub s) (-1)); lia.
Qed.

Lemma rfind_lower sub s : -1 <= rfind sub s.
Proof.
  induction s as [|c s IH]; simpl.
  - destruct sub; simpl; lia.
  - destruct (Z.eqb_spec (rfind sub s) (-1)); [|lia].
    match goal with |- context [if ?b then _ else _] => destruct b end; lia.
Qed.

Lemma contains_cons sub c s :
  contains sub (String c s) = String.prefix sub (String c s) || contains sub s.
Proof. reflexivity. Qed.

Lemma find_cons sub c s :
  find sub (String c s) =
  if String.prefix sub (String c s) then 0
  else if find sub s =? -1 then -1 else find sub s + 1.
Proof. reflexivity. Qed.

Lemma rfind_cons sub c s :
  rfind sub (String c s) =
  if rfind sub s =? -1
  then (if String.prefix sub (String c s) then 0 else -1)
  else rfind sub s + 1.
Proof. reflexivity. Qed.

(** [find] and [rfind] answer -1 exactly when there is no occurrence. *)
Lemma find_none sub s : find sub s = -1 <-> contains sub s = false.
Proof.
  induction s as [|c s IH].
  - simpl. destruct sub; simpl; split; (done || lia).
  - rewrite find_cons, contains_cons.
    destruct (String.prefix sub (String c s)); simpl; [split; (done || lia)|].
    pose proof (find_lower sub s).
    destruct (Z.eqb_spec (find sub s) (-1)) as [E|E].
    + split; [intros _; by apply IH|done].
    + split; [lia|]. intros Hc. apply IH in Hc. done.
Qed.

Lemma rfind_none sub s : rfind sub s = -1 <-> contains sub s = false.
Proof.
  induction s as [|c s IH].
  - simpl. destruct sub; simpl; split; (done || lia).
  - rewrite rfind_cons, contains_cons.
    pose proof (rfind_lower sub s).
    destruct (Z.eqb_spec (rfind sub s) (-1)) as [E|E].
    + apply IH in E. rewrite E, orb_false_r.
      destruct (String.prefix sub (String c s)); split; (done || lia).
    + split; [lia|]. intros [_ Hc]%orb_false_iff. apply IH in Hc. done.
Qed.

End SearchFacts.

Module ParsingFacts.
Import OpenAIService SearchFacts.

(** The text from the first opening brace through the last closing one. *)
Definition enclosed (response : string) : string :=
  Py.slice response (Py.find "{" response) (Py.rfind "}" response + 1).

Definition no_json_found : exn := mk_exn "ValueError" "No JSON found in response".

(** What the provider's chunks add up to. *)
Definition full_response_of (contents : list (option string)) : string :=
  snd (progress_events (fun _ => 0%Q) 0 "" contents).

Definition is_progress (c : chunk) : Prop :=
  is_final c = false /\ exists content full, data c = ProgressData content full.

Section Parsing.
Context `{Json}.
Variable create : prompt -> completion.
Variable loop_time : nat -> Q.

Lemma progress_events_shape contents : forall n acc,
  Forall is_progress (fst (progress_events loop_time n acc contents)) /\
  snd (progress_events loop_time n acc contents) =
  snd (progress_events (fun _ => 0%Q) n acc contents).
Proof.
  induction contents as [|[[|c s]|] rest IH]; intros n acc; simpl;
    try done; try apply IH.
  destruct (IH (S n) (acc +:+ String c s)) as [IH1 IH2].
  destruct (progress_events loop_time (S n) _ rest) as [events final].
  destruct (progress_events (fun _ => 0%Q) (S n) _ rest) as [events0 final0].
  simpl in *. subst final0. split; [|done].
  constructor; [|done]. split; [done|]. simpl. eauto.
Qed.

(** With both braces present, a text that does not decode gives the
    degraded result; with a brace missing, the guard raises. *)
Lemma process_undecodable response :
  Py.contains "{" response = true -> Py.contains "}" response = true ->
  json_loads (enclosed response) = JSONDecodeError ->
  _process_analysis_response response = Returns (fallback response).
Proof.
  intros Ho Hc Hd. unfold _process_analysis_response.
  destruct (Z.eqb_spec (Py.find "{" response) (-1)) as [E|_].
  { apply find_none in E. congruence. }
  destruct (Z.eqb_spec (Py.rfind "}" response + 1) 0) as [E|_].
  { assert (E' : Py.rfind "}" response = -1) by lia.
    apply rfind_none in E'. congruence. }
  simpl. unfold enclosed in Hd. by rewrite Hd.
Qed.

Lemma process_decoding_raises response e :
  Py.contains "{" response = true -> Py.contains "}" response = true ->
  json_loads (enclosed response) = DecodingRaises e ->
  _process_analysis_response response = Raises e.
Proof.
  intros Ho Hc Hd. unfold _process_analysis_response.
  destruct (Z.eqb_spec (Py.find "{" response) (-1)) as [E|_].
  { apply find_none in E. congruence. }
  destruct (Z.eqb_spec (Py.rfind "}" response + 1) 0) as [E|_].
  { assert (E' : Py.rfind "}" response = -1) by lia.
    apply rfind_none in E'. congruence. }
  simpl. unfold enclosed in Hd. by rewrite Hd.
Qed.

Lemma process_no_braces response :
  Py.contains "{" response = false \/ Py.contains "}" response = false ->
  _process_analysis_response response = Raises no_json_found.
Proof.
  intros Hor. unfold _process_analysis_response.
  destruct Hor as [Ho|Hc].
  - apply find_none in Ho. by rewrite Ho.
  - apply rfind_none in Hc. rewrite Hc. simpl. by rewrite orb_true_r.
Qed.

Lemma first_outcome_progress events rest :
  Forall is_progress events ->
  Endpoints.first_outcome (events ++ rest) = Endpoints.first_outcome rest.
Proof.
  induction 1 as [|c events [_ (content & full & Hc)] _ IH]; simpl; [done|].
  by rewrite Hc.
Qed.

(** What [analyze_contract] yields for a stream that ends normally. *)
Lemma analyze_contract_completed text industry types contents :
  create (_build_analysis_prompt text industry types) = Stream contents EndOfStream ->
  exists events,
    Forall is_progress events /\
    yields (analyze_contract create loop_time text industry types) =
      events ++
      [match _process_analysis_response (full_response_of contents) with
       | Returns r => mk_chunk (AnalysisData r) (loop_time (length events)) true
       | Raises e => error_event loop_time (length events) "Streaming failed: " e
       end].
Proof.
  intros Hc. unfold analyze_contract, _stream_analysis. rewrite Hc.
  pose proof (progress_events_shape contents 0%nat "") as [Hp Hf].
  unfold full_response_of.
  destruct (progress_events loop_time 0 "" contents) as [events full]. simpl in *.
  subst full. exists events. split; [done|].
  destruct (_process_analysis_response _); done.
Qed.

(** C3, as the code has it. Let the provider stream chunks that add up
    to [full] and end normally. When [full] holds an opening and a
    closing brace and [json.loads] raises [JSONDecodeError] on the text
    from the first to the last, parsing returns the degraded result
    (risk medium, score 50, no issues, one generic recommendation, a
    summary that says so), the stream of the model service ends with the
    event that carries it and the loop of the handler ends with it. When
    a brace is missing, parsing raises; so it does when [json.loads]
    raises another exception: the stream ends with an error event
    instead of a result, and the loop of the handler raises the 500 of
    a failed analysis. *)
Theorem response_parsing_outcomes
    (text : string) (industry : option string) (types : option (list string))
    (contents : list (option string)) :
  create (_build_analysis_prompt text industry types) = Stream contents EndOfStream ->
  let full := full_response_of contents in
  let events := yields (analyze_contract create loop_time text industry types) in
  (Py.contains "{" full = true -> Py.contains "}" full = true ->
   json_loads (enclosed full) = JSONDecodeError ->
     _process_analysis_response full = Returns (fallback full) /\
     fallback full =
       mk_result (JString "medium") (JNumber 50) (JList [])
         (JList [JString "Review the contract manually for detailed analysis"])
         (JString "AI analysis completed but response parsing failed") full /\
     (exists progress,
        Forall is_progress progress /\
        events = progress ++
          [mk_chunk (AnalysisData (fallback full)) (loop_time (length progress)) true]) /\
     Endpoints.first_outcome events = Some (Respond (fallback full))) /\
  (Py.contains "{" full = false \/ Py.contains "}" full = false ->
     _process_analysis_response full = Raises no_json_found /\
     (exists progress,
        Forall is_progress progress /\
        events = progress ++
          [mk_chunk (ErrorData "Streaming failed: No JSON found in response")
             (loop_time (length progress)) true]) /\
     Endpoints.first_outcome events =
       Some (Abort (mk_http 500
         "Analysis failed: Streaming failed: No JSON found in response"))) /\
  (forall e,
     Py.contains "{" full = true -> Py.contains "}" full = true ->
     json_loads (enclosed full) = DecodingRaises e ->
     _process_analysis_response full = Raises e /\
     (exists progress,
        Forall is_progress progress /\
        events = progress ++
          [mk_chunk (ErrorData ("Streaming failed: " +:+ exn_str e))
             (loop_time (length progress)) true]) /\
     Endpoints.first_outcome events =
       Some (Abort (mk_http 500
         ("Analysis failed: " +:+ ("Streaming failed: " +:+ exn_str e))))).
Proof.
  intros Hc full events.
  destruct (analyze_contract_completed text industry types contents Hc)
    as (progress & Hp & Hy).
  fold full in Hy. fold events in Hy. split; [|split].
  - intros Ho Hcl Hd. pose proof (process_undecodable full Ho Hcl Hd) as E.
    split; [done|]. split; [done|]. rewrite Hy, E. split.
    + exists progress. done.
    + rewrite first_outcome_progress by done. done.
  - intros Hor. pose proof (process_no_braces full Hor) as E.
    split; [done|]. rewrite Hy, E. split.
    + exists progress. done.
    + rewrite first_outcome_progress by done. done.
  - intros e Ho Hcl Hd. pose proof (process_decoding_raises full e Ho Hcl Hd) as E.
    split; [done|]. rewrite Hy, E. split.
    + exists progress. done.
    + rewrite first_outcome_progress by done. done.
Qed.

End Parsing.

(** A provider that answers in prose: the stream ends with the error
    event. *)
Lemma response_parsing_outcomes_witness :
  Endpoints.first_outcome
    (yields (@analyze_contract Examples.empty_object_json Examples.answers_prose
               (fun _ => 0%Q) "hello" None None)) =
  Some (Abort (mk_http 500
    "Analysis failed: Streaming failed: No JSON found in response")).
Proof.
  pose proof (@response_parsing_outcomes Examples.empty_object_json
                Examples.answers_prose (fun _ => 0%Q) "hello" None None
                [Some "I cannot "; Some "analyse this."] eq_refl) as (_ & Hno & _).
  destruct Hno as (_ & _ & E).
  - left. by vm_compute.
  - exact E.
Defined.

(** C3 does not hold where a brace is missing: on a response without
    braces parsing raises instead of returning the degraded result; the
    client of [POST /analyze/stream] receives an error event as the last
    one, with no result, and the loop of [POST /analyze] raises 500. *)
Lemma prose_response_fails_pipeline :
  let request := Examples.text_request "This agreement sets out the terms." in
  let world := Examples.world Examples.answers_prose 5%Q in
  let rs := @Endpoints.analyze_contract_stream Examples.plain_hashlib
              Examples.plain_extractor Examples.empty_object_json
              Examples.settings Examples.fresh_offline world request in
  let body := @Endpoints.analyze_contract_try Examples.plain_hashlib
                Examples.plain_extractor Examples.any_schema
                Examples.empty_object_json
                Examples.settings Examples.fresh_offline world request in
  Py.contains "{" "I cannot analyse this." = false /\
  @_process_analysis_response Examples.empty_object_json "I cannot analyse this." =
    Raises no_json_found /\
  Endpoints.response rs =
    Respond
      [mk_chunk (ProgressData "I cannot " "I cannot ") 0%Q false;
       mk_chunk (ProgressData "analyse this." "I cannot analyse this.") 0%Q false;
       mk_chunk (ErrorData "Streaming failed: No JSON found in response") 0%Q true] /\
  Endpoints.response body =
    Abort (mk_http 500 "Analysis failed: Streaming failed: No JSON found in response").
Proof. vm_compute. done. Qed.

End ParsingFacts.

Module StreamFacts.
Import OpenAIService Endpoints ParsingFacts.

Definition not_final (c : chunk) : Prop := is_final c = false.

Lemma progress_not_final events : Forall is_progress events -> Forall not_final events.
Proof. intros Hp. eapply Forall_impl; [exact Hp|]. by intros c [? _]. Qed.

Lemma existsb_not_final events : Forall not_final events -> existsb is_final events = false.
Proof.
  induction 1 as [|c events Hc _ IH]; simpl; [done|]. by rewrite Hc, IH.
Qed.

Lemma forwarded_not_final events : Forall not_final events -> forwarded events = events.
Proof.
  induction 1 as [|c events Hc _ IH]; simpl; [done|]. by rewrite Hc, IH.
Qed.

(** Forwarding stops with the first final event. *)
Lemma forwarded_until_final before last rest :
  Forall not_final before -> is_final last = true ->
  forwarded (before ++ last :: rest) = before ++ [last] /\
  existsb is_final (before ++ last :: rest) = true.
Proof.
  intros Hb Hl. induction Hb as [|c before Hc _ [IH1 IH2]]; simpl.
  - by rewrite Hl.
  - by rewrite Hc, IH1, IH2.
Qed.

Lemma split_at_final events :
  existsb is_final events = true ->
  exists before last rest,
    events = before ++ last :: rest /\ Forall not_final before /\
    is_final last = true.
Proof.
  induction events as [|x l IH]; [done|].
  simpl. destruct (is_final x) eqn:Ex.
  - intros _. exists [], x, l. done.
  - intros E. destruct (IH E) as (b & la & r & -> & Hb & Hla).
    exists (x :: b), la, r. repeat split; try done. by constructor.
Qed.

(** What one connection receives is a run of events that are not final,
    followed by at most one event, which is final. *)
Lemma generate_stream_shape source now :
  exists before tail,
    generate_stream source now = before ++ tail /\
    Forall not_final before /\
    (tail = [] \/ exists last, tail = [last] /\ is_final last = true).
Proof.
  unfold generate_stream.
  destruct (existsb is_final (yields source)) eqn:E.
  - destruct (split_at_final _ E) as (before & last & rest & Hy & Hb & Hl).
    rewrite Hy. destruct (forwarded_until_final before last rest Hb Hl) as [-> _].
    exists before, [last]. repeat split; eauto.
  - assert (Hn : Forall not_final (yields source)).
    { apply Forall_forall. intros c Hin. apply not_true_iff_false. intros Hc.
      apply not_true_iff_false in E. apply E, existsb_exists.
      exists c. split; [by apply list_elem_of_In|done]. }
    rewrite forwarded_not_final by done.
    destruct (raised source) as [e|].
    + exists (yields source), [error_chunk e now]. repeat split; eauto.
    + exists (yields source), []. rewrite app_nil_r. repeat split; eauto.
Qed.

Lemma final_is_last (before tail front after : list chunk) c :
  Forall not_final before ->
  (tail = [] \/ exists last, tail = [last] /\ is_final last = true) ->
  before ++ tail = front ++ c :: after -> is_final c = true -> after = [].
Proof.
  intros Hb Ht. revert front. induction Hb as [|x before Hx _ IH]; intros front E Hc.
  - simpl in E. destruct Ht as [->|(last & -> & _)]; [by destruct front|].
    destruct front as [|y front]; [by inversion E|].
    inversion E as [[E1 E2]]. by destruct front.
  - destruct front as [|y front].
    + inversion E; subst. unfold not_final in Hx. congruence.
    + inversion E; subst. by eapply IH.
Qed.

Section Stream.
Context `{Json}.
Variable create : prompt -> completion.
Variable loop_time : nat -> Q.

(** The model service always ends its events with one final event and
    never raises. *)
Lemma analyze_contract_shape text industry types :
  exists progress last,
    yields (OpenAIService.analyze_contract create loop_time text industry types) = progress ++ [last] /\
    raised (OpenAIService.analyze_contract create loop_time text industry types) = None /\
    Forall is_progress progress /\ is_final last = true.
Proof.
  unfold OpenAIService.analyze_contract, _stream_analysis.
  destruct (create _) as [e|contents ending].
  - exists [], (error_event loop_time 0 "Streaming failed: " e). done.
  - pose proof (progress_events_shape loop_time contents 0%nat "") as [Hp _].
    destruct (progress_events loop_time 0 "" contents) as [events full].
    simpl in Hp. destruct ending as [|e].
    + destruct (_process_analysis_response full) as [r|e];
        eexists events, _; repeat split; done.
    + eexists events, _; repeat split; done.
Qed.

Lemma delivered_shape text industry types now :
  exists before last,
    generate_stream (OpenAIService.analyze_contract create loop_time text industry types) now =
      before ++ [last] /\
    is_final last = true /\ Forall (fun c => is_final c = false) before.
Proof.
  destruct (analyze_contract_shape text industry types)
    as (progress & last & Hy & Hr & Hp & Hl).
  exists progress, last. apply progress_not_final in Hp.
  unfold generate_stream. rewrite Hy.
  replace (progress ++ [last]) with (progress ++ last :: []) by done.
  destruct (forwarded_until_final progress last [] Hp Hl) as [-> ->]. done.
Qed.

(** C6. What a connection receives from the stream of an analysis is a
    run of events that are not final followed by exactly one final
    event, whatever the provider does. The relay sends nothing after a
    final event, whatever generator feeds it. When the provider refuses
    the request, before any event, the connection receives a single
    final error event with the message of the failure; so it does from
    the relay itself when the generator that feeds it raises at once. *)
Theorem stream_ends_with_one_final
    (text : string) (industry : option string) (types : option (list string))
    (now : Q) :
  let delivered :=
    generate_stream (OpenAIService.analyze_contract create loop_time text industry types) now in
  (exists before last,
     delivered = before ++ [last] /\ is_final last = true /\
     Forall (fun c => is_final c = false) before) /\
  (forall source at_ front c after,
     generate_stream source at_ = front ++ c :: after ->
     is_final c = true -> after = []) /\
  (forall e,
     create (_build_analysis_prompt text industry types) = CreateRaises e ->
     delivered =
       [mk_chunk (ErrorData ("Streaming failed: " +:+ exn_str e)) (loop_time 0) true]) /\
  (forall e at_,
     generate_stream (mk_gen [] (Some e)) at_ =
       [mk_chunk (ErrorData (exn_str e)) at_ true]).
Proof.
  intros delivered. split; [|split; [|split]].
  - apply delivered_shape.
  - intros source at_ front c after E Hc.
    destruct (generate_stream_shape source at_) as (before & tail & E' & Hb & Ht).
    rewrite E' in E. by eapply final_is_last.
  - intros e He. unfold delivered, OpenAIService.analyze_contract, _stream_analysis.
    rewrite He. done.
  - done.
Qed.

End Stream.

(** Over the handler: the body of every answer of [POST /analyze/stream]
    that is a stream ends with its only final event. *)
Lemma analyze_contract_stream_final `{Hashlib} `{TextExtractor} `{Json}
    (settings : Settings) (st : State) (w : World) (request : Request) events :
  response (analyze_contract_stream settings st w request) = Respond events ->
  exists before last,
    events = before ++ [last] /\ is_final last = true /\
    Forall (fun c => is_final c = false) before.
Proof.
  unfold analyze_contract_stream.
  destruct (RateLimiter.is_allowed _ _ _) as [allowed limiter].
  destruct (negb allowed); [done|].
  match goal with |- context [if ?b then _ else _] => destruct b end; [done|].
  destruct (prepare_stream settings request) as [text|e|e]; [|done|done].
  simpl. intros [= <-].
  apply delivered_shape.
Qed.

End StreamFacts.
(* ===================================================================== *)
(** * The batch goes through every item *)
(* ===================================================================== *)

Module BatchFacts.
Import AnalysisTasks.

Definition is_completed (entry : item_result) : bool :=
  match entry with
  | ItemCompleted _ _ _ => true
  | ItemFailed _ _ => false
  end.

(** The number of entries of one kind. *)
Definition count (p : item_result -> bool) (entries : list item_result) : Z :=
  Z.of_nat (length (List.filter p entries)).

Section Batch.
Variable analyze : nat -> string -> option string -> option (list string) -> generator chunk.
Variable store_analysis : nat -> analysis_result -> string -> outcome string.
Variable store_issues : nat -> string -> json -> outcome unit.
Variable task_id : string.

Abbreviation analyze_item :=
  (analyze_item analyze store_analysis store_issues task_id).
Abbreviation batch_step :=
  (batch_step analyze store_analysis store_issues task_id).
Abbreviation batch_analyze_contracts :=
  (batch_analyze_contracts analyze store_analysis store_issues task_id).

(** The entry of every item, each from its own index and contents. *)
Fixpoint entries_from (i : nat) (items : list contract_data) : list item_result :=
  match items with
  | [] => []
  | item :: rest => analyze_item i item :: entries_from (S i) rest
  end.

Lemma count_app p l1 l2 : count p (l1 ++ l2) = count p l1 + count p l2.
Proof. unfold count. rewrite List.filter_app, length_app. lia. Qed.

Lemma count_split entries :
  count is_completed entries + count (fun e => negb (is_completed e)) entries =
  Z.of_nat (length entries).
Proof.
  unfold count. induction entries as [|e entries IH]; simpl; [done|].
  destruct (is_completed e); simpl; rewrite ?Nat2Z.inj_succ in *; lia.
Qed.

(** The loop, from any turn on. *)
Lemma fold_batch_step items : forall i completed failed results,
  fold_left batch_step items (i, (completed, failed, results)) =
  ((i + length items)%nat,
   (completed + count is_completed (entries_from i items),
    failed + count (fun e => negb (is_completed e)) (entries_from i items),
    results ++ entries_from i items)).
Proof.
  induction items as [|item rest IH]; intros i completed failed results; simpl.
  - unfold count. simpl. rewrite app_nil_r, Nat.add_0_r, !Z.add_0_r. done.
  - change (analyze_item i item :: entries_from (S i) rest)
      with ([analyze_item i item] ++ entries_from (S i) rest).
    rewrite !count_app, app_assoc.
    destruct (analyze_item i item) as [cid aid r|cid err] eqn:E;
      rewrite IH; unfold count at 3 5; simpl;
      repeat (apply pair_equal_spec; split); (lia || done).
Qed.

Lemma entries_from_lookup items : forall i k item,
  items !! k = Some item ->
  entries_from i items !! k = Some (analyze_item (i + k) item).
Proof.
  induction items as [|x rest IH]; intros i k item Hk; [done|].
  destruct k as [|k]; simpl in *.
  - inversion Hk; subst. by rewrite Nat.add_0_r.
  - rewrite (IH (S i) k item Hk). f_equal. f_equal. lia.
Qed.

Lemma entries_from_length items : forall i, length (entries_from i items) = length items.
Proof. induction items as [|x rest IH]; intros i; simpl; [done|]. by rewrite IH. Qed.

Lemma batch_report items :
  batch_analyze_contracts items =
  mk_report (Z.of_nat (length items))
    (count is_completed (entries_from 0 items))
    (count (fun e => negb (is_completed e)) (entries_from 0 items))
    (entries_from 0 items).
Proof.
  unfold AnalysisTasks.batch_analyze_contracts.
  rewrite fold_batch_step. simpl. done.
Qed.

(** ** What the entry of an item says *)

(** Events among which none completes an analysis. *)
Definition incomplete (events : list chunk) : Prop :=
  Forall (fun c => forall r, data c <> AnalysisData r) events.

Lemma first_complete_none events : incomplete events -> first_complete events = None.
Proof.
  induction 1 as [|c events Hc _ IH]; simpl; [done|].
  destruct (data c) as [? ?|r|?] eqn:E; try done. by destruct (Hc r).
Qed.

Lemma first_complete_some before c after r :
  incomplete before -> data c = AnalysisData r ->
  first_complete (before ++ c :: after) = Some r.
Proof.
  intros Hb Hc. induction Hb as [|x before Hx _ IH]; simpl; [by rewrite Hc|].
  destruct (data x) as [? ?|r'|?] eqn:E; try done. by destruct (Hx r').
Qed.

(** The entry the report must hold for the item of index [i], said
    without the loop: by what the model service yields for the item and
    by what the record store answers. An item fails when no event
    completes its analysis (with the text of the exception that ended
    the events, if one did) or when a call of the record store raises;
    otherwise it is completed, with the data of the first event that
    completes the analysis and the identifier the record store gave. *)
Definition recorded (i : nat) (contract : contract_data) (entry : item_result) : Prop :=
  let events :=
    analyze i (default "" (cd_text contract)) (cd_industry contract)
      (Some (default ["legal"; "financial"; "compliance"]
               (cd_analysis_types contract))) in
  let contract_hash := "batch_" +:+ task_id +:+ "_" +:+ pretty i in
  (incomplete (yields events) ->
     entry = ItemFailed (cd_id contract)
               (match raised events with
                | Some e => exn_str e
                | None => "Analysis failed to complete"
                end)) /\
  (forall before c after r,
     yields events = before ++ c :: after -> incomplete before ->
     data c = AnalysisData r ->
     (forall e, store_analysis i r contract_hash = Raises e ->
        entry = ItemFailed (cd_id contract) (exn_str e)) /\
     (forall analysis_id, store_analysis i r contract_hash = Returns analysis_id ->
        (forall e, PyJson.truthy (issues r) = true ->
           store_issues i analysis_id (issues r) = Raises e ->
           entry = ItemFailed (cd_id contract) (exn_str e)) /\
        (PyJson.truthy (issues r) = false \/
         (exists u, store_issues i analysis_id (issues r) = Returns u) ->
         entry = ItemCompleted (cd_id contract) analysis_id r))).

Lemma analyze_item_recorded i contract : recorded i contract (analyze_item i contract).
Proof.
  unfold recorded, AnalysisTasks.analyze_item. split.
  - intros Hn. rewrite (first_complete_none _ Hn). by destruct (raised _).
  - intros before c after r Hy Hb Hc. rewrite Hy, (first_complete_some _ _ _ r Hb Hc).
    split.
    + by intros e ->.
    + intros analysis_id ->. split.
      * by intros e -> ->.
      * intros [->|[u Hu]]; [done|].
        destruct (PyJson.truthy _); [by rewrite Hu|done].
Qed.

(** ** Items that are no dicts *)

Abbreviation step :=
  (BatchTask.batch_step analyze store_analysis store_issues task_id).

Lemma fold_step_raises items e : fold_left step items (Raises e) = Raises e.
Proof. induction items as [|x items IH]; simpl; done. Qed.

Lemma fold_step_dicts contracts : forall acc,
  fold_left step (map BatchTask.DictItem contracts) (Returns acc) =
  Returns (fold_left batch_step contracts acc).
Proof. induction contracts as [|c contracts IH]; intros acc; simpl; done. Qed.

(** On items that are all dicts the task returns the report of the loop
    on dicts. *)
Lemma batch_of_dicts contracts :
  BatchTask.batch_analyze_contracts analyze store_analysis store_issues task_id
    (map BatchTask.DictItem contracts) =
  Returns (batch_analyze_contracts contracts).
Proof.
  unfold BatchTask.batch_analyze_contracts, AnalysisTasks.batch_analyze_contracts.
  rewrite fold_step_dicts, length_map.
  by destruct (fold_left batch_step contracts _) as [? [[? ?] ?]].
Qed.

(** C7. On a list of dicts the task returns a report with one entry for
    every item, in order: each entry is the one the item's own events
    and store calls call for, failed or completed, so the failure of one
    item changes no other entry. The numbers of completed and failed
    entries are reported and add up to the number of items; with three
    items of which exactly one fails, wherever it stands, the report
    shows 2 completed and 1 failed. An item that is no dict is another
    matter: the handler of the item raises in its turn, the exception
    leaves the loop and the task raises it, without a report. *)
Theorem batch_survives_item_failure (items : list BatchTask.item) :
  let run := BatchTask.batch_analyze_contracts analyze store_analysis store_issues
               task_id items in
  (forall contracts, items = map BatchTask.DictItem contracts ->
     exists result,
       run = Returns result /\
       total result = Z.of_nat (length contracts) /\
       length (results result) = length contracts /\
       (forall k contract, contracts !! k = Some contract ->
          exists entry, results result !! k = Some entry /\ recorded k contract entry) /\
       completed result = count is_completed (results result) /\
       failed result = count (fun e => negb (is_completed e)) (results result) /\
       completed result + failed result = total result /\
       (length contracts = 3%nat -> failed result = 1 -> completed result = 2)) /\
  (forall before type_name after,
     items = map BatchTask.DictItem before ++ BatchTask.OtherItem type_name :: after ->
     run = Raises (BatchTask.no_get type_name)).
Proof.
  intros run. split.
  - intros contracts ->. unfold run. rewrite batch_of_dicts, batch_report.
    eexists. split; [done|]. simpl.
    pose proof (count_split (entries_from 0 contracts)) as Hsum.
    rewrite entries_from_length in Hsum.
    split; [done|]. split; [apply entries_from_length|]. split.
    { intros k contract Hk. exists (analyze_item k contract).
      split; [by apply (entries_from_lookup contracts 0%nat)|].
      apply analyze_item_recorded. }
    repeat (split; [done|]). intros H3 H1. lia.
  - intros before type_name after ->. unfold run, BatchTask.batch_analyze_contracts.
    rewrite fold_left_app, fold_step_dicts. simpl.
    by rewrite fold_step_raises.
Qed.

End Batch.

(** Three items; the model service completes the first and the third
    and raises on the second. *)
Definition sample_result : analysis_result :=
  mk_result (JString "low") (JNumber 10) (JList []) (JList []) (JString "ok") "{}".

Definition fails_on_second (i : nat) (text : string) (industry : option string)
    (types : option (list string)) : generator chunk :=
  if (i =? 1)%nat then mk_gen [] (Some (mk_exn "RuntimeError" "model unavailable"))
  else mk_gen [mk_chunk (AnalysisData sample_result) 0%Q true] None.

Definition sample_items : list contract_data :=
  [mk_item (JString "a") (Some "first") None None;
   mk_item (JString "b") (Some "second") None None;
   mk_item (JString "c") (Some "third") None None].

Example batch_of_three :
  BatchTask.batch_analyze_contracts fails_on_second
    (fun i _ _ => Returns ("analysis-" +:+ pretty i)) (fun _ _ _ => Returns tt)
    "t1" (map BatchTask.DictItem sample_items) =
  Returns (mk_report 3 2 1
    [ItemCompleted (JString "a") "analysis-0" sample_result;
     ItemFailed (JString "b") "model unavailable";
     ItemCompleted (JString "c") "analysis-2" sample_result]).
Proof. vm_compute. done. Qed.

(** The same batch with a string in the place of the second item: the
    task raises, and the first and the third item have no entry. *)
Example batch_aborts_on_malformed_item :
  BatchTask.batch_analyze_contracts
    (fun _ _ _ _ => mk_gen [mk_chunk (AnalysisData sample_result) 0%Q true] None)
    (fun i _ _ => Returns ("analysis-" +:+ pretty i)) (fun _ _ _ => Returns tt)
    "t1"
    [BatchTask.DictItem (mk_item (JString "a") (Some "first") None None);
     BatchTask.OtherItem "str";
     BatchTask.DictItem (mk_item (JString "c") (Some "third") None None)] =
  Raises (mk_exn "AttributeError" "'str' object has no attribute 'get'").
Proof. vm_compute. done. Qed.

End BatchFacts.
(* ===================================================================== *)
(** * Properties of the cache *)
(* ===================================================================== *)

Module CacheFacts.
Import CacheManager.

(** ** The server *)

Lemma elem_of_keys now (d : Redis.db) prefix k :
  k ∈ Redis.keys now d prefix <->
  exists e, d !! k = Some e /\ String.prefix prefix k = true /\ Redis.live now e = true.
Proof.
  unfold Redis.keys. rewrite list_elem_of_In, in_map_iff. split.
  - intros ([k' e] & <- & Hin). apply filter_In in Hin as [Hin Hf].
    apply list_elem_of_In, elem_of_map_to_list in Hin.
    apply andb_true_iff in Hf as [Hp Hl]. eauto.
  - intros (e & Hk & Hp & Hl). exists (k, e). split; [done|].
    apply filter_In. split.
    + by apply list_elem_of_In, elem_of_map_to_list.
    + simpl. by rewrite Hp, Hl.
Qed.

Lemma filter_sublist {A} (f : A -> bool) l : List.filter f l `sublist_of` l.
Proof.
  induction l as [|x l IH]; simpl; [done|].
  destruct (f x); [by apply sublist_skip|by apply sublist_cons].
Qed.

Lemma NoDup_keys now (d : Redis.db) prefix : NoDup (Redis.keys now d prefix).
Proof.
  unfold Redis.keys.
  apply (sublist_NoDup _ (map fst (map_to_list d))).
  - apply NoDup_fst_map_to_list.
  - apply (fmap_sublist fst), filter_sublist.
Qed.

Lemma lookup_fold_del (ks : list string) : forall (d : Redis.db) k,
  fold_left Redis.del ks d !! k = if decide (k ∈ ks) then None else d !! k.
Proof.
  induction ks as [|x ks IH]; intros d k; simpl.
  - destruct (decide (k ∈ [])) as [Hin|]; [by apply elem_of_nil in Hin|done].
  - rewrite IH. unfold Redis.del.
    destruct (decide (k ∈ ks)) as [Hin|Hnin].
    + rewrite decide_True; [done|by apply elem_of_cons; right].
    + destruct (decide (k = x)) as [->|Hne].
      * rewrite lookup_delete_eq.
        rewrite decide_True; [done|by apply elem_of_cons; left].
      * rewrite lookup_delete_ne by done.
        rewrite decide_False; [done|]. by intros [?|?]%elem_of_cons.
Qed.

(** ** The stable sort *)

Fixpoint ascending (l : list (string * Z)) : Prop :=
  match l with
  | [] => True
  | x :: l' => Forall (fun y => snd x <= snd y) l' /\ ascending l'
  end.

Lemma insert_by_ttl_perm x l : insert_by_ttl x l ≡ₚ x :: l.
Proof.
  induction l as [|y l IH]; simpl; [done|].
  destruct (snd x <=? snd y); [done|].
  rewrite IH. apply Permutation_swap.
Qed.

Lemma insert_by_ttl_ascending x l : ascending l -> ascending (insert_by_ttl x l).
Proof.
  induction l as [|y l IH]; simpl; [done|].
  intros [Hy Hl]. destruct (Z.leb_spec (snd x) (snd y)); simpl.
  - repeat split; try done. constructor; [done|].
    eapply Forall_impl; [exact Hy|]. simpl. intros; lia.
  - split; [|by apply IH].
    rewrite insert_by_ttl_perm. constructor; [lia|done].
Qed.

Lemma sort_by_ttl_perm l : sort_by_ttl l ≡ₚ l.
Proof.
  induction l as [|x l IH]; simpl; [done|].
  by rewrite insert_by_ttl_perm, IH.
Qed.

Lemma sort_by_ttl_ascending l : ascending (sort_by_ttl l).
Proof.
  induction l as [|x l IH]; simpl; [done|]. by apply insert_by_ttl_ascending.
Qed.

(** In an ascending list nothing among the first [m] entries exceeds an
    entry after them. *)
Lemma ascending_firstn l : forall m x y,
  ascending l -> x ∈ firstn m l -> y ∈ skipn m l -> snd x <= snd y.
Proof.
  induction l as [|z l IH]; intros m x y Hl Hx Hy.
  - destruct m; by apply elem_of_nil in Hx.
  - destruct m as [|m]; simpl in *; [by apply elem_of_nil in Hx|].
    destruct Hl as [Hz Hl]. apply elem_of_cons in Hx as [->|Hx].
    + rewrite Forall_forall in Hz. apply Hz.
      eapply elem_of_submseteq; [exact Hy|]. apply sublist_submseteq, sublist_drop.
    + by eapply IH.
Qed.

(** ** Eviction *)

Section Eviction.
Context `{Json} `{Hashlib}.

Lemma elem_of_key_ttls now d k t :
  (k, t) ∈ key_ttls now d <->
  k ∈ Redis.keys now d "clyrdia:" /\ t = Redis.ttl now d k /\ 0 < t.
Proof.
  unfold key_ttls. rewrite list_elem_of_In, filter_In, in_map_iff. simpl. split.
  - intros [(k' & [= -> ->] & Hin) Ht]. apply list_elem_of_In in Hin.
    repeat split; [done|lia].
  - intros (Hin & -> & Ht). split; [|lia].
    exists k. split; [done|]. by apply list_elem_of_In.
Qed.

Lemma NoDup_key_ttls now d : NoDup (map fst (key_ttls now d)).
Proof.
  unfold key_ttls.
  eapply sublist_NoDup; [|apply (fmap_sublist fst), filter_sublist].
  rewrite map_map. simpl. rewrite map_id. apply NoDup_keys.
Qed.

Definition to_remove (now : Z) (d : Redis.db) : nat :=
  Z.to_nat (Z.max 1 (Z.of_nat (length (key_ttls now d)) / 10)).

Lemma evicted_eq now d :
  evicted now d = map fst (firstn (to_remove now d) (sort_by_ttl (key_ttls now d))).
Proof.
  unfold evicted, to_remove. by rewrite (Permutation_length (sort_by_ttl_perm _)).
Qed.

Lemma evict_oldest_eq now d :
  _evict_oldest now d = fold_left Redis.del (evicted now d) d.
Proof.
  unfold _evict_oldest. destruct (Redis.keys now d "clyrdia:") eqn:E; [|done].
  unfold evicted, key_ttls. by rewrite E.
Qed.

(** Every deleted key held an entry with time left. *)
Lemma evicted_candidate now d k :
  k ∈ evicted now d ->
  k ∈ Redis.keys now d "clyrdia:" /\ 0 < Redis.ttl now d k.
Proof.
  rewrite evicted_eq. intros ([k' t] & -> & Hin)%list_elem_of_fmap. simpl.
  assert (Hc : (k', t) ∈ key_ttls now d).
  { rewrite <- (sort_by_ttl_perm (key_ttls now d)).
    eapply elem_of_submseteq; [exact Hin|]. apply sublist_submseteq, sublist_take. }
  apply elem_of_key_ttls in Hc as (Hk & -> & Ht). done.
Qed.

Lemma NoDup_sorted_keys now d : NoDup (map fst (sort_by_ttl (key_ttls now d))).
Proof.
  eapply NoDup_Permutation_proper; [|apply NoDup_key_ttls].
  apply fmap_Permutation, sort_by_ttl_perm.
Qed.

Lemma NoDup_evicted now d : NoDup (evicted now d).
Proof.
  rewrite evicted_eq. eapply sublist_NoDup; [apply NoDup_sorted_keys|].
  apply (fmap_sublist fst), sublist_take.
Qed.

(** The number of deleted keys. *)
Lemma evicted_length now d :
  let n := Z.of_nat (length (key_ttls now d)) in
  Z.of_nat (length (evicted now d)) = if n =? 0 then 0 else Z.max 1 (n / 10).
Proof.
  intros n. rewrite evicted_eq, length_map, length_firstn.
  rewrite (Permutation_length (sort_by_ttl_perm _)). unfold to_remove. fold n.
  assert (0 <= n) by (unfold n; lia).
  assert (n / 10 <= n) by (apply Z.div_le_upper_bound; lia).
  assert (0 <= n / 10) by (apply Z.div_pos; lia).
  destruct (Z.eqb_spec n 0) as [E|E]; unfold n in *; lia.
Qed.

(** No deleted key had more time left than a candidate that stays. *)
Lemma evicted_lowest now d k k' :
  k ∈ evicted now d ->
  k' ∈ Redis.keys now d "clyrdia:" -> 0 < Redis.ttl now d k' ->
  k' ∉ evicted now d ->
  Redis.ttl now d k <= Redis.ttl now d k'.
Proof.
  rewrite evicted_eq. intros ([k0 t] & -> & Hin)%list_elem_of_fmap Hk' Ht' Hout.
  simpl. set (sorted := sort_by_ttl (key_ttls now d)) in *.
  assert (Hc : (k0, t) ∈ key_ttls now d).
  { rewrite <- (sort_by_ttl_perm (key_ttls now d)).
    eapply elem_of_submseteq; [exact Hin|]. apply sublist_submseteq, sublist_take. }
  apply elem_of_key_ttls in Hc as (_ & -> & _).
  assert (Hs : (k', Redis.ttl now d k') ∈ sorted).
  { unfold sorted. rewrite (sort_by_ttl_perm (key_ttls now d)).
    apply elem_of_key_ttls. done. }
  rewrite <- (firstn_skipn (to_remove now d) sorted) in Hs.
  apply elem_of_app in Hs as [Hs|Hs].
  - exfalso. apply Hout. apply list_elem_of_fmap. by exists (k', Redis.ttl now d k').
  - apply (ascending_firstn sorted (to_remove now d) (k0, Redis.ttl now d k0)
             (k', Redis.ttl now d k')); [apply sort_by_ttl_ascending|done|done].
Qed.

(** ** The candidates of the eviction, said without the code *)

(** The live keys of the cache whose time to live, as the server
    reports it, is positive. *)
Definition candidates (now : Z) (d : Redis.db) : list string :=
  List.filter (fun k => (0 <? Redis.ttl now d k)%Z) (Redis.keys now d "clyrdia:").

Lemma key_ttls_candidates now d : map fst (key_ttls now d) = candidates now d.
Proof.
  unfold key_ttls, candidates.
  induction (Redis.keys now d "clyrdia:") as [|k ks IH]; simpl; [done|].
  rewrite Z.gtb_ltb. destruct (0 <? Redis.ttl now d k); simpl; by rewrite IH.
Qed.

Lemma elem_of_candidates now d k :
  k ∈ candidates now d <-> k ∈ Redis.keys now d "clyrdia:" /\ 0 < Redis.ttl now d k.
Proof.
  unfold candidates. rewrite list_elem_of_In, filter_In, <- list_elem_of_In.
  by rewrite Z.ltb_lt.
Qed.

(** ** Writing and reading back *)

Lemma setex_accepted now (d : Redis.db) k seconds v :
  0 < seconds -> Redis.in_range now seconds = true ->
  Redis.setex now d k seconds v =
  Some (<[k := Redis.mk_entry v (Some (now + 1000 * seconds))]> d).
Proof.
  intros Hs Hr. unfold Redis.setex. rewrite Hr.
  by destruct (Z.ltb_spec 0 seconds); [|lia].
Qed.

Lemma setex_refused now (d : Redis.db) k seconds v :
  seconds <= 0 \/ Redis.in_range now seconds = false ->
  Redis.setex now d k seconds v = None.
Proof.
  intros Hor. unfold Redis.setex.
  destruct (Z.ltb_spec 0 seconds); simpl; [|done].
  destruct Hor as [Hs|Hr]; [lia|by rewrite Hr].
Qed.

(** Reading a key that holds the text written for a value. *)
Lemma get_written self (d : Redis.db) later key value back t :
  json_dumps value <> "" ->
  json_loads (json_dumps value) = Decoded back ->
  get (with_db self
         (<[_generate_key key := Redis.mk_entry (json_dumps value) (Some t)]> d))
      later key =
  if later <=? t then Some back else None.
Proof.
  intros Hne Hrt. unfold get, with_db, Redis.get, Redis.lookup. simpl.
  rewrite lookup_insert_eq. unfold Redis.live. simpl.
  destruct (later <=? t); simpl; [|done].
  destruct (json_dumps value); [done|]. by rewrite Hrt.
Qed.

(** The cache before the write of a [set]. *)
Definition swept (self : t) (now : Z) (d : Redis.db) : Redis.db :=
  if _check_size_limit self now d then _evict_oldest now d else d.

Lemma set_connected self d now key value ttl :
  redis_client self = Some d ->
  0 < effective_ttl self ttl -> Redis.in_range now (effective_ttl self ttl) = true ->
  set self now key value ttl =
  (true,
   with_db self
     (<[_generate_key key :=
          Redis.mk_entry (json_dumps value)
            (Some (now + 1000 * effective_ttl self ttl))]> (swept self now d))).
Proof.
  intros Hc Hs Hr. unfold set. rewrite Hc.
  fold (swept self now d). by rewrite setex_accepted.
Qed.

Lemma set_refused self d now key value ttl :
  redis_client self = Some d ->
  effective_ttl self ttl <= 0 \/ Redis.in_range now (effective_ttl self ttl) = false ->
  set self now key value ttl = (false, with_db self (swept self now d)).
Proof.
  intros Hc Hor. unfold set. rewrite Hc.
  fold (swept self now d). by rewrite setex_refused.
Qed.

Lemma effective_ttl_positive self ttl : 0 < ttl -> effective_ttl self (Some ttl) = ttl.
Proof. intros Ht. destruct ttl; simpl; (done || lia). Qed.

(** A value that [json.loads] can return is written as itself. *)
Lemma to_json_of_json : forall j, PyJson.to_json (PyJson.of_json j) = j.
Proof.
  fix IH 1. intros [| | | |l|items]; simpl; try done.
  - f_equal. induction l as [|x l IHl]; simpl; [done|]. by rewrite IH, IHl.
  - f_equal. induction items as [|[k v] items IHitems]; simpl; [done|].
    by rewrite IH, IHitems.
Qed.

(** C4, as the code has it. With Redis connected and a positive time to
    live, in seconds: when the server takes the time to live (its
    instant is within the server's range) and [json.loads] reads back
    the text written for the value, [set] succeeds and a [get] of the
    key, at once or at any instant until the time to live has passed,
    returns the JSON value of what [json.dumps(value, default=str)]
    wrote; that is the value itself when it is one [json.loads] can
    return. A [get] once the time to live has passed returns [None].
    When the server refuses the time to live, [set] answers [False] and
    writes nothing: the key is read as without the write. *)
Theorem set_then_get (self : t) (d : Redis.db) (now : Z) (key : string)
    (value : pyval) (ttl : Z) :
  redis_client self = Some d ->
  0 < ttl ->
  let r := set self now key value (Some ttl) in
  (Redis.in_range now ttl = true ->
   json_dumps value <> "" ->
   json_loads (json_dumps value) = Decoded (PyJson.to_json value) ->
   fst r = true /\
   get (snd r) now key = Some (PyJson.to_json value) /\
   (forall later, now <= later <= now + 1000 * ttl ->
      get (snd r) later key = Some (PyJson.to_json value)) /\
   (forall later, now + 1000 * ttl < later -> get (snd r) later key = None) /\
   (forall j, value = PyJson.of_json j -> get (snd r) now key = Some j)) /\
  (Redis.in_range now ttl = false ->
   fst r = false /\
   forall later, get (snd r) later key =
                 get (with_db self (swept self now d)) later key).
Proof.
  intros Hc Ht r. unfold r. split.
  - intros Hr Hne Hrt.
    rewrite (set_connected self d) by (rewrite ?effective_ttl_positive; done).
    rewrite effective_ttl_positive by done. simpl. split; [done|].
    assert (Hnow : forall later, now <= later <= now + 1000 * ttl ->
              get (with_db self
                     (<[_generate_key key :=
                          Redis.mk_entry (json_dumps value) (Some (now + 1000 * ttl))]>
                        (swept self now d))) later key =
              Some (PyJson.to_json value)).
    { intros later Hl. rewrite (get_written _ _ _ _ _ _ _ Hne Hrt).
      destruct (Z.leb_spec later (now + 1000 * ttl)); [done|lia]. }
    split; [apply Hnow; lia|]. split; [exact Hnow|]. split.
    + intros later Hl. rewrite (get_written _ _ _ _ _ _ _ Hne Hrt).
      destruct (Z.leb_spec later (now + 1000 * ttl)); [lia|done].
    + intros j ->. rewrite Hnow by lia. by rewrite to_json_of_json.
  - intros Hr.
    rewrite (set_refused self d)
      by (rewrite ?effective_ttl_positive by done; by (done || right)).
    done.
Qed.

(** C5, as the code has it. With Redis connected and the number of live
    entries at or over the maximum, a [set] deletes, before it writes,
    some keys [gone], all different: each is a candidate, a live key of
    the cache whose time to live, as the server reports it in whole
    seconds, is positive (so neither an entry without expiry nor one in
    its last half second); with [n] candidates there are
    [max(1, n / 10)] of them, and none when [n = 0]; none has a higher
    reported time to live than a candidate that stays. Every other key,
    but the one written, holds afterwards what it held before. The write
    follows the deletions: when the server takes it, the entry written
    is there afterwards. *)
Theorem set_evicts_lowest_ttl (self : t) (d : Redis.db) (now : Z) (key : string)
    (value : pyval) (ttl : option Z) :
  redis_client self = Some d ->
  max_size self <= Z.of_nat (length (Redis.keys now d "clyrdia:")) ->
  let n := Z.of_nat (length (candidates now d)) in
  let r := set self now key value ttl in
  exists gone : list string,
    NoDup gone /\
    Z.of_nat (length gone) = (if n =? 0 then 0 else Z.max 1 (n / 10)) /\
    (forall k, k ∈ gone ->
       k ∈ Redis.keys now d "clyrdia:" /\ 0 < Redis.ttl now d k) /\
    (forall k k',
       k ∈ gone -> k' ∈ Redis.keys now d "clyrdia:" -> 0 < Redis.ttl now d k' ->
       k' ∉ gone -> Redis.ttl now d k <= Redis.ttl now d k') /\
    (exists d',
       redis_client (snd r) = Some d' /\
       (forall k, k <> _generate_key key ->
          d' !! k = if decide (k ∈ gone) then None else d !! k) /\
       (fst r = true <->
          0 < effective_ttl self ttl /\
          Redis.in_range now (effective_ttl self ttl) = true) /\
       (fst r = true ->
          d' !! _generate_key key =
            Some (Redis.mk_entry (json_dumps value)
                    (Some (now + 1000 * effective_ttl self ttl)))) /\
       (fst r = false ->
          d' !! _generate_key key =
            if decide (_generate_key key ∈ gone) then None
            else d !! _generate_key key)).
Proof.
  intros Hc Hfull n r. exists (evicted now d).
  split; [apply NoDup_evicted|].
  split.
  { pose proof (evicted_length now d) as Hl. cbv zeta in Hl.
    unfold n. by rewrite <- key_ttls_candidates, length_map. }
  split; [intros k; apply evicted_candidate|].
  split; [apply evicted_lowest|].
  assert (Hlimit : _check_size_limit self now d = true).
  { unfold _check_size_limit. apply Z.geb_le. lia. }
  assert (Hswept : swept self now d = fold_left Redis.del (evicted now d) d).
  { unfold swept. by rewrite Hlimit, evict_oldest_eq. }
  destruct (Z.ltb_spec 0 (effective_ttl self ttl)) as [Hpos|Hneg];
    [destruct (Redis.in_range now (effective_ttl self ttl)) eqn:Hr|].
  - unfold r. rewrite (set_connected self d) by done. rewrite Hswept. simpl.
    eexists. split; [done|]. split.
    { intros k Hk. rewrite lookup_insert_ne by done. apply lookup_fold_del. }
    split; [done|]. split; [|done]. intros _. by rewrite lookup_insert_eq.
  - unfold r. rewrite (set_refused self d) by (done || by right).
    rewrite Hswept. simpl.
    eexists. split; [done|]. split; [intros k _; apply lookup_fold_del|].
    split; [split; [done|by intros [_ ?]]|]. split; [done|].
    intros _. apply lookup_fold_del.
  - unfold r. rewrite (set_refused self d) by (done || (left; lia)).
    rewrite Hswept. simpl.
    eexists. split; [done|]. split; [intros k _; apply lookup_fold_del|].
    split; [split; [done|intros [? _]; lia]|]. split; [done|].
    intros _. apply lookup_fold_del.
Qed.

End Eviction.

(** ** Examples *)

(** Ten entries written with times to live of 100, 200, ... seconds, one
    entry without expiry, and a cache that holds at most ten. *)
Definition crowded : Redis.db :=
  list_to_map
    (("clyrdia:counter", Redis.mk_entry "7" None) ::
     map (fun i : nat =>
            ("clyrdia:" +:+ pretty i,
             Redis.mk_entry "old" (Some (100000 * Z.of_nat i))))
         (seq 1 10)).

Definition crowded_cache : t := mk (Some crowded) 3600 10.

(** A connected cache that holds nothing. *)
Definition empty_cache : t := mk (Some ∅) 3600 1000.

(** The list [[1, 2]], the tuple [(1, 2)] and the [json] module on the
    text of both. *)
Definition one_two : json := JList [JNumber 1; JNumber 2].
Definition pair_one_two : pyval := PyTuple [PyNumber 1; PyNumber 2].
Definition json_one_two : Json := Examples.json_knowing "[1, 2]" one_two.

Lemma set_then_get_witness :
  let r := @set json_one_two Examples.plain_hashlib
             empty_cache 0 "k" (PyJson.of_json one_two) (Some 60) in
  fst r = true /\
  @get json_one_two Examples.plain_hashlib (snd r) 0 "k" = Some one_two /\
  @get json_one_two Examples.plain_hashlib (snd r) 60000 "k" = Some one_two /\
  @get json_one_two Examples.plain_hashlib (snd r) 60001 "k" = None.
Proof.
  destruct (@set_then_get json_one_two Examples.plain_hashlib
              empty_cache ∅ 0 "k" (PyJson.of_json one_two) 60 eq_refl ltac:(lia))
    as [Hok _].
  destruct (Hok eq_refl ltac:(done) eq_refl) as (H1 & H2 & H3 & H4 & _).
  split; [exact H1|]. split; [exact H2|].
  split; [apply H3; lia|apply H4; lia].
Defined.

(** C4 does not hold of every value: the tuple [(1, 2)] that
    is set is got back, at once, as the list [[1, 2]]. *)
Lemma tuple_comes_back_as_list :
  let r := @set json_one_two Examples.plain_hashlib
             empty_cache 0 "k" pair_one_two (Some 60) in
  fst r = true /\
  @get json_one_two Examples.plain_hashlib (snd r) 0 "k" = Some one_two /\
  PyJson.of_json one_two = PyList [PyNumber 1; PyNumber 2] /\
  PyJson.of_json one_two <> pair_one_two.
Proof. vm_compute. repeat split. discriminate. Qed.

(** Nor of every positive time to live: one beyond the range of the
    server is refused, [set] answers [False] and the key stays absent. *)
Example huge_ttl_is_refused :
  let r := @set json_one_two Examples.plain_hashlib
             empty_cache 0 "k" (PyJson.of_json one_two)
             (Some 9223372036854776) in
  fst r = false /\
  @get json_one_two Examples.plain_hashlib (snd r) 0 "k" = None.
Proof. vm_compute. done. Qed.

Lemma set_evicts_lowest_ttl_witness :
  exists gone : list string,
    NoDup gone /\ Z.of_nat (length gone) = 1 /\
    (forall k, k ∈ gone ->
       k ∈ Redis.keys 0 crowded "clyrdia:" /\ 0 < Redis.ttl 0 crowded k).
Proof.
  destruct (@set_evicts_lowest_ttl json_one_two Examples.plain_hashlib
              crowded_cache crowded 0 "k" pair_one_two (Some 60) eq_refl)
    as (gone & Hnd & Hlen & Hcand & _); [by vm_compute|].
  exists gone. split; [exact Hnd|]. split; [|exact Hcand].
  rewrite Hlen. by vm_compute.
Defined.

(** C5 does not hold of an entry in its last half second:
    of two entries in a cache that holds at most two, one with 0.4
    seconds left and one with 100 seconds, the server reports 0 and 100;
    the first is no candidate, and the [set] deletes the second, which
    has the higher time left, and keeps the first. *)
Definition closing : Redis.db :=
  list_to_map
    [("clyrdia:a", Redis.mk_entry "soon" (Some 400));
     ("clyrdia:b", Redis.mk_entry "late" (Some 100000))].

Definition closing_cache : t := mk (Some closing) 3600 2.

Lemma last_half_second_survives :
  let r := @set json_one_two Examples.plain_hashlib
             closing_cache 0 "k" pair_one_two (Some 60) in
  Redis.lookup 0 closing "clyrdia:a" = Some (Redis.mk_entry "soon" (Some 400)) /\
  Redis.lookup 0 closing "clyrdia:b" = Some (Redis.mk_entry "late" (Some 100000)) /\
  Redis.ttl 0 closing "clyrdia:a" = 0 /\ Redis.ttl 0 closing "clyrdia:b" = 100 /\
  fst r = true /\
  (exists d', redis_client (snd r) = Some d' /\
     Redis.lookup 0 d' "clyrdia:a" = Some (Redis.mk_entry "soon" (Some 400)) /\
     Redis.lookup 0 d' "clyrdia:b" = None).
Proof.
  repeat (split; [by vm_compute|]).
  eexists. split; [reflexivity|]. by vm_compute.
Qed.

End CacheFacts.
(* ===================================================================== *)
(** * Texts with one sanitised form share a fingerprint and a cache entry *)
(* ===================================================================== *)

Module FingerprintFacts.
Import Endpoints CacheFacts.

Section Sharing.
Context `{Hashlib} `{TextExtractor} `{Pydantic}.
Context `{Json}.
Variable settings : Settings.

(** The cache key of a raw text. *)
Definition key_of (request : Request) (text : string) : string :=
  analysis_cache_key (text_fingerprint (Security.sanitize_input (Some text)))
    (industry request) (analysis_type request).

(** A fresh analysis of a raw text was written to the cache under the
    key of the text. *)
Lemma fresh_analysis_cached st w request text v :
  file_upload request = None -> contract_text request = Some text ->
  response (analyze_contract_try settings st w request) = Respond (Fresh v) ->
  Security.sanitize_input (Some text) <> "" /\
  model_calls (analyze_contract_try settings st w request) <> [] /\
  cache (state (analyze_contract_try settings st w request)) =
    snd (CacheManager.set (cache st) (redis_now_set w) (key_of request text) v
           (Some 3600)).
Proof.
  intros Hup Htext. unfold key_of, analyze_contract_try.
  destruct (RateLimiter.is_allowed _ _ _) as [allowed limiter].
  destruct (negb allowed); [done|].
  match goal with |- context [if ?b then _ else _] => destruct b end; [done|].
  unfold prepare. rewrite Hup, Htext.
  generalize (Security.sanitize_input (Some text)). intros s.
  destruct (String.eqb_spec s "") as [|Hne]; [done|].
  assert (Hfresh : forall key,
    response (analyze_afresh settings (mk_state limiter (cache st)) w request s
                (text_fingerprint s) key) = Respond (Fresh v) ->
    s <> "" /\
    model_calls (analyze_afresh settings (mk_state limiter (cache st)) w request s
                   (text_fingerprint s) key) <> [] /\
    cache (state (analyze_afresh settings (mk_state limiter (cache st)) w request s
                    (text_fingerprint s) key)) =
      snd (CacheManager.set (cache st) (redis_now_set w) key v (Some 3600))).
  { intros key. unfold analyze_afresh.
    destruct (first_outcome _) as [[r|e|e]|]; [|done|done|by destruct (raised _)].
    destruct (PyJson.len _) as [n|]; [|done].
    destruct (model_dict _) as [dict|]; [|done].
    cbn [cache rate_limiter].
    destruct (CacheManager.set _ _ _ _ _) as [ok cache1] eqn:Eset.
    intros Hr. simpl in Hr. injection Hr as <-.
    split; [done|]. split; [done|]. rewrite Eset. reflexivity. }
  cbn [cache].
  destruct (CacheManager.get _ _ _) as [cached|]; [|apply Hfresh].
  destruct (PyJson.truthy cached); [done|apply Hfresh].
Qed.

(** A request whose key the cache holds, with a value that counts as
    true, is answered from the cache. *)
Lemma cached_analysis_served st w request text hit :
  file_upload request = None -> contract_text request = Some text ->
  Security.sanitize_input (Some text) <> "" ->
  fst (RateLimiter.is_allowed (rate_limiter st) (time_now w) (get_client_id request))
  = true ->
  CacheManager.get (cache st) (redis_now_get w) (key_of request text) = Some hit ->
  PyJson.truthy hit = true ->
  response (analyze_contract_try settings st w request) = Respond (Cached hit) /\
  model_calls (analyze_contract_try settings st w request) = [].
Proof.
  intros Hup Htext Hne Hadm Hget Htrue. unfold key_of in Hget.
  unfold analyze_contract_try.
  destruct (RateLimiter.is_allowed _ _ _) as [allowed limiter]. simpl in Hadm.
  subst allowed. cbn [negb].
  assert (Hpresent : text <> "") by (intros ->; by apply Hne).
  rewrite (ValidationFacts.text_present _ _ Htext Hpresent).
  unfold prepare. rewrite Hup, Htext.
  apply String.eqb_neq in Hne. rewrite Hne. cbn [cache]. rewrite Hget, Htrue. done.
Qed.

(** C10, on the code. On the raw-text path the fingerprint is the
    SHA-256 digest of the sanitised text, and the cache key is built
    from it, the industry and the analysis types: two texts with one
    sanitised form, sent with the same industry and types, have one
    fingerprint and one cache key. When the [try] statement of the
    handler has analysed the first afresh with Redis connected, the
    [try] statement of an admitted request with the second, read within
    the hour, is about to return what the cache holds of the record of
    the first (the value [json.loads] reads from its text), and nothing
    is sent to the model. Neither client is served it: the [finally]
    clause of the handler raises [AttributeError] in both requests, which
    are answered 500. *)
Theorem equal_sanitized_share_record
    (st : State) (w1 w2 : World) (first second : Request) (t1 t2 : string)
    (d : Redis.db) (record : pyval) (held : json) :
  file_upload first = None -> contract_text first = Some t1 ->
  file_upload second = None -> contract_text second = Some t2 ->
  industry first = industry second ->
  analysis_type first = analysis_type second ->
  Security.sanitize_input (Some t1) = Security.sanitize_input (Some t2) ->
  let b1 := analyze_contract_try settings st w1 first in
  let r1 := analyze_contract settings st w1 first in
  let b2 := analyze_contract_try settings (state r1) w2 second in
  let r2 := analyze_contract settings (state r1) w2 second in
  (text_fingerprint (Security.sanitize_input (Some t1)) =
     sha256_hexdigest (Py.encode (Security.sanitize_input (Some t2))) /\
   key_of first t1 = key_of second t2 /\
   CacheManager._generate_key (key_of first t1) =
     CacheManager._generate_key (key_of second t2)) /\
  (CacheManager.redis_client (cache st) = Some d ->
   Redis.in_range (redis_now_set w1) 3600 = true ->
   response b1 = Respond (Fresh record) ->
   json_dumps record <> "" -> json_loads (json_dumps record) = Decoded held ->
   PyJson.truthy held = true ->
   fst (RateLimiter.is_allowed (rate_limiter (state r1)) (time_now w2)
          (get_client_id second)) = true ->
   redis_now_set w1 <= redis_now_get w2 <= redis_now_set w1 + 3600000 ->
   response b2 = Respond (Cached held) /\ model_calls r2 = [] /\
   response r1 = Unhandled log_response_of_None /\
   response r2 = Unhandled log_response_of_None /\
   status_of (response r2) = 500).
Proof.
  intros Hup1 Ht1 Hup2 Ht2 Hind Htypes Hsan b1 r1 b2 r2.
  assert (Hkey : key_of first t1 = key_of second t2).
  { unfold key_of. by rewrite Hsan, Hind, Htypes. }
  split.
  { unfold text_fingerprint. rewrite Hsan, Hkey. done. }
  intros Hc Hrange Hr1 Hne Hrt Htrue Hadm Hwithin.
  destruct (fresh_analysis_cached st w1 first t1 record Hup1 Ht1 Hr1)
    as (Hs1 & _ & Hcache).
  assert (Hstate : state r1 = state b1) by done.
  destruct (cached_analysis_served (state r1) w2 second t2 held) as [Hb2 Hm2];
    try done.
  { by rewrite <- Hsan. }
  { rewrite Hstate. fold b1 in Hcache. rewrite Hcache, <- Hkey.
    rewrite (set_connected (cache st) d) by done. simpl.
    rewrite (get_written _ _ _ _ _ _ _ Hne Hrt).
    destruct (Z.leb_spec (redis_now_get w2) (redis_now_set w1 + 1000 * 3600));
      [done|lia]. }
Qed.

End Sharing.

(** Two texts that differ in denylist characters only, the record the
    first is analysed to, and a [json] module that knows it. *)
Definition marked_up : string := "<b>This agreement sets out the terms.</b>".
Definition plain : string := "bThis agreement sets out the terms./b".

Definition first_record : pyval :=
  PyDict
    [("analysis_id", PyStr "id-1");
     ("contract_hash", PyStr "bThis agreement sets out the terms./b");
     ("total_issues", PyNumber 0);
     ("overall_risk_score", PyNumber 50);
     ("risk_level", PyStr "medium");
     ("issues", PyList []);
     ("summary", PyStr "Analysis completed");
     ("recommendations", PyList []);
     ("analysis_metadata",
      PyDict [("industry", PyNone);
              ("analysis_types", PyList [PyStr "legal"; PyStr "financial";
                                         PyStr "compliance"]);
              ("text_length", PyNumber 37);
              ("model_used", PyStr "gpt-4")]);
     ("created_at", PyObject "datetime@5");
     ("processing_time", PyNumber 1)].

Definition json_of_record : Json :=
  Examples.json_knowing "record" (PyJson.to_json first_record).

(** The two requests, one second apart on the clock of the application:
    the second finds the record of the first in the cache, and both are
    answered 500. *)
Lemma equal_sanitized_share_record_witness :
  let serve := @analyze_contract Examples.plain_hashlib Examples.plain_extractor
                 Examples.any_schema json_of_record Examples.settings in
  let try_ := @analyze_contract_try Examples.plain_hashlib Examples.plain_extractor
                Examples.any_schema json_of_record Examples.settings in
  let w1 := Examples.world Examples.answers_empty_object 5%Q in
  let w2 := Examples.world Examples.answers_prose 6%Q in
  let r1 := serve Examples.fresh_online w1 (Examples.text_request marked_up) in
  let r2 := serve (state r1) w2 (Examples.text_request plain) in
  marked_up <> plain /\
  response (try_ Examples.fresh_online w1 (Examples.text_request marked_up)) =
    Respond (Fresh first_record) /\
  response (try_ (state r1) w2 (Examples.text_request plain)) =
    Respond (Cached (PyJson.to_json first_record)) /\
  model_calls r2 = [] /\
  response r1 = Unhandled log_response_of_None /\
  response r2 = Unhandled log_response_of_None /\
  status_of (response r2) = 500.
Proof.
  split; [done|]. split; [by vm_compute|].
  refine (proj2 (@equal_sanitized_share_record Examples.plain_hashlib
    Examples.plain_extractor Examples.any_schema json_of_record
    Examples.settings Examples.fresh_online
    (Examples.world Examples.answers_empty_object 5%Q)
    (Examples.world Examples.answers_prose 6%Q)
    (Examples.text_request marked_up) (Examples.text_request plain)
    marked_up plain ∅ first_record (PyJson.to_json first_record)
    eq_refl eq_refl eq_refl eq_refl eq_refl eq_refl _)
    eq_refl _ _ _ _ _ _ _).
  all: by vm_compute.
Defined.

(** Two texts of 10,001 characters that differ in the last one only. *)
Fixpoint filler (n : nat) (tail : string) : string :=
  match n with
  | O => tail
  | S n' => String "a" (filler n' tail)
  end.

Definition limit : nat := Z.to_nat 10000.

Example truncation_hides_tail :
  filler limit "x" <> filler limit "y" /\
  Security.sanitize_input (Some (filler limit "x")) =
  Security.sanitize_input (Some (filler limit "y")).
Proof.
  split.
  - intros E. assert (Hlast : Py.drop limit (filler limit "x") =
                              Py.drop limit (filler limit "y")) by (by rewrite E).
    vm_compute in Hlast. done.
  - by vm_compute.
Qed.

End FingerprintFacts.
(* ===================================================================== *)
(** * Further properties of the rate limiter *)
(* ===================================================================== *)

Module RateLimiterMore.
Import RateLimiter RateLimiterFacts.

Lemma prune_newer h l : Forall (fun t => (h < t)%Q) (prune h l).
Proof.
  unfold prune. apply Forall_forall. intros t Hin.
  apply list_elem_of_In, filter_In in Hin as [_ Hin]. by apply Qgtb_lt.
Qed.


Lemma prune_shorter h l : len (prune h l) <= len l.
Proof.
  unfold len, prune. apply inj_le. induction l as [|t l IH]; simpl; [done|].
  destruct (Qgtb t h); simpl; lia.
Qed.




(** X1. After [_cleanup_old_entries] no key is left with an empty list:
    a key is kept exactly when one of its timestamps is newer than the
    horizon, and then it holds those timestamps, all newer than the
    horizon, in their order. *)
Theorem cleanup_keeps_live_entries (self : t) (now : Q) (c : string) :
  let swept := _cleanup_old_entries self now in
  (minute_requests swept !! c = None <->
     prune (now - 60)%Q (minute_seq self c) = []) /\
  (hour_requests swept !! c = None <->
     prune (now - 3600)%Q (hour_seq self c) = []) /\
  (forall l, minute_requests swept !! c = Some l ->
     l <> [] /\ l = prune (now - 60)%Q (minute_seq self c) /\
     Forall (fun t => (now - 60 < t)%Q) l) /\
  (forall l, hour_requests swept !! c = Some l ->
     l <> [] /\ l = prune (now - 3600)%Q (hour_seq self c) /\
     Forall (fun t => (now - 3600 < t)%Q) l).
Proof.
  assert (Hdict : forall h (d : gmap string (list Q)),
    (cleanup_dict h d !! c = None <-> prune h (d !!! c) = []) /\
    (forall l, cleanup_dict h d !! c = Some l ->
       l <> [] /\ l = prune h (d !!! c) /\ Forall (fun t => (h < t)%Q) l)).
  { intros h d. rewrite lookup_cleanup_dict, lookup_total_alt.
    destruct (d !! c) as [l0|]; simpl.
    - unfold keep_nonempty. pose proof (prune_newer h l0) as Hnew.
      destruct (prune h l0) as [|x l'] eqn:E; split; try done.
      intros l [= <-]. done.
    - split; [done|]. intros l. done. }
  simpl. unfold minute_seq, hour_seq.
  destruct (Hdict (now - 60)%Q (minute_requests self)) as [M1 M2].
  destruct (Hdict (now - 3600)%Q (hour_requests self)) as [H1 H2].
  done.
Qed.



(** The limits hold of every record. *)
Definition within_limits (self : t) : Prop :=
  forall c,
    len (minute_seq self c) <= Z.max 0 (requests_per_minute self) /\
    len (hour_seq self c) <= Z.max 0 (requests_per_hour self).

Lemma len_app_one (l : list Q) x : len (l ++ [x]) = len l + 1.
Proof. unfold len. rewrite length_app. simpl. lia. Qed.

Lemma is_allowed_within_limits self now c :
  within_limits self -> within_limits (snd (is_allowed self now c)).
Proof.
  intros Hin k. destruct (is_allowed_limits self now c) as [-> ->].
  pose proof (is_allowed_step self now c k) as [Em Eh]. simpl in Em, Eh.
  rewrite Em, Eh. destruct (Hin k) as [Hm Hh].
  pose proof (prune_shorter (now - 60)%Q (minute_seq self k)) as Pm.
  pose proof (prune_shorter (now - 3600)%Q (hour_seq self k)) as Ph.
  fold (minute_pruned self now k) in Pm. fold (hour_pruned self now k) in Ph.
  destruct (fst (is_allowed self now c)) eqn:Ea; simpl;
    [|rewrite !app_nil_r; lia].
  case_bool_decide as Hck; [subst k|rewrite !app_nil_r; lia].
  rewrite !len_app_one.
  destruct (Z.lt_ge_cases (len (minute_pruned self now c)) (requests_per_minute self));
    [|destruct (is_allowed_false self now c) as [Hf _]; [left; lia|congruence]].
  destruct (Z.lt_ge_cases (len (hour_pruned self now c)) (requests_per_hour self));
    [|destruct (is_allowed_false self now c) as [Hf _]; [right; lia|congruence]].
  lia.
Qed.

Lemma run_within_limits calls : forall self,
  within_limits self -> within_limits (snd (run self calls)).
Proof.
  induction calls as [|[now c] rest IH]; intros self Hin; simpl; [done|].
  pose proof (is_allowed_within_limits self now c Hin) as Hstep.
  destruct (is_allowed self now c) as [b s1]. simpl in Hstep.
  specialize (IH s1 Hstep). destruct (run s1 rest) as [bs s2]. done.
Qed.

(** X3. Whatever calls were made, at whatever clock readings, the
    limiter holds for no client more minute timestamps than the
    per-minute limit, nor more hour timestamps than the per-hour limit. *)
Theorem records_never_exceed_limits
    (L H : Z) (calls : list (Q * string)) (c : string) :
  let self := snd (run (init L H) calls) in
  len (minute_seq self c) <= Z.max 0 L /\
  len (hour_seq self c) <= Z.max 0 H.
Proof.
  intros self.
  assert (Hstart : within_limits (init L H)).
  { intros k. unfold minute_seq, hour_seq, len. simpl.
    rewrite !lookup_total_empty. simpl. lia. }
  pose proof (run_within_limits calls (init L H) Hstart c) as Hc.
  pose proof (run_limits calls (init L H)) as [HL HH]. simpl in HL, HH.
  fold self in Hc, HL, HH. rewrite HL, HH in Hc. exact Hc.
Qed.

(** ** One client's answers do not depend on the other clients *)

(** The calls of one client, and the answers given to them. *)
Definition own (c : string) (calls : list (Q * string)) : list (Q * string) :=
  List.filter (fun call => bool_decide (snd call = c)) calls.

Fixpoint own_answers (c : string) (calls : list (Q * string)) (answers : list bool)
    : list bool :=
  match calls, answers with
  | (_, k) :: calls', b :: answers' =>
      if bool_decide (k = c) then b :: own_answers c calls' answers'
      else own_answers c calls' answers'
  | _, _ => []
  end.

Lemma run_app calls1 : forall self calls2,
  run self (calls1 ++ calls2) =
  (fst (run self calls1) ++ fst (run (snd (run self calls1)) calls2),
   snd (run (snd (run self calls1)) calls2)).
Proof.
  induction calls1 as [|[t k] rest IH]; intros self calls2; simpl.
  - by destruct (run self calls2).
  - destruct (is_allowed self t k) as [b s1]. rewrite IH.
    destruct (run s1 rest) as [bs s2]. simpl.
    by destruct (run s2 calls2).
Qed.

Lemma run_length calls : forall self, length (fst (run self calls)) = length calls.
Proof.
  induction calls as [|[t k] rest IH]; intros self; simpl; [done|].
  destruct (is_allowed self t k) as [b s1]. specialize (IH s1).
  destruct (run s1 rest). simpl in *. by rewrite IH.
Qed.

Lemma own_answers_app c calls1 : forall answers1 calls2 answers2,
  length answers1 = length calls1 ->
  own_answers c (calls1 ++ calls2) (answers1 ++ answers2) =
  own_answers c calls1 answers1 ++ own_answers c calls2 answers2.
Proof.
  induction calls1 as [|[t k] rest IH]; intros [|b bs] calls2 answers2 Hlen;
    simpl in *; try done.
  rewrite IH by lia. by destruct (bool_decide (k = c)).
Qed.

Lemma admitted_own c calls : forall answers,
  admitted c calls answers = admitted c (own c calls) (own_answers c calls answers).
Proof.
  assert (Hnil : forall l, admitted c l [] = []) by (by intros [|[? ?] ?]).
  induction calls as [|[t k] rest IH]; intros [|b bs]; simpl; try done.
  case_bool_decide as Hk; simpl.
  - rewrite bool_decide_true by done. rewrite andb_true_r.
    destruct b; by rewrite IH.
  - rewrite andb_false_r. apply IH.
Qed.

Lemma in_order_lower ts : forall now t,
  in_order ts now -> (t <= first_time ts now)%Q ->
  Forall (fun u => (t <= u)%Q) ts /\ (t <= now)%Q.
Proof.
  induction ts as [|u ts IH]; intros now t Hord Hle; simpl in *; [done|].
  destruct Hord as [Hnext Hord].
  destruct (IH now u Hord) as [Hall Hnow].
  { by destruct ts. }
  split; [|lra]. constructor; [done|].
  eapply Forall_impl; [exact Hall|]. simpl. intros; lra.
Qed.

Lemma in_order_filter (f : Q * string -> bool) calls : forall now,
  in_order (map fst calls) now -> in_order (map fst (List.filter f calls)) now.
Proof.
  induction calls as [|[t k] rest IH]; intros now Hord; simpl in *; [done|].
  destruct Hord as [Hnext Hord]. specialize (IH now Hord).
  destruct (f (t, k)); [|done]. simpl. split; [|done].
  destruct (in_order_lower (map fst rest) now t Hord) as [Hall Hnow].
  { by destruct rest. }
  destruct (List.filter f rest) as [|[u k'] more] eqn:E; simpl; [done|].
  rewrite Forall_forall in Hall. apply Hall.
  apply list_elem_of_fmap. exists (u, k'). split; [done|].
  apply list_elem_of_In. eapply (proj1 (filter_In f (u, k') rest)).
  rewrite E. by left.
Qed.

Lemma in_order_snoc ts : forall t now,
  in_order (ts ++ [t]) now -> in_order ts t.
Proof.
  induction ts as [|u ts IH]; intros t now Hord; simpl in *; [done|].
  destruct Hord as [Hnext Hord]. split; [|by eapply IH].
  destruct ts; simpl in *; lra.
Qed.

(** The answer is read off the two pruned records and the limits. *)
Lemma is_allowed_answer self now c :
  fst (is_allowed self now c) =
  (len (minute_pruned self now c) <? requests_per_minute self) &&
  (len (hour_pruned self now c) <? requests_per_hour self).
Proof.
  destruct (Z.ltb_spec (len (minute_pruned self now c)) (requests_per_minute self)) as [Hm|Hm].
  - destruct (Z.ltb_spec (len (hour_pruned self now c)) (requests_per_hour self)) as [Hh|Hh].
    + by destruct (is_allowed_true self now c Hm Hh) as [-> _].
    + by destruct (is_allowed_false self now c (or_intror Hh)) as [-> _].
  - by destruct (is_allowed_false self now c (or_introl Hm)) as [-> _].
Qed.

Lemma own_answers_alone (L H : Z) (c : string) calls : forall now,
  in_order (map fst calls) now ->
  own_answers c calls (fst (run (init L H) calls)) =
  fst (run (init L H) (own c calls)).
Proof.
  induction calls as [|[t k] pre IH] using rev_ind; intros now Hord; [done|].
  rewrite map_app in Hord. simpl in Hord.
  pose proof (in_order_snoc _ _ _ Hord) as Hpre.
  specialize (IH t Hpre).
  rewrite run_app. simpl fst.
  rewrite own_answers_app by apply run_length.
  unfold own. rewrite List.filter_app. fold (own c pre). simpl.
  destruct (is_allowed (snd (run (init L H) pre)) t k) as [b s2] eqn:Eb. simpl.
  case_bool_decide as Hk; [subst k|by rewrite !app_nil_r].
  rewrite run_app. simpl fst.
  destruct (is_allowed (snd (run (init L H) (own c pre))) t c) as [b' s2'] eqn:Eb'.
  simpl. rewrite IH. f_equal. f_equal.
  assert (Ea : b = fst (is_allowed (snd (run (init L H) pre)) t c)) by by rewrite Eb.
  assert (Ea' : b' = fst (is_allowed (snd (run (init L H) (own c pre))) t c))
    by by rewrite Eb'.
  rewrite Ea, Ea', !is_allowed_answer.
  destruct (run_limits pre (init L H)) as [-> ->].
  destruct (run_limits (own c pre) (init L H)) as [-> ->].
  destruct (run_windows L H pre t c Hpre) as [-> ->].
  destruct (run_windows L H (own c pre) t c) as [-> ->].
  { by apply in_order_filter. }
  unfold in_minute_window, in_hour_window.
  by rewrite (admitted_own c pre), IH.
Qed.

(** X4. While the clock does not run backwards, the answers a client
    receives are the answers it would receive if no other client had
    made a call: the calls of the others neither use up its limits nor
    free them. *)
Theorem clients_do_not_interfere
    (L H : Z) (c : string) (calls : list (Q * string)) (now : Q) :
  in_order (map fst calls) now ->
  own_answers c calls (fst (run (init L H) calls)) =
    fst (run (init L H) (own c calls)) /\
  admitted c calls (fst (run (init L H) calls)) =
    admitted c (own c calls) (fst (run (init L H) (own c calls))).
Proof.
  intros Hord. pose proof (own_answers_alone L H c calls now Hord) as E.
  split; [exact E|]. by rewrite (admitted_own c calls), E.
Qed.

Lemma clients_do_not_interfere_witness :
  let calls := [(0%Q, "a"); (1%Q, "b"); (2%Q, "b"); (3%Q, "a"); (4%Q, "a")] in
  in_order (map fst calls) 5%Q /\
  own_answers "a" calls (fst (run (init 2 10) calls)) = [true; true; false].
Proof.
  split; [simpl; repeat split; lra|].
  rewrite (proj1 (clients_do_not_interfere 2 10 "a"
    [(0%Q, "a"); (1%Q, "b"); (2%Q, "b"); (3%Q, "a"); (4%Q, "a")] 5%Q
    ltac:(simpl; repeat split; lra))).
  by vm_compute.
Defined.

End RateLimiterMore.
(* ===================================================================== *)
(** * Further properties of sanitisation and content validation *)
(* ===================================================================== *)

Module StripFacts.
Import Py PyFacts.

(** [lstrip] on the characters of a string. *)
Fixpoint lstrip_chars (l : list ascii) : list ascii :=
  match l with
  | c :: l' => if isspace c then lstrip_chars l' else l
  | [] => []
  end.

(** A list that does not begin with white space. *)
Definition begins_clean (l : list ascii) : Prop :=
  match l with
  | [] => True
  | c :: _ => isspace c = false
  end.

Lemma chars_lstrip_eq s : chars (lstrip s) = lstrip_chars (chars s).
Proof.
  induction s as [|c s IH]; simpl; [done|]. by destruct (isspace c).
Qed.

Lemma chars_strip_eq s :
  chars (strip s) = rev (lstrip_chars (rev (lstrip_chars (chars s)))).
Proof.
  unfold strip, rstrip. by rewrite chars_rev, chars_lstrip_eq, chars_rev, chars_lstrip_eq.
Qed.

Lemma chars_inj s1 s2 : chars s1 = chars s2 -> s1 = s2.
Proof.
  intros E. rewrite <- (string_of_list_ascii_of_string s1),
    <- (string_of_list_ascii_of_string s2). by rewrite E.
Qed.

Lemma lstrip_chars_clean l : begins_clean (lstrip_chars l).
Proof.
  induction l as [|c l IH]; simpl; [done|].
  destruct (isspace c) eqn:E; [done|]. simpl. done.
Qed.

Lemma lstrip_chars_id l : begins_clean l -> lstrip_chars l = l.
Proof. destruct l as [|c l]; simpl; [done|]. by intros ->. Qed.

Lemma lstrip_chars_last l h :
  isspace h = false -> exists z, lstrip_chars (l ++ [h]) = z ++ [h].
Proof.
  intros Hh. induction l as [|c l [z IH]]; simpl.
  - rewrite Hh. by exists [].
  - destruct (isspace c); [by exists z|]. by exists (c :: l).
Qed.

(** Stripping the right end of a list that begins clean leaves a list
    that begins clean. *)
Lemma rstrip_chars_clean l :
  begins_clean l -> begins_clean (rev (lstrip_chars (rev l))).
Proof.
  destruct l as [|h l]; simpl; [done|]. intros Hh.
  destruct (lstrip_chars_last (rev l) h Hh) as [z ->].
  rewrite rev_app_distr. simpl. done.
Qed.

(** [strip] changes nothing in a string it has stripped. *)
Lemma strip_strip s : strip (strip s) = strip s.
Proof.
  apply chars_inj. rewrite (chars_strip_eq (strip s)), chars_strip_eq.
  set (y := lstrip_chars (chars s)).
  rewrite (lstrip_chars_id (rev (lstrip_chars (rev y)))).
  - rewrite rev_involutive.
    by rewrite (lstrip_chars_id (lstrip_chars (rev y))) by apply lstrip_chars_clean.
  - apply rstrip_chars_clean, lstrip_chars_clean.
Qed.

(** A text without an occurrence is left as it is by [replace]. *)
Lemma replace_absent old s :
  old <> "" -> contains old s = false -> replace s old "" = s.
Proof.
  intros Hne. destruct old as [|o old']; [done|]. simpl. clear Hne.
  induction s as [|c s IH]; [done|].
  rewrite SearchFacts.contains_cons, replace_from_cons.
  intros [Hp Hc]%orb_false_iff. rewrite Hp. by rewrite IH.
Qed.

End StripFacts.

Module SecurityMore.
Import Py PyFacts StripFacts Security SecurityFacts.

(** X5. What [sanitize_input] returns has at most 10,000 characters,
    holds none of the characters [<], [>], [&], the double quote and
    the apostrophe, and is made of characters of the text alone: the
    function takes characters away and adds none. *)
Theorem sanitize_input_bounds (text : string) :
  let out := sanitize_input (Some text) in
  len out <= 10000 /\
  (forall c, c ∈ dangerous_single -> contains (String c "") out = false) /\
  chars out ⊆+ chars text.
Proof.
  intros out. split; [apply sanitize_input_length|].
  split; [intros c; apply sanitize_input_no_single|].
  unfold out, sanitize_input. destruct text as [|c0 s0]; [done|].
  set (r := remove_dangerous (String c0 s0)).
  assert (Hr : chars r ⊆+ chars (String c0 s0)).
  { apply chars_remove_dangerous_from. unfold dangerous_chars.
    repeat constructor; done. }
  etrans; [apply chars_strip|].
  destruct (len r >? 10000); [|done].
  etrans; [apply chars_slice|done].
Qed.

(** X6. What [sanitize_input] returns neither begins nor ends with white
    space: stripping it again changes nothing. The same holds of a
    missing text, for which it returns the empty string. *)
Theorem sanitize_input_stripped (text : option string) :
  strip (sanitize_input text) = sanitize_input text /\
  sanitize_input None = "".
Proof.
  split; [|done]. unfold sanitize_input.
  destruct text as [[|c s]|]; try done. apply strip_strip.
Qed.

(** X7. A text that holds no entry of the denylist, has at most 10,000
    characters and neither begins nor ends with white space is returned
    as it is. *)
Theorem sanitize_input_clean_text (text : string) :
  Forall (fun d => contains d text = false) dangerous_chars ->
  len text <= 10000 ->
  strip text = text ->
  sanitize_input (Some text) = text.
Proof.
  intros Hclean Hlen Hstrip. unfold sanitize_input.
  destruct text as [|c s]; [done|].
  assert (Hr : remove_dangerous (String c s) = String c s).
  { unfold remove_dangerous, dangerous_chars in *.
    repeat match goal with
           | H : Forall _ (_ :: _) |- _ => apply Forall_cons in H as [? H]
           end.
    cbn beta in *. cbn [fold_left].
    repeat match goal with
           | E : contains ?d (String c s) = false |- _ =>
               rewrite (replace_absent d (String c s)) by done; clear E
           end.
    done. }
  rewrite Hr. destruct (Z.gtb_spec (len (String c s)) 10000); [lia|done].
Qed.

Lemma sanitize_input_clean_text_witness :
  sanitize_input (Some "This agreement sets out the terms.") =
  "This agreement sets out the terms.".
Proof.
  apply sanitize_input_clean_text.
  - unfold dangerous_chars. repeat constructor.
  - by vm_compute.
  - by vm_compute.
Defined.

End SecurityMore.
(* ===================================================================== *)
(** * Further properties of the document service *)
(* ===================================================================== *)

Module DocumentMore.
Import Py PyFacts StripFacts DocumentService.

(** The characters of a text that are not white space, in their order. *)
Definition solid (l : list ascii) : list ascii :=
  List.filter (fun c => negb (isspace c)) l.

(** The two white-space characters [sanitize_text] writes. *)
Definition blank (c : ascii) : bool := Ascii.eqb c " " || Ascii.eqb c newline.

(** A text in which every white-space character is a space or a newline
    and stands between two characters that are not white space: none at
    either end, no two in a row. [after_blank] tells that the character
    before was white space, or that the text starts here. *)
Fixpoint spaced (after_blank : bool) (l : list ascii) : bool :=
  match l with
  | [] => negb after_blank
  | c :: l' =>
      if isspace c then negb after_blank && blank c && spaced true l'
      else spaced false l'
  end.

Definition no_space (s : string) : Prop := Forall (fun c => isspace c = false) (chars s).

Lemma no_space_empty : no_space "".
Proof. constructor. Qed.

Lemma rev_nonempty s : s <> "" -> String.rev s <> "".
Proof.
  intros Hne E. apply Hne, chars_inj. apply (f_equal chars) in E.
  rewrite chars_rev in E. simpl in E.
  apply (f_equal (@rev ascii)) in E. by rewrite rev_involutive in E.
Qed.

Lemma no_space_rev s : no_space s -> no_space (String.rev s).
Proof. unfold no_space. rewrite chars_rev. apply Forall_rev. Qed.

(** The words of [split()] are not empty and hold no white space. *)
Lemma words_from_words s : forall cur,
  no_space cur -> Forall (fun w => w <> "" /\ no_space w) (words_from cur s).
Proof.
  induction s as [|c s IH]; intros cur Hcur; simpl.
  - destruct cur as [|c0 cur0]; [done|].
    constructor; [|done]. split; [by apply rev_nonempty|by apply no_space_rev].
  - destruct (isspace c) eqn:Ec.
    + destruct cur as [|c0 cur0]; [apply IH, no_space_empty|].
      constructor; [|apply IH, no_space_empty].
      split; [by apply rev_nonempty|by apply no_space_rev].
    + apply IH. by constructor.
Qed.

Lemma solid_no_space s : no_space s -> solid (chars s) = chars s.
Proof.
  unfold no_space. induction (chars s) as [|c l IH]; [done|].
  intros [Hc Hl]%Forall_cons. simpl. rewrite Hc. simpl. by rewrite IH.
Qed.

Lemma solid_app l1 l2 : solid (l1 ++ l2) = solid l1 ++ solid l2.
Proof. apply List.filter_app. Qed.

(** [split()] keeps the characters that are not white space. *)
Lemma words_from_solid s : forall cur,
  no_space cur ->
  concat (map chars (words_from cur s)) = rev (chars cur) ++ solid (chars s).
Proof.
  induction s as [|c s IH]; intros cur Hcur; simpl.
  - destruct cur as [|c0 cur0]; [done|]. simpl concat.
    by rewrite chars_rev, !app_nil_r.
  - destruct (isspace c) eqn:Ec; simpl.
    + destruct cur as [|c0 cur0]; [by rewrite IH by apply no_space_empty|].
      simpl concat. rewrite chars_rev, (IH "") by apply no_space_empty. done.
    + rewrite IH by (by constructor). simpl. by rewrite <- app_assoc.
Qed.

Lemma spaced_no_space l p :
  l <> [] -> Forall (fun c => isspace c = false) l -> spaced p l = true.
Proof.
  revert p. induction l as [|c l IH]; intros p Hne Hl; [done|].
  apply Forall_cons in Hl as [Hc Hl]. simpl. rewrite Hc.
  destruct l as [|c' l']; [done|]. by apply IH.
Qed.

Lemma spaced_app l1 l2 : forall p,
  l1 <> [] -> spaced p l1 = true -> spaced p (l1 ++ l2) = spaced false l2.
Proof.
  induction l1 as [|c l1 IH]; intros p Hne Hs; [done|].
  simpl in *. destruct (isspace c) eqn:Ec.
  - apply andb_true_iff in Hs as [Hs1 Hs2]. rewrite Hs1. simpl.
    destruct l1 as [|c' l1']; [done|]. by apply IH.
  - destruct l1 as [|c' l1']; [done|]. by apply IH.
Qed.

Lemma chars_nonempty s : s <> "" -> chars s <> [].
Proof. by destruct s. Qed.

(** Joining texts of this form with a space or a newline gives a text
    of this form. *)
Lemma join_spaced sep l :
  isspace sep = true -> blank sep = true -> l <> [] ->
  Forall (fun x => x <> "" /\ spaced true (chars x) = true) l ->
  join (String sep "") l <> "" /\
  spaced true (chars (join (String sep "") l)) = true.
Proof.
  intros Hsep Hblank. induction l as [|x l IH]; intros Hne Hl; [done|].
  apply Forall_cons in Hl as [[Hx Hsx] Hl].
  destruct l as [|y rest]; [done|].
  destruct (IH ltac:(done) Hl) as [IH1 IH2].
  change (join (String sep "") (x :: y :: rest))
    with (x +:+ String sep "" +:+ join (String sep "") (y :: rest)).
  split; [by destruct x|].
  rewrite chars_app, spaced_app by (done || by apply chars_nonempty).
  rewrite chars_app. simpl. by rewrite Hsep, Hblank.
Qed.

Lemma join_solid sep l :
  isspace sep = true ->
  solid (chars (join (String sep "") l)) = concat (map (fun x => solid (chars x)) l).
Proof.
  intros Hsep. induction l as [|x l IH]; [done|].
  destruct l as [|y rest]; [simpl; by rewrite app_nil_r|].
  change (join (String sep "") (x :: y :: rest))
    with (x +:+ String sep "" +:+ join (String sep "") (y :: rest)).
  rewrite chars_app, solid_app, chars_app, solid_app, IH. simpl. by rewrite Hsep.
Qed.

(** A line as [sanitize_text] cleans it. *)
Definition cleaned_line (line : string) : string := join " " (split_ws line).

Lemma cleaned_line_spaced line :
  cleaned_line line = "" \/
  (cleaned_line line <> "" /\ spaced true (chars (cleaned_line line)) = true).
Proof.
  unfold cleaned_line, split_ws.
  pose proof (words_from_words line "" no_space_empty) as Hw.
  destruct (words_from "" line) as [|w ws] eqn:E; [by left|]. right.
  apply (join_spaced " "); try done.
  eapply Forall_impl; [exact Hw|]. intros x [Hx Hn]. split; [done|].
  apply spaced_no_space; [by apply chars_nonempty|done].
Qed.

Lemma cleaned_line_solid line : solid (chars (cleaned_line line)) = solid (chars line).
Proof.
  unfold cleaned_line, split_ws. rewrite (join_solid " ") by done.
  pose proof (words_from_words line "" no_space_empty) as Hw.
  rewrite <- (app_nil_l (solid (chars line))).
  change (@nil ascii) with (rev (chars "")) at 1.
  rewrite <- words_from_solid by apply no_space_empty.
  induction Hw as [|w ws [_ Hn] _ IH]; [done|].
  simpl. by rewrite IH, solid_no_space.
Qed.

(** The lines of [split('\n')] hold the characters of the text that are
    not white space. *)
Lemma split_on_solid s :
  concat (map (fun x => solid (chars x)) (split_on newline s)) = solid (chars s).
Proof.
  induction s as [|c s IH]; [done|]. simpl split_on.
  destruct (Ascii.eqb_spec c newline) as [->|Hc].
  - simpl. by rewrite IH.
  - destruct (split_on newline s) as [|piece more]; simpl in *.
    + rewrite <- IH. by rewrite app_nil_r.
    + rewrite <- IH. destruct (isspace c); simpl; done.
Qed.

(** The lines [sanitize_text] keeps. *)
Definition cleaned_lines (text : string) : list string :=
  List.filter (fun cleaned_line => negb (String.eqb cleaned_line ""))
    (map (fun line => join " " (split_ws line)) (split_on newline text)).

Lemma cleaned_lines_spaced text :
  Forall (fun x => x <> "" /\ spaced true (chars x) = true) (cleaned_lines text).
Proof.
  unfold cleaned_lines. induction (split_on newline text) as [|line lines IH]; [done|].
  simpl. destruct (String.eqb_spec (join " " (split_ws line)) "") as [E|Hne]; [done|].
  simpl. constructor; [|done].
  destruct (cleaned_line_spaced line) as [E|Hs]; [done|done].
Qed.

Lemma cleaned_lines_solid text :
  concat (map (fun x => solid (chars x)) (cleaned_lines text)) = solid (chars text).
Proof.
  rewrite <- split_on_solid. unfold cleaned_lines.
  induction (split_on newline text) as [|line lines IH]; [done|].
  simpl. destruct (String.eqb_spec (join " " (split_ws line)) "") as [E|Hne]; simpl.
  - rewrite IH, <- (cleaned_line_solid line). unfold cleaned_line. by rewrite E.
  - rewrite IH, <- (cleaned_line_solid line). done.
Qed.

Lemma prefix_cons a p c s :
  String.prefix (String a p) (String c s) = true -> a = c /\ String.prefix p s = true.
Proof. simpl. by destruct (ascii_dec a c). Qed.

(** A text of this form holds no run of three newlines. *)
Lemma spaced_no_run s : forall p,
  spaced p (chars s) = true ->
  contains (String newline (String newline (String newline ""))) s = false.
Proof.
  induction s as [|c s IH]; intros p Hs; [done|].
  rewrite SearchFacts.contains_cons. apply orb_false_iff.
  simpl in Hs. split.
  - destruct (String.prefix _ _) eqn:E; [exfalso|done].
    apply prefix_cons in E as [<- E].
    destruct s as [|c2 s2]; [done|]. apply prefix_cons in E as [<- _].
    change (isspace newline) with true in Hs. cbn iota in Hs.
    apply andb_true_iff in Hs as [_ Hs]. simpl in Hs.
    by change (isspace newline) with true in Hs.
  - destruct (isspace c).
    + apply andb_true_iff in Hs as [_ Hs]. by apply (IH true).
    + by apply (IH false).
Qed.

Lemma collapse_newlines_spaced s fuel :
  spaced true (chars s) = true -> collapse_newlines fuel s = s.
Proof.
  intros Hs. destruct fuel as [|fuel]; [done|]. simpl.
  change (String newline "" +:+ String newline "" +:+ String newline "")
    with (String newline (String newline (String newline ""))).
  by rewrite (spaced_no_run s true Hs).
Qed.

Lemma spaced_begins l : spaced true l = true -> begins_clean l.
Proof.
  destruct l as [|c l]; [done|]. simpl. by destruct (isspace c).
Qed.

Lemma spaced_last l c : forall p, spaced p (l ++ [c]) = true -> isspace c = false.
Proof.
  induction l as [|x l IH]; intros p; simpl.
  - destruct (isspace c); [|done]. by rewrite andb_false_r.
  - destruct (isspace x); [|apply IH].
    intros [_ Hs]%andb_true_iff. by apply IH in Hs.
Qed.

Lemma spaced_ends l : spaced true l = true -> begins_clean (rev l).
Proof.
  intros Hs. destruct (rev l) as [|c r] eqn:E; [done|]. simpl.
  apply (f_equal (@rev ascii)) in E. rewrite rev_involutive in E. subst l.
  simpl in Hs. by apply spaced_last in Hs.
Qed.

Lemma strip_spaced s : spaced true (chars s) = true -> strip s = s.
Proof.
  intros Hs. apply chars_inj. rewrite chars_strip_eq.
  rewrite (lstrip_chars_id (chars s)) by (by apply spaced_begins).
  rewrite lstrip_chars_id by (by apply spaced_ends). apply rev_involutive.
Qed.

(** The loop over runs of newlines never runs and the last [strip]
    takes nothing away: what [sanitize_text] returns is the cleaned
    lines joined by newlines. *)
Lemma sanitize_text_joined text :
  sanitize_text text = join (String newline "") (cleaned_lines text).
Proof.
  destruct text as [|c0 s0]; [done|].
  unfold sanitize_text. fold (cleaned_lines (String c0 s0)).
  pose proof (cleaned_lines_spaced (String c0 s0)) as Hl.
  destruct (cleaned_lines (String c0 s0)) as [|x l] eqn:E; [done|].
  destruct (join_spaced newline (x :: l) eq_refl eq_refl ltac:(done) Hl) as [_ Hs].
  cbv zeta. rewrite collapse_newlines_spaced by done. by apply strip_spaced.
Qed.

(** X8. What [sanitize_text] returns is empty or has white space only
    as single spaces and single newlines between characters that are not
    white space: no tab or other white-space character, no white space
    at either end, no two white-space characters in a row (so no blank
    line and no double space). *)
Theorem sanitize_text_normal_form (text : string) :
  sanitize_text text = "" \/ spaced true (chars (sanitize_text text)) = true.
Proof.
  rewrite sanitize_text_joined.
  pose proof (cleaned_lines_spaced text) as Hl.
  destruct (cleaned_lines text) as [|x l] eqn:E; [by left|]. right.
  by apply (join_spaced newline (x :: l)).
Qed.

(** X9. [sanitize_text] changes white space only: the characters that
    are not white space are those of the text, in the same order. *)
Theorem sanitize_text_keeps_content (text : string) :
  solid (chars (sanitize_text text)) = solid (chars text).
Proof.
  rewrite sanitize_text_joined, (join_solid newline) by done.
  apply cleaned_lines_solid.
Qed.

(** ** Content validation *)

Lemma NoDup_document_indicators : NoDup document_indicators.
Proof. apply (bool_decide_eq_true_1 (NoDup document_indicators)). by vm_compute. Qed.

Lemma filter_elem {A} (f : A -> bool) (l : list A) x :
  x ∈ List.filter f l <-> x ∈ l /\ f x = true.
Proof. rewrite !list_elem_of_In. apply List.filter_In. Qed.

Lemma NoDup_filter_bool {A} (f : A -> bool) (l : list A) :
  NoDup l -> NoDup (List.filter f l).
Proof.
  induction 1 as [|x l Hx Hl IH]; simpl; [constructor|].
  destruct (f x); [|done]. constructor; [|done].
  rewrite filter_elem. tauto.
Qed.

(** X11. [validate_document_content] accepts a text exactly when its
    stripped form has at least 50 characters and two different
    indicators of the list occur in its lower-case form. *)
Theorem validate_document_content_accepts (text : string) :
  validate_document_content text = true <->
  50 <= len (strip text) /\
  exists a b, a ∈ document_indicators /\ b ∈ document_indicators /\ a <> b /\
              contains a (lower text) = true /\ contains b (lower text) = true.
Proof.
  unfold validate_document_content, indicator_count.
  set (found := List.filter (fun indicator => contains indicator (lower text))
                  document_indicators).
  assert (Hnd : NoDup found) by apply NoDup_filter_bool, NoDup_document_indicators.
  assert (Hlong : 50 <= len (strip text) ->
                  String.eqb text "" || String.eqb (strip text) "" = false).
  { intros Hl. destruct text as [|c s]; [by vm_compute in Hl|].
    destruct (strip (String c s)); [by vm_compute in Hl|done]. }
  split.
  - destruct (String.eqb text "" || String.eqb (strip text) ""); [done|].
    destruct (Z.ltb_spec (len (strip text)) 50); [done|].
    intros Hc%Z.geb_le. split; [done|].
    destruct found as [|a [|b rest]] eqn:E; simpl in Hc; try lia.
    assert (Ha : a ∈ found) by (rewrite E; set_solver).
    assert (Hb : b ∈ found) by (rewrite E; set_solver).
    apply filter_elem in Ha as [Ha1 Ha2]. apply filter_elem in Hb as [Hb1 Hb2].
    exists a, b. repeat split; try done.
    intros Hab. apply NoDup_cons in Hnd as [Hnd _]. apply Hnd.
    rewrite Hab. constructor.
  - intros (Hl & a & b & Ha & Hb & Hab & Hca & Hcb).
    rewrite (Hlong Hl). destruct (Z.ltb_spec (len (strip text)) 50); [lia|].
    apply Z.geb_le.
    assert (Hsub : [a; b] ⊆+ found).
    { apply NoDup_submseteq.
      - constructor; [|constructor; [by intros ?%elem_of_nil|constructor]].
        intros Hin%list_elem_of_In. simpl in Hin. by destruct Hin as [?|[]].
      - intros x Hx. apply filter_elem.
        apply list_elem_of_In in Hx. simpl in Hx.
        destruct Hx as [E|[E|[]]]; rewrite <- E; done. }
    apply submseteq_length in Hsub. simpl in Hsub. lia.
Qed.

(** ** Reading an upload *)

(** X12. [process_document] answers 413 exactly when the upload states
    a size that is not 0 and is above the limit, whatever its type is;
    an upload that states no size, or size 0, is never refused for its
    size, however long its content is. When it returns, the type is a
    supported one, the text is what the extractor of the type returned
    and the hash is the SHA-256 digest of the bytes of the file. *)
Theorem process_document_outcomes `{Hashlib} `{TextExtractor}
    (file : UploadFile) (max_size : Z) :
  ((exists e, process_document file max_size = Abort e /\ status_code e = 413) <->
   (exists n, size file = Some n /\ n <> 0 /\ max_size < n)) /\
  (forall text hash, process_document file max_size = Respond (text, hash) ->
     content_type file ∈ supported_formats /\
     extract_text (content_type file) (content file) = Returns text /\
     hash = sha256_hexdigest (content file)).
Proof.
  unfold process_document. split.
  - split.
    + intros (e & He & Hs).
      destruct (size file) as [n|]; simpl in He.
      * destruct (Z.eqb_spec n 0), (Z.gtb_spec n max_size); simpl in He;
          try (exists n; split; [done|split; [done|lia]]);
          (destruct (negb _); [injection He as <-; done|];
           destruct (extract_text _ _); [done|injection He as <-; done]).
      * destruct (negb _); [injection He as <-; done|].
        destruct (extract_text _ _); [done|injection He as <-; done].
    + intros (n & -> & Hn & Hmax).
      destruct (Z.eqb_spec n 0); [done|]. destruct (Z.gtb_spec n max_size); [|lia].
      simpl. eexists. split; [done|done].
  - intros text hash.
    destruct (match size file with Some n => _ | None => _ end); [done|].
    destruct (existsb _ _) eqn:Ex; simpl; [|done].
    destruct (extract_text _ _) as [t|e]; [|done].
    intros [= <- <-]. split; [|done].
    apply existsb_exists in Ex as (x & Hx & ->%String.eqb_eq).
    by apply list_elem_of_In.
Qed.

End DocumentMore.
(* ===================================================================== *)
(** * Further properties of the cache *)
(* ===================================================================== *)

Module CacheMore.
Import CacheManager CacheMethods CacheFacts.

(** What the server holds under a key of any name, connected or not. *)
Definition held (self : t) (k : string) : option Redis.entry :=
  match redis_client self with
  | Some d => d !! k
  | None => None
  end.

(** The number of keys of the cache that are live. *)
Definition size (now : Z) (d : Redis.db) : Z :=
  Z.of_nat (length (Redis.keys now d "clyrdia:")).

Lemma live_earlier now later e :
  now <= later -> Redis.live later e = true -> Redis.live now e = true.
Proof.
  unfold Redis.live. destruct (Redis.expires_at e) as [t|]; [|done].
  intros Hle Hl%Z.leb_le. apply Z.leb_le. lia.
Qed.

Lemma keys_later now later d prefix :
  now <= later ->
  (length (Redis.keys later d prefix) <= length (Redis.keys now d prefix))%nat.
Proof.
  intros Hle. apply submseteq_length, NoDup_submseteq; [apply NoDup_keys|].
  intros k (e & Hk & Hp & Hl)%elem_of_keys. apply elem_of_keys.
  exists e. split; [done|]. split; [done|]. by apply (live_earlier now later).
Qed.

Lemma keys_insert now d prefix k e :
  (length (Redis.keys now (<[k:=e]> d) prefix) <= S (length (Redis.keys now d prefix)))%nat.
Proof.
  change (S (length (Redis.keys now d prefix)))
    with (length (k :: Redis.keys now d prefix)).
  apply submseteq_length, NoDup_submseteq; [apply NoDup_keys|].
  intros k' (e' & Hk & Hp & Hl)%elem_of_keys.
  destruct (decide (k' = k)) as [->|Hne]; [by left|]. right.
  rewrite lookup_insert_ne in Hk by done. apply elem_of_keys. eauto.
Qed.

Lemma keys_deleted now d prefix ks :
  NoDup ks -> (forall k, k ∈ ks -> k ∈ Redis.keys now d prefix) ->
  (length (Redis.keys now (fold_left Redis.del ks d) prefix) + length ks
   <= length (Redis.keys now d prefix))%nat.
Proof.
  intros Hnd Hin. rewrite <- length_app.
  apply submseteq_length, NoDup_submseteq.
  - apply NoDup_app. split; [apply NoDup_keys|]. split; [|done].
    intros k (e & Hk & _)%elem_of_keys Hks.
    rewrite lookup_fold_del in Hk. by rewrite decide_True in Hk.
  - intros k [(e & Hk & Hp & Hl)%elem_of_keys|Hk]%elem_of_app; [|by apply Hin].
    rewrite lookup_fold_del in Hk. destruct (decide (k ∈ ks)); [done|].
    apply elem_of_keys. eauto.
Qed.

Lemma filter_all {A} (f : A -> bool) l :
  Forall (fun x => f x = true) l -> List.filter f l = l.
Proof.
  induction 1 as [|x l Hx _ IH]; simpl; [done|]. by rewrite Hx, IH.
Qed.

Lemma prefix_app p s : String.prefix p (p +:+ s) = true.
Proof.
  induction p as [|a p IH]; simpl; [by destruct s|].
  by destruct (ascii_dec a a).
Qed.

Section More.
Context `{Json} `{Hashlib}.

Lemma generate_key_prefix key : String.prefix "clyrdia:" (_generate_key key) = true.
Proof. apply prefix_app. Qed.

Lemma foreign_key k key : String.prefix "clyrdia:" k = false -> k <> _generate_key key.
Proof. intros Hk ->. by rewrite generate_key_prefix in Hk. Qed.

Lemma foreign_not_listed now d k ks :
  String.prefix "clyrdia:" k = false ->
  (forall x, x ∈ ks -> x ∈ Redis.keys now d "clyrdia:") ->
  fold_left Redis.del ks d !! k = d !! k.
Proof.
  intros Hk Hks. rewrite lookup_fold_del.
  destruct (decide (k ∈ ks)) as [Hin|]; [|done].
  apply Hks, elem_of_keys in Hin as (e & _ & Hp & _). congruence.
Qed.

(** X13. No method of the cache touches a key of the server whose name
    does not begin with [clyrdia:]: after [set] (eviction included),
    [delete], [expire] and [clear_all] the server holds under such a key
    what it held before. *)
Theorem foreign_keys_untouched (self : t) (now : Z) (key : string)
    (value : pyval) (ttl : option Z) (seconds : Z) (k : string) :
  String.prefix "clyrdia:" k = false ->
  held (snd (set self now key value ttl)) k = held self k /\
  held (snd (delete self now key)) k = held self k /\
  held (snd (expire self now key seconds)) k = held self k /\
  held (snd (clear_all self now)) k = held self k.
Proof.
  intros Hk. pose proof (foreign_key k key Hk) as Hne.
  unfold held, set, delete, expire, clear_all.
  destruct (redis_client self) as [d|] eqn:Hc; simpl; [|by rewrite Hc].
  split; [|split; [|split]].
  - assert (Hd1 : (if _check_size_limit self now d then _evict_oldest now d else d) !! k
                  = d !! k).
    { destruct (_check_size_limit self now d); [|done].
      rewrite evict_oldest_eq. apply (foreign_not_listed now); [done|].
      intros x Hx. by apply evicted_candidate in Hx as [Hx _]. }
    unfold Redis.setex.
    destruct (_ && _); simpl; [|done]. by rewrite lookup_insert_ne.
  - unfold Redis.del. by rewrite lookup_delete_ne.
  - unfold RedisCommands.expire.
    destruct (_ || _); simpl; [by rewrite Hc|].
    destruct (Redis.lookup now d (_generate_key key)) as [e|]; simpl; [|done].
    destruct (seconds <=? 0); unfold Redis.del.
    + by rewrite lookup_delete_ne.
    + by rewrite lookup_insert_ne.
  - destruct (Redis.keys now d "clyrdia:") as [|x ks] eqn:E; simpl; [by rewrite Hc|].
    change (fold_left Redis.del ks (Redis.del d x))
      with (fold_left Redis.del (x :: ks) d).
    apply (foreign_not_listed now); [done|]. intros y Hy. by rewrite E.
Qed.

Lemma get_absent self d later key :
  redis_client self = Some d -> Redis.lookup later d (_generate_key key) = None ->
  get self later key = None /\ exists_ self later key = false.
Proof.
  intros Hc Hl. unfold get, exists_, Redis.get, RedisCommands.exists_.
  by rewrite Hc, Hl.
Qed.

(** X14. [delete] answers whether the key was there, as [exists] would
    answer at the same instant. Afterwards the key is gone: [get] gives
    nothing and [exists] says no, at any instant; and every other key,
    whose name on the server is another, is read as before. *)
Theorem delete_removes (self : t) (now : Z) (key : string) :
  let r := delete self now key in
  fst r = exists_ self now key /\
  (forall later, get (snd r) later key = None /\ exists_ (snd r) later key = false) /\
  (forall later key', _generate_key key' <> _generate_key key ->
     get (snd r) later key' = get self later key' /\
     exists_ (snd r) later key' = exists_ self later key').
Proof.
  unfold delete, exists_, get. destruct (redis_client self) as [d|] eqn:Hc; simpl.
  - split; [done|]. split.
    + intros later. unfold Redis.get, RedisCommands.exists_, Redis.lookup, Redis.del.
      by rewrite lookup_delete_eq.
    + intros later key' Hne.
      unfold Redis.get, RedisCommands.exists_, Redis.lookup, Redis.del.
      by rewrite lookup_delete_ne.
  - rewrite Hc. done.
Qed.

Lemma clear_all_client self d now :
  redis_client self = Some d ->
  redis_client (snd (clear_all self now)) =
    Some (fold_left Redis.del (Redis.keys now d "clyrdia:") d).
Proof.
  intros Hc. unfold clear_all. rewrite Hc.
  by destruct (Redis.keys now d "clyrdia:").
Qed.

(** X15. [clear_all] answers [True] on a connected cache and [False]
    otherwise. From the instant it runs, no key of the cache is left:
    [get] gives nothing and [exists] says no for every key. *)
Theorem clear_all_empties (self : t) (now later : Z) (key : string) :
  now <= later ->
  let r := clear_all self now in
  fst r = bool_decide (is_Some (redis_client self)) /\
  get (snd r) later key = None /\
  exists_ (snd r) later key = false.
Proof.
  intros Hle r. destruct (redis_client self) as [d|] eqn:Hc.
  - split.
    { unfold r, clear_all. rewrite Hc. by destruct (Redis.keys now d "clyrdia:"). }
    apply (get_absent _ _ later key (clear_all_client self d now Hc)).
    unfold Redis.lookup. rewrite lookup_fold_del.
    destruct (decide (_ ∈ _)) as [|Hout]; [done|].
    destruct (d !! _generate_key key) as [e|] eqn:Hk; [|done].
    destruct (Redis.live later e) eqn:Hl; [|done].
    exfalso. apply Hout, elem_of_keys. exists e.
    split; [done|]. split; [apply generate_key_prefix|].
    by apply (live_earlier now later).
  - unfold r, clear_all, get, exists_. rewrite Hc. simpl. by rewrite Hc.
Qed.

(** X16. A cache that holds at most [max(max_size, 1)] live keys still
    does after a [set], at the instant of the call and later, provided
    it is below capacity, or empty, or at least one of its entries is a
    candidate of the eviction (a live entry whose reported time to live
    is positive): at capacity the eviction then makes room for the key
    that is written. *)
Theorem set_keeps_size_bound (self : t) (d : Redis.db) (now later : Z)
    (key : string) (value : pyval) (ttl : option Z) :
  redis_client self = Some d ->
  size now d <= Z.max (max_size self) 1 ->
  size now d < max_size self \/ size now d = 0 \/ candidates now d <> [] ->
  now <= later ->
  exists d',
    redis_client (snd (set self now key value ttl)) = Some d' /\
    max_size (snd (set self now key value ttl)) = max_size self /\
    size later d' <= Z.max (max_size self) 1.
Proof.
  intros Hc Hsize Hcase Hle. unfold set. rewrite Hc.
  set (d1 := if _check_size_limit self now d then _evict_oldest now d else d).
  assert (Hroom : size now d1 + 1 <= Z.max (max_size self) 1).
  { unfold d1, _check_size_limit. fold (size now d).
    destruct (Z.geb_spec (size now d) (max_size self)) as [Hfull|Hfree]; [|lia].
    destruct Hcase as [Hlt|[Hz|Hcand]]; [lia| |].
    - unfold _evict_oldest. unfold size in Hz.
      destruct (Redis.keys now d "clyrdia:") eqn:E; [|simpl in Hz; lia].
      unfold size. rewrite E. simpl. lia.
    - rewrite evict_oldest_eq.
      pose proof (keys_deleted now d "clyrdia:" (evicted now d) (NoDup_evicted now d))
        as Hdel.
      assert (Hone : 1 <= Z.of_nat (length (evicted now d))).
      { pose proof (evicted_length now d) as Hn. cbv zeta in Hn. rewrite Hn.
        assert (Hpos : 1 <= Z.of_nat (length (key_ttls now d))).
        { rewrite <- (length_map fst), key_ttls_candidates.
          destruct (candidates now d); [done|simpl; lia]. }
        destruct (Z.eqb_spec (Z.of_nat (length (key_ttls now d))) 0); lia. }
      unfold size in *.
      assert (Hin : forall k, k ∈ evicted now d -> k ∈ Redis.keys now d "clyrdia:").
      { intros k Hk. by apply evicted_candidate in Hk as [Hk _]. }
      specialize (Hdel Hin). lia. }
  unfold Redis.setex. destruct (_ && _); simpl.
  - eexists. split; [done|]. split; [done|].
    pose proof (keys_later now later
      (<[_generate_key key :=
           Redis.mk_entry (json_dumps value)
             (Some (now + 1000 * effective_ttl self ttl))]> d1)
      "clyrdia:" Hle) as Hl.
    pose proof (keys_insert now d1 "clyrdia:" (_generate_key key)
      (Redis.mk_entry (json_dumps value)
         (Some (now + 1000 * effective_ttl self ttl)))) as Hi.
    unfold size in *. lia.
  - exists d1. split; [done|]. split; [done|].
    pose proof (keys_later now later d1 "clyrdia:" Hle). unfold size in *. lia.
Qed.

(** X17. What [get_cached_or_fetch] has fetched and stored it serves
    from the cache on the next call until the time to live has passed,
    without calling [fetch_func] again; what it serves then is the value
    [json.loads] reads from the text stored, not the value fetched. The
    time to live is one the server takes; the clock counts
    milliseconds. *)
Theorem fetch_once_then_cached (cache : t) (d : Redis.db) (now1 now2 set1 : Z)
    (key : string) (fresh : pyval) (back : json) (ttl : option Z)
    (again : outcome pyval) (set2 : Z) :
  redis_client cache = Some d ->
  get cache now1 key = None ->
  fresh <> PyNone ->
  json_dumps fresh <> "" -> json_loads (json_dumps fresh) = Decoded back ->
  back <> JNull ->
  0 < effective_ttl cache ttl ->
  Redis.in_range set1 (effective_ttl cache ttl) = true ->
  set1 <= now2 <= set1 + 1000 * effective_ttl cache ttl ->
  let r1 := get_cached_or_fetch cache now1 set1 key (Returns fresh) ttl in
  let r2 := get_cached_or_fetch (cache_after r1) now2 set2 key again ttl in
  fetch_value r1 = Returns (FromFetch fresh) /\ fetch_called r1 = true /\
  fetch_value r2 = Returns (FromCache back) /\ fetch_called r2 = false /\
  cache_after r2 = cache_after r1.
Proof.
  intros Hc Hmiss Hfresh Hne Hrt Hback Httl Hrange Hwithin r1 r2.
  assert (Hr1 : r1 = mk_fetch (Returns (FromFetch fresh))
                       (snd (set cache set1 key fresh ttl)) true).
  { unfold r1, get_cached_or_fetch. rewrite Hmiss. by destruct fresh. }
  assert (Hhit : get (cache_after r1) now2 key = Some back).
  { rewrite Hr1. cbn [cache_after]. rewrite (set_connected cache d) by done.
    cbn [snd]. rewrite (get_written _ _ _ _ _ back) by done.
    destruct (Z.leb_spec now2 (set1 + 1000 * effective_ttl cache ttl)); [done|lia]. }
  split; [by rewrite Hr1|]. split; [by rewrite Hr1|].
  unfold r2, get_cached_or_fetch. rewrite Hhit. by destruct back.
Qed.

(** X18. [expire] with a positive number of seconds that the server
    takes answers whether the key is there; when it is not, nothing
    changes; when it is, the value is read as before until that many
    seconds have passed, and no longer from then on. A number of
    seconds beyond the range of the server is refused: [expire] answers
    [False] and changes nothing. *)
Theorem expire_sets_deadline (self : t) (now later : Z) (key : string) (seconds : Z) :
  0 < seconds -> now <= later ->
  let r := expire self now key seconds in
  (Redis.in_range now seconds = true ->
   fst r = exists_ self now key /\
   (exists_ self now key = false -> snd r = self) /\
   (exists_ self now key = true ->
    get (snd r) later key =
      if later <=? now + 1000 * seconds then get self now key else None)) /\
  (Redis.in_range now seconds = false -> fst r = false /\ snd r = self).
Proof.
  intros Hs Hle. unfold expire, exists_, get, RedisCommands.expire,
    RedisCommands.exists_, Redis.get.
  assert (Hlow : (seconds <? - (Redis.latest / 1000)) = false).
  { apply Z.ltb_ge. vm_compute (Redis.latest / 1000). lia. }
  rewrite Hlow, orb_false_r.
  destruct (redis_client self) as [d|] eqn:Hc; simpl.
  - split.
    + intros ->. simpl.
      destruct (Redis.lookup now d (_generate_key key)) as [e|] eqn:Hl; simpl.
      * split; [done|]. split; [done|]. intros _.
        destruct (Z.leb_spec seconds 0); [lia|]. simpl.
        unfold Redis.lookup. rewrite lookup_insert_eq. unfold Redis.live. simpl.
        by destruct (later <=? now + 1000 * seconds).
      * split; [done|]. split; [|done]. intros _. destruct self. simpl in *. by subst.
    + by intros ->.
  - split; [|done]. intros _. done.
Qed.

End More.

(** Ten entries of the cache, written with times to live of 100, 200,
    ... seconds, in a cache that holds at most ten; and a key of another
    application beside them. *)
Definition full : Redis.db :=
  list_to_map
    (("session:42", Redis.mk_entry "alice" None) ::
     map (fun i : nat =>
            ("clyrdia:" +:+ pretty i,
             Redis.mk_entry "old" (Some (100000 * Z.of_nat i))))
         (seq 1 10)).

Definition full_cache : t := mk (Some full) 3600 10.

Lemma foreign_keys_untouched_witness :
  held (snd (@set json_one_two Examples.plain_hashlib
               full_cache 0 "k" pair_one_two (Some 60))) "session:42"
  = Some (Redis.mk_entry "alice" None) /\
  held (snd (clear_all full_cache 0)) "session:42"
  = Some (Redis.mk_entry "alice" None).
Proof.
  destruct (@foreign_keys_untouched json_one_two Examples.plain_hashlib
              full_cache 0 "k" pair_one_two (Some 60) 5 "session:42" eq_refl)
    as (Hset & _ & _ & Hclear).
  split; [rewrite Hset|rewrite Hclear]; by vm_compute.
Defined.

Lemma clear_all_empties_witness :
  fst (clear_all full_cache 0) = true /\
  @get json_one_two Examples.plain_hashlib
    (snd (clear_all full_cache 0)) 50 "1" = None.
Proof.
  destruct (@clear_all_empties json_one_two Examples.plain_hashlib
              full_cache 0 50 "1" ltac:(lia)) as (H1 & H2 & _).
  split; [exact H1|exact H2].
Defined.

Lemma set_keeps_size_bound_witness :
  size 0 full = 10 /\
  exists d',
    redis_client (snd (@set json_one_two Examples.plain_hashlib
                         full_cache 0 "k" pair_one_two (Some 60))) = Some d' /\
    max_size (snd (@set json_one_two Examples.plain_hashlib
                     full_cache 0 "k" pair_one_two (Some 60))) = 10 /\
    size 5000 d' <= 10.
Proof.
  split; [by vm_compute|].
  apply (@set_keeps_size_bound json_one_two Examples.plain_hashlib
           full_cache full 0 5000 "k" pair_one_two (Some 60) eq_refl).
  - by vm_compute.
  - right. right. by vm_compute.
  - lia.
Defined.

Lemma fetch_once_then_cached_witness :
  let r1 := @get_cached_or_fetch json_one_two Examples.plain_hashlib
              empty_cache 0 0 "k" (Returns pair_one_two) (Some 60) in
  let r2 := @get_cached_or_fetch json_one_two Examples.plain_hashlib
              (cache_after r1) 59000 59000 "k"
              (Raises (mk_exn "RuntimeError" "down")) (Some 60) in
  fetch_value r1 = Returns (FromFetch pair_one_two) /\ fetch_called r1 = true /\
  fetch_value r2 = Returns (FromCache one_two) /\ fetch_called r2 = false /\
  cache_after r2 = cache_after r1.
Proof.
  apply (@fetch_once_then_cached json_one_two Examples.plain_hashlib
           empty_cache ∅ 0 59000 0 "k" pair_one_two one_two (Some 60)
           (Raises (mk_exn "RuntimeError" "down")) 59000 eq_refl eq_refl);
    done.
Defined.

Lemma expire_sets_deadline_witness :
  let r := @expire Examples.plain_hashlib full_cache 0 "1" 10 in
  fst r = true /\
  @get json_one_two Examples.plain_hashlib (snd r) 10000 "1" =
  @get json_one_two Examples.plain_hashlib full_cache 0 "1" /\
  @get json_one_two Examples.plain_hashlib (snd r) 10001 "1" = None.
Proof.
  destruct (@expire_sets_deadline json_one_two Examples.plain_hashlib
              full_cache 0 10000 "1" 10 ltac:(lia) ltac:(lia)) as [Hin _].
  destruct (Hin eq_refl) as (H1 & _ & H2).
  destruct (@expire_sets_deadline json_one_two Examples.plain_hashlib
              full_cache 0 10001 "1" 10 ltac:(lia) ltac:(lia)) as [Hin' _].
  destruct (Hin' eq_refl) as (_ & _ & H3).
  split; [by vm_compute|]. split; [apply H2|apply H3]; by vm_compute.
Defined.

End CacheMore.
(* ===================================================================== *)
(** * Further properties of the request handlers *)
(* ===================================================================== *)

Module EndpointsMore.
Import Endpoints.

(** The status codes the handlers of analysis answer an error with. *)
Definition error_statuses : list Z := [400; 413; 429; 500].

Lemma first_outcome_status events e :
  first_outcome events = Some (Abort e) -> status_code e = 500.
Proof.
  induction events as [|c events IH]; simpl; [done|].
  destruct (data c); [done|done|]. by intros [= <-].
Qed.

Section Effects.
Context `{Hashlib} `{TextExtractor} `{Pydantic}.
Context `{Json}.
Variable settings : Settings.

Lemma process_document_status file max_size e :
  DocumentService.process_document file max_size = Abort e ->
  status_code e = 413 \/ status_code e = 400 \/ status_code e = 500.
Proof.
  unfold DocumentService.process_document.
  destruct (match DocumentService.size file with Some _ => _ | None => _ end).
  { intros [= <-]. by left. }
  destruct (negb _).
  { intros [= <-]. right. by left. }
  destruct (extract_text _ _); [done|]. intros [= <-]. right. by right.
Qed.

Lemma process_document_handled file max_size e :
  DocumentService.process_document file max_size <> Unhandled e.
Proof.
  unfold DocumentService.process_document.
  destruct (match DocumentService.size file with Some _ => _ | None => _ end); [done|].
  destruct (negb _); [done|]. by destruct (extract_text _ _).
Qed.

Lemma prepare_status request e :
  prepare settings request = Abort e ->
  status_code e = 413 \/ status_code e = 400 \/ status_code e = 500.
Proof.
  unfold prepare. destruct (file_upload request) as [upload|].
  - destruct (DocumentService.process_document _ _) as [[text hash]|e'|e'] eqn:E.
    + destruct (negb _); [|done]. intros [= <-]. right. by left.
    + intros [= <-]. by apply process_document_status in E.
    + done.
  - destruct (String.eqb _ _); [|done]. intros [= <-]. right. by left.
Qed.

(** What a fresh analysis leaves behind. *)
Lemma analyze_afresh_effects st1 w request text hash key :
  let r := analyze_afresh settings st1 w request text hash key in
  length (model_calls r) = 1%nat /\
  (forall e, response r = Abort e -> cache (state r) = cache st1 /\ status_code e = 500) /\
  (forall v, response r <> Respond (Cached v)) /\
  (forall e, response r <> Unhandled e) /\
  (forall v, response r = Respond (Fresh v) ->
     cache (state r) =
       snd (CacheManager.set (cache st1) (redis_now_set w) key v (Some 3600))).
Proof.
  assert (Hfail : forall (st : State) (calls : list prompt) (logged : bool) message,
    length calls = 1%nat ->
    let r := mk_outcome (A := analysis_body) (Abort (mk_http 500 message))
               st calls logged in
    length (model_calls r) = 1%nat /\
    (forall e, response r = Abort e -> cache (state r) = cache st /\ status_code e = 500) /\
    (forall v, response r <> Respond (Cached v)) /\
    (forall e, response r <> Unhandled e) /\
    (forall v, response r = Respond (Fresh v) ->
       cache (state r) =
         snd (CacheManager.set (cache st) (redis_now_set w) key v (Some 3600)))).
  { intros st calls logged message Hc r. split; [done|].
    split; [|done]. intros e He. injection He as <-. done. }
  unfold analyze_afresh.
  destruct (first_outcome _) as [[result|e|e]|] eqn:E.
  - destruct (PyJson.len _); [|by apply Hfail].
    destruct (model_dict _); [|by apply Hfail].
    destruct (CacheManager.set _ _ _ _ _) as [ok cache1] eqn:Es. simpl.
    split; [done|]. split; [done|]. split; [done|]. split; [done|].
    intros v [= <-]. by rewrite Es.
  - apply first_outcome_status in E. simpl.
    split; [done|]. split; [|done]. intros e' He. injection He as <-. done.
  - by apply Hfail.
  - destruct (raised _); by apply Hfail.
Qed.

(** X19. Every request to [POST /analyze] ends in the [AttributeError]
    of the [finally] clause, which the application answers 500, whatever
    the [try] statement was about to return or raise; what the [try]
    statement did stays done. It sends at most one prompt to the model.
    When it raises an HTTP error, the status is 400, 413, 429 or 500,
    the cache is as it was and, unless the status is 500, nothing was
    sent to the model. When it is about to return what the cache holds,
    the cache is as it was and nothing was sent to the model. When it is
    about to return a fresh analysis, one prompt was sent and the
    analysis was written to the cache: a request answered 500 can have
    changed the cache. *)
Theorem analyze_contract_effects (st : State) (w : World) (request : Request) :
  let body := analyze_contract_try settings st w request in
  let r := analyze_contract settings st w request in
  response r = Unhandled log_response_of_None /\
  status_of (response r) = 500 /\
  state r = state body /\ model_calls r = model_calls body /\
  (length (model_calls r) <= 1)%nat /\
  (forall e, response body <> Unhandled e) /\
  (forall e, response body = Abort e ->
     cache (state r) = cache st /\
     status_code e ∈ error_statuses /\
     (status_code e <> 500 -> model_calls r = [])) /\
  (forall v, response body = Respond (Cached v) ->
     cache (state r) = cache st /\ model_calls r = []) /\
  (forall v, response body = Respond (Fresh v) ->
     length (model_calls r) = 1%nat /\
     exists key,
       cache (state r) =
         snd (CacheManager.set (cache st) (redis_now_set w) key v (Some 3600))).
Proof.
  intros body r. split; [done|]. split; [done|]. split; [done|]. split; [done|].
  unfold r, analyze_contract, finally_log_response. cbn [state model_calls].
  fold body.
  assert (Hin : forall e : HTTPException,
    status_code e = 413 \/ status_code e = 400 \/ status_code e = 500 ->
    status_code e ∈ error_statuses).
  { intros e [-> | [-> | ->]]; unfold error_statuses;
      repeat (first [apply list_elem_of_here | apply list_elem_of_further]). }
  assert (Hfresh : forall st1 text hash key,
    cache st1 = cache st ->
    let b := analyze_afresh settings st1 w request text hash key in
    (length (model_calls b) <= 1)%nat /\
    (forall e, response b <> Unhandled e) /\
    (forall e, response b = Abort e ->
       cache (state b) = cache st /\
       status_code e ∈ error_statuses /\
       (status_code e <> 500 -> model_calls b = [])) /\
    (forall v, response b = Respond (Cached v) ->
       cache (state b) = cache st /\ model_calls b = []) /\
    (forall v, response b = Respond (Fresh v) ->
       length (model_calls b) = 1%nat /\
       exists key,
         cache (state b) =
           snd (CacheManager.set (cache st) (redis_now_set w) key v (Some 3600)))).
  { intros st1 text hash key Hc b.
    destruct (analyze_afresh_effects st1 w request text hash key)
      as (Ha & Hb & Hd & He & Hf).
    fold b in Ha, Hb, Hd, He, Hf. split; [lia|]. split; [done|]. split.
    - intros e Hab. destruct (Hb e Hab) as [Hb1 Hb2]. split; [congruence|].
      split; [apply Hin; tauto|done].
    - split; [intros v Hv; by apply Hd in Hv|].
      intros v Hv. split; [done|]. exists key. rewrite (Hf v Hv). by rewrite Hc. }
  unfold body, analyze_contract_try.
  destruct (RateLimiter.is_allowed _ _ _) as [allowed limiter].
  destruct (negb allowed).
  { simpl. split; [lia|]. split; [done|]. split; [|done]. intros e [= <-]. simpl.
    split; [done|]. split; [|done]. unfold error_statuses.
    repeat (first [apply list_elem_of_here | apply list_elem_of_further]). }
  match goal with |- context [if ?b then _ else _] => destruct b end.
  { simpl. split; [lia|]. split; [done|]. split; [|done]. intros e [= <-]. simpl.
    split; [done|]. split; [|done]. apply list_elem_of_here. }
  destruct (prepare settings request) as [[text hash]|e0|e0] eqn:Ep.
  - cbn [cache].
    destruct (CacheManager.get _ _ _) as [cached|]; [|by apply Hfresh].
    destruct (PyJson.truthy cached); [|by apply Hfresh].
    simpl. split; [lia|]. done.
  - simpl. split; [lia|]. split; [done|]. split; [|done]. intros e [= <-].
    split; [done|]. split; [|done]. by apply Hin, (prepare_status request).
  - simpl. split; [lia|]. split; [done|]. split; [|done]. intros e [= <-].
    split; [done|]. split; [|done]. simpl.
    repeat (first [apply list_elem_of_here | apply list_elem_of_further]).
Qed.

(** X20. [analyze_contract_stream] neither reads nor writes the cache:
    the cache is afterwards what it was, and with any other cache in its
    place the answer and the prompts sent to the model are the same. A
    text whose analysis the cache holds is analysed again. *)
Theorem stream_ignores_cache (st : State) (w : World) (request : Request)
    (other : CacheManager.t) :
  let r := analyze_contract_stream settings st w request in
  let r' := analyze_contract_stream settings (mk_state (rate_limiter st) other)
              w request in
  cache (state r) = cache st /\
  response r' = response r /\
  model_calls r' = model_calls r /\
  rate_limiter (state r') = rate_limiter (state r).
Proof.
  unfold analyze_contract_stream. cbn [rate_limiter cache].
  destruct (RateLimiter.is_allowed _ _ _) as [allowed limiter].
  destruct (negb allowed); [done|].
  match goal with |- context [if ?b then _ else _] => destruct b end; [done|].
  by destruct (prepare_stream settings request).
Qed.

(** X21. With a file uploaded, the form field [contract_text] is not
    looked at: both handlers do the same whatever it holds. *)
Theorem upload_takes_priority (st : State) (w : World)
    (forwarded host : option string) (text text' : option string)
    (upload : DocumentService.UploadFile) (ind : option string) (types : list string) :
  analyze_contract settings st w
    (mk_request forwarded host text (Some upload) ind types) =
  analyze_contract settings st w
    (mk_request forwarded host text' (Some upload) ind types) /\
  analyze_contract_stream settings st w
    (mk_request forwarded host text (Some upload) ind types) =
  analyze_contract_stream settings st w
    (mk_request forwarded host text' (Some upload) ind types).
Proof.
  unfold analyze_contract, analyze_contract_try, analyze_contract_stream,
    get_client_id, prepare, prepare_stream.
  cbn [forwarded_for client_host contract_text file_upload industry analysis_type].
  rewrite !(bool_decide_true (is_Some (Some upload))) by done.
  cbn [negb]. rewrite !andb_false_r. done.
Qed.

End Effects.

End EndpointsMore.
(* ===================================================================== *)
(** * Further properties of the model service *)
(* ===================================================================== *)

Module SliceFacts.
Import Py PyFacts StripFacts SearchFacts.

(** Whether a one-character string starts a text depends on the first
    character of the text alone. *)
Lemma prefix_single_cons c a r1 r2 :
  String.prefix (String c "") (String a r1) = String.prefix (String c "") (String a r2).
Proof. simpl. destruct (ascii_dec c a); [by destruct r1, r2|done]. Qed.

Lemma len_cons a s : len (String a s) = len s + 1.
Proof. unfold len. simpl String.length. lia. Qed.

Lemma len_app s1 s2 : len (s1 +:+ s2) = len s1 + len s2.
Proof. unfold len. rewrite <- !length_chars, chars_app, length_app. lia. Qed.

Lemma len_nonneg s : 0 <= len s.
Proof. unfold len. lia. Qed.

Lemma find_upper sub s : find sub s <= len s.
Proof.
  induction s as [|a s IH].
  - simpl. destruct sub; simpl; unfold len; simpl; lia.
  - rewrite find_cons, len_cons. pose proof (len_nonneg s).
    destruct (String.prefix sub (String a s)); [lia|].
    destruct (Z.eqb_spec (find sub s) (-1)); lia.
Qed.

Lemma rfind_single_upper c s : rfind (String c "") s < len s.
Proof.
  induction s as [|a s IH].
  - by vm_compute.
  - rewrite rfind_cons, len_cons. pose proof (len_nonneg s).
    destruct (Z.eqb_spec (rfind (String c "") s) (-1)); [|lia].
    destruct (String.prefix _ _); lia.
Qed.

(** Text before that holds no occurrence shifts the first occurrence. *)
Lemma find_after c pre s :
  contains (String c "") pre = false ->
  find (String c "") (pre +:+ s) =
  if find (String c "") s =? -1 then -1 else len pre + find (String c "") s.
Proof.
  induction pre as [|a pre IH]; intros Hc.
  - change ("" +:+ s) with s. unfold len. simpl String.length.
    destruct (Z.eqb_spec (find (String c "") s) (-1)); [done|lia].
  - rewrite contains_cons in Hc. apply orb_false_iff in Hc as [Hp Hc].
    change (String a pre +:+ s) with (String a (pre +:+ s)).
    rewrite find_cons, (prefix_single_cons c a (pre +:+ s) pre), Hp, (IH Hc), len_cons.
    pose proof (find_lower (String c "") s). pose proof (len_nonneg pre).
    destruct (Z.eqb_spec (find (String c "") s) (-1)); [done|].
    destruct (Z.eqb_spec (len pre + find (String c "") s) (-1)); lia.
Qed.

(** Text behind does not move the first occurrence. *)
Lemma find_before c s post :
  find (String c "") s <> -1 ->
  find (String c "") (s +:+ post) = find (String c "") s.
Proof.
  induction s as [|a s IH]; intros Hf; [by vm_compute in Hf|].
  change (String a s +:+ post) with (String a (s +:+ post)).
  rewrite find_cons in Hf. rewrite !find_cons.
  rewrite (prefix_single_cons c a (s +:+ post) s).
  destruct (String.prefix (String c "") (String a s)); [done|].
  destruct (Z.eqb_spec (find (String c "") s) (-1)) as [E|E]; [done|].
  rewrite (IH E). by destruct (Z.eqb_spec (find (String c "") s) (-1)).
Qed.

(** Text behind that holds no occurrence does not move the last one. *)
Lemma rfind_before c s post :
  contains (String c "") post = false ->
  rfind (String c "") (s +:+ post) = rfind (String c "") s.
Proof.
  intros Hc. induction s as [|a s IH].
  - change ("" +:+ post) with post. apply rfind_none in Hc. rewrite Hc. by vm_compute.
  - change (String a s +:+ post) with (String a (s +:+ post)).
    by rewrite !rfind_cons, IH, (prefix_single_cons c a (s +:+ post) s).
Qed.

(** Text before shifts the last occurrence. *)
Lemma rfind_after sub pre s :
  rfind sub s <> -1 -> rfind sub (pre +:+ s) = len pre + rfind sub s.
Proof.
  intros Hr. pose proof (rfind_lower sub s).
  induction pre as [|a pre IH].
  - change ("" +:+ s) with s. unfold len. simpl String.length. lia.
  - change (String a pre +:+ s) with (String a (pre +:+ s)).
    rewrite rfind_cons, IH, len_cons. pose proof (len_nonneg pre).
    destruct (Z.eqb_spec (len pre + rfind sub s) (-1)); lia.
Qed.

Lemma skipn_past {A} (l1 l2 : list A) n :
  skipn (length l1 + n) (l1 ++ l2) = skipn n l2.
Proof. induction l1 as [|x l1 IH]; simpl; done. Qed.

(** A slice of the middle of three texts is the slice of the middle. *)
Lemma slice_within pre body post a b :
  0 <= a <= len body -> 0 <= b <= len body ->
  slice (pre +:+ (body +:+ post)) (len pre + a) (len pre + b) = slice body a b.
Proof.
  intros Ha Hb. pose proof (len_nonneg pre). pose proof (len_nonneg post).
  apply chars_inj. unfold slice, bound. rewrite !len_app.
  destruct (Z.ltb_spec (len pre + a) 0); [lia|].
  destruct (Z.ltb_spec (len pre + b) 0); [lia|].
  destruct (Z.ltb_spec a 0); [lia|]. destruct (Z.ltb_spec b 0); [lia|].
  rewrite !Z.min_l by lia.
  replace (len pre + b - (len pre + a)) with (b - a) by lia.
  rewrite !chars_take, !chars_drop, !chars_app.
  replace (Z.to_nat (len pre + a)) with (length (chars pre) + Z.to_nat a)%nat
    by (rewrite length_chars; unfold len; lia).
  rewrite skipn_past, skipn_app, firstn_app.
  assert (Hlen : length (chars body) = Z.to_nat (len body))
    by (rewrite length_chars; unfold len; lia).
  replace (Z.to_nat a - length (chars body))%nat with 0%nat by lia.
  rewrite length_skipn.
  replace (Z.to_nat (b - a) - (length (chars body) - Z.to_nat a))%nat with 0%nat by lia.
  simpl. by rewrite app_nil_r.
Qed.

End SliceFacts.

Module ServiceMore.
Import Py PyFacts SearchFacts SliceFacts OpenAIService ParsingFacts.

(** The pieces of content the provider streams that are not empty, and
    texts put one after another. *)
Definition pieces (contents : list (option string)) : list string :=
  List.filter (fun s => negb (String.eqb s "")) (omap id contents).

Definition glue (l : list string) : string := foldr String.append "" l.

(** A result with another text as the response it was read from. *)
Definition with_raw (r : analysis_result) (response : string) : analysis_result :=
  mk_result (overall_risk r) (overall_risk_score r) (issues r) (recommendations r)
    (summary r) response.

Lemma append_assoc (s1 s2 s3 : string) : (s1 +:+ s2) +:+ s3 = s1 +:+ (s2 +:+ s3).
Proof. apply StripFacts.chars_inj. by rewrite !chars_app, app_assoc. Qed.

Lemma append_empty (s : string) : s +:+ "" = s.
Proof. apply StripFacts.chars_inj. rewrite chars_app. simpl. by rewrite app_nil_r. Qed.

Section Service.
Context `{Json}.
Variable create : prompt -> completion.
Variable loop_time : nat -> Q.

(** The loop over the provider's chunks, from any turn on. *)
Lemma progress_events_pieces contents : forall n acc,
  snd (progress_events loop_time n acc contents) = acc +:+ glue (pieces contents) /\
  length (fst (progress_events loop_time n acc contents)) = length (pieces contents) /\
  forall k c, fst (progress_events loop_time n acc contents) !! k = Some c ->
    exists p, pieces contents !! k = Some p /\
      data c = ProgressData p (acc +:+ glue (firstn (S k) (pieces contents))) /\
      timestamp c = loop_time (n + k)%nat /\ is_final c = false.
Proof.
  induction contents as [|[[|c0 s0]|] rest IH]; intros n acc.
  - simpl. by rewrite append_empty.
  - apply IH.
  - destruct (IH (S n) (acc +:+ String c0 s0)) as (IH1 & IH2 & IH3).
    change (pieces (Some (String c0 s0) :: rest)) with (String c0 s0 :: pieces rest).
    simpl progress_events.
    destruct (progress_events loop_time (S n) _ rest) as [events final].
    simpl in *. split; [by rewrite IH1, append_assoc|]. split; [by rewrite IH2|].
    intros [|k] c Hc; simpl in Hc.
    + injection Hc as <-. exists (String c0 s0). simpl.
      rewrite Nat.add_0_r. by rewrite append_empty.
    + destruct (IH3 k c Hc) as (p & Hp & Hd & Ht & Hf). exists p.
      split; [done|]. split; [|split; [|done]].
      * rewrite Hd. f_equal. by rewrite append_assoc.
      * rewrite Ht. f_equal. lia.
  - apply IH.
Qed.

Lemma process_raw_response response r :
  _process_analysis_response response = Returns r -> raw_response r = response.
Proof.
  unfold _process_analysis_response.
  destruct (_ || _); [done|].
  destruct (json_loads _) as [[]| |e]; try done; by intros [= <-].
Qed.

(** X22. When the provider streams, [analyze_contract] yields one
    progress event for every piece of content that is not empty, in
    order: the event of a piece carries the piece and, as
    [full_response], the pieces up to it put together. One more event
    ends the stream, and when it is the completed analysis, its
    [raw_response] is all the pieces put together. *)
Theorem progress_accumulates (text : string) (industry : option string)
    (types : option (list string)) (contents : list (option string))
    (ending : stream_end) :
  create (_build_analysis_prompt text industry types) = Stream contents ending ->
  exists events last,
    yields (analyze_contract create loop_time text industry types) = events ++ [last] /\
    raised (analyze_contract create loop_time text industry types) = None /\
    length events = length (pieces contents) /\
    (forall k c, events !! k = Some c ->
       exists p, pieces contents !! k = Some p /\
         data c = ProgressData p (glue (firstn (S k) (pieces contents))) /\
         is_final c = false) /\
    is_final last = true /\
    (forall r, data last = AnalysisData r -> raw_response r = glue (pieces contents)).
Proof.
  intros Hc. unfold analyze_contract, _stream_analysis. rewrite Hc.
  destruct (progress_events_pieces contents 0%nat "") as (Hf & Hl & Hk).
  destruct (progress_events loop_time 0 "" contents) as [events full].
  simpl in Hf, Hl, Hk.
  assert (Hev : forall k c, events !! k = Some c ->
    exists p, pieces contents !! k = Some p /\
      data c = ProgressData p (glue (firstn (S k) (pieces contents))) /\
      is_final c = false).
  { intros k c Hkc. destruct (Hk k c Hkc) as (p & Hp & Hd & _ & Hfin). eauto. }
  destruct ending as [|e].
  - destruct (_process_analysis_response full) as [r|e] eqn:Ep; simpl.
    + eexists events, _. repeat (split; [done|]).
      intros r' [= <-]. apply process_raw_response in Ep. by rewrite Ep, Hf.
    + eexists events, _. repeat (split; [done|]). done.
  - simpl. eexists events, _. repeat (split; [done|]). done.
Qed.

(** The braces found in a response with text around the object. *)
Lemma enclosed_wrapped pre body post :
  contains "{" pre = false -> contains "}" post = false ->
  contains "{" body = true -> contains "}" body = true ->
  find "{" (pre +:+ (body +:+ post)) = len pre + find "{" body /\
  rfind "}" (pre +:+ (body +:+ post)) = len pre + rfind "}" body /\
  find "{" body <> -1 /\ rfind "}" body <> -1 /\
  enclosed (pre +:+ (body +:+ post)) = enclosed body.
Proof.
  intros Hpre Hpost Ho Hc.
  assert (Ha : find "{" body <> -1).
  { intros E. apply find_none in E. congruence. }
  assert (Hb : rfind "}" body <> -1).
  { intros E. apply rfind_none in E. congruence. }
  assert (Hfind : find "{" (pre +:+ (body +:+ post)) = len pre + find "{" body).
  { rewrite (find_after "{" pre) by done. rewrite (find_before "{" body post) by done.
    by destruct (Z.eqb_spec (find "{" body) (-1)). }
  assert (Hrfind : rfind "}" (pre +:+ (body +:+ post)) = len pre + rfind "}" body).
  { rewrite rfind_after; rewrite (rfind_before "}" body post) by done; done. }
  repeat (split; [done|]).
  unfold enclosed. rewrite Hfind, Hrfind.
  replace (len pre + rfind "}" body + 1) with (len pre + (rfind "}" body + 1)) by lia.
  pose proof (find_lower "{" body). pose proof (find_upper "{" body).
  pose proof (rfind_lower "}" body). pose proof (rfind_single_upper "}" body).
  apply slice_within; lia.
Qed.

(** X23. Text around the JSON object of a response does not change how
    the response is read, as long as the text before holds no opening
    brace and the text behind no closing one: the result has the same
    fields as for the object alone (or the same exception is raised),
    and [raw_response] is the whole response. *)
Theorem prose_around_json_ignored (pre body post : string) :
  contains "{" pre = false -> contains "}" post = false ->
  contains "{" body = true -> contains "}" body = true ->
  _process_analysis_response (pre +:+ (body +:+ post)) =
  match _process_analysis_response body with
  | Returns r => Returns (with_raw r (pre +:+ (body +:+ post)))
  | Raises e => Raises e
  end.
Proof.
  intros Hpre Hpost Ho Hc.
  destruct (enclosed_wrapped pre body post Hpre Hpost Ho Hc)
    as (Hf & Hr & Ha & Hb & He).
  unfold enclosed in He. unfold _process_analysis_response.
  rewrite He. rewrite Hf, Hr.
  pose proof (find_lower "{" body). pose proof (rfind_lower "}" body).
  pose proof (len_nonneg pre).
  destruct (Z.eqb_spec (len pre + find "{" body) (-1)); [lia|].
  destruct (Z.eqb_spec (len pre + rfind "}" body + 1) 0); [lia|].
  destruct (Z.eqb_spec (find "{" body) (-1)); [lia|].
  destruct (Z.eqb_spec (rfind "}" body + 1) 0); [lia|].
  simpl. by destruct (json_loads _) as [[]| |e].
Qed.

End Service.

Lemma progress_accumulates_witness :
  exists events last,
    yields (@analyze_contract Examples.empty_object_json Examples.answers_prose
              (fun _ => 0%Q) "Some contract" None None) = events ++ [last] /\
    length events = 2%nat /\
    (forall k c, events !! k = Some c ->
       exists p, pieces [Some "I cannot "; Some "analyse this."] !! k = Some p /\
         data c = ProgressData p
                    (glue (firstn (S k) (pieces [Some "I cannot "; Some "analyse this."]))) /\
         is_final c = false) /\
    is_final last = true.
Proof.
  destruct (@progress_accumulates Examples.empty_object_json Examples.answers_prose
              (fun _ => 0%Q) "Some contract" None None
              [Some "I cannot "; Some "analyse this."] EndOfStream eq_refl)
    as (events & last & Hy & _ & Hl & Hk & Hf & _).
  exists events, last. split; [exact Hy|]. split; [exact Hl|].
  split; [exact Hk|exact Hf].
Defined.

Lemma prose_around_json_ignored_witness :
  @_process_analysis_response Examples.empty_object_json
    ("Here is the analysis: " +:+ ("{}" +:+ " I hope it helps.")) =
  Returns (mk_result (JString "medium") (JNumber 50) (JList []) (JList [])
             (JString "Analysis completed")
             "Here is the analysis: {} I hope it helps.").
Proof.
  rewrite (@prose_around_json_ignored Examples.empty_object_json
             "Here is the analysis: " "{}" " I hope it helps."
             eq_refl eq_refl eq_refl eq_refl).
  by vm_compute.
Defined.

End ServiceMore.
(* ===================================================================== *)
(** * The client identifier *)
(* ===================================================================== *)

Module ClientIdFacts.
Import Py PyFacts StripFacts Endpoints.

Definition comma : ascii := ",".

(** The first piece of [split(sep)] is the text up to the first
    separator. *)
Lemma split_on_first sep s :
  exists piece more,
    split_on sep s = piece :: more /\ (sep ∉ chars piece) /\
    (s = piece \/ exists tail, s = piece +:+ String sep tail).
Proof.
  induction s as [|c s (piece & more & Hs & Hp & Ht)].
  - exists "", []. split; [done|]. split; [apply not_elem_of_nil|by left].
  - simpl. destruct (Ascii.eqb_spec c sep) as [->|Hne].
    + exists "", (split_on sep s). split; [done|].
      split; [apply not_elem_of_nil|]. right. by exists s.
    + rewrite Hs. exists (String c piece), more. split; [done|]. split.
      * simpl. intros [?|?]%elem_of_cons; [by subst|done].
      * destruct Ht as [->|[tail ->]]; [by left|]. right. by exists tail.
Qed.

(** X24. With a header [X-Forwarded-For] that is not empty, the client
    identifier is the text of the header before its first comma,
    stripped: it holds no comma and no white space at either end, and
    the host of the connection plays no part. Without the header it is
    the host of the connection, or [unknown]. *)
Theorem client_id_from_header (request : Request) (header : string) :
  forwarded_for request = Some header -> header <> "" ->
  let id := get_client_id request in
  exists piece,
    id = strip piece /\
    (header = piece \/ exists tail, header = piece +:+ String comma tail) /\
    (comma ∉ chars piece) /\ (comma ∉ chars id) /\ strip id = id.
Proof.
  intros Hf Hne id. unfold id, get_client_id. rewrite Hf.
  destruct header as [|c0 h0]; [done|].
  destruct (split_on_first comma (String c0 h0)) as (piece & more & Hs & Hp & Ht).
  change (split_on "," (String c0 h0)) with (split_on comma (String c0 h0)).
  rewrite Hs. simpl hd. exists piece. split; [done|]. split; [done|].
  split; [done|]. split; [|apply strip_strip].
  intros Hin. apply Hp. eapply elem_of_submseteq; [exact Hin|apply chars_strip].
Qed.

(** A header with two addresses, as a proxy writes it. *)
Definition behind_proxy : Request :=
  mk_request (Some " 203.0.113.7 , 10.0.0.1") (Some "10.0.0.1") None None None [].

Lemma client_id_from_header_witness :
  get_client_id behind_proxy = "203.0.113.7" /\
  exists piece,
    get_client_id behind_proxy = strip piece /\
    (" 203.0.113.7 , 10.0.0.1" = piece \/
     exists tail, " 203.0.113.7 , 10.0.0.1" = piece +:+ String comma tail) /\
    (comma ∉ chars piece) /\ (comma ∉ chars (get_client_id behind_proxy)) /\
    strip (get_client_id behind_proxy) = get_client_id behind_proxy.
Proof.
  split; [by vm_compute|].
  apply (client_id_from_header behind_proxy " 203.0.113.7 , 10.0.0.1" eq_refl).
  done.
Defined.

End ClientIdFacts.

(* ===================================================================== *)
(** * Further properties of the tasks *)
(* ===================================================================== *)

Module TasksMore.
Import AnalysisTasks BatchFacts.

(** The [contract_id] of an entry. *)
Definition entry_id (entry : item_result) : json :=
  match entry with
  | ItemCompleted contract_id _ _ => contract_id
  | ItemFailed contract_id _ => contract_id
  end.

Section Batch.
Variable analyze : nat -> string -> option string -> option (list string) -> generator chunk.
Variable store_analysis : nat -> analysis_result -> string -> outcome string.
Variable store_issues : nat -> string -> json -> outcome unit.
Variable task_id : string.

(** What the entry of an item says of the item. *)
Lemma analyze_item_entry i item :
  let entry := analyze_item analyze store_analysis store_issues task_id i item in
  entry_id entry = cd_id item /\
  forall contract_id analysis_id r,
    entry = ItemCompleted contract_id analysis_id r ->
    first_complete
      (yields (analyze i (default "" (cd_text item)) (cd_industry item)
                 (Some (default ["legal"; "financial"; "compliance"]
                          (cd_analysis_types item))))) = Some r /\
    store_analysis i r ("batch_" +:+ task_id +:+ "_" +:+ pretty i) = Returns analysis_id.
Proof.
  unfold analyze_item.
  destruct (first_complete _) as [r0|]; [|by destruct (raised _)].
  destruct (store_analysis i r0 _) as [aid|e] eqn:Es; [|done].
  destruct (PyJson.truthy _); [destruct (store_issues _ _ _)|]; simpl;
    (split; [done|]); try done; by intros ? ? ? [= _ <- <-].
Qed.

(** X25. The report of a batch lists the contract ids of the items, in
    their order; and an entry that says completed carries the data of
    the first [analysis_complete] event of its item and the identifier
    the record store returned for it under the hash of its index. *)
Theorem batch_keeps_ids (items : list contract_data) :
  let report := batch_analyze_contracts analyze store_analysis store_issues task_id
                  items in
  map entry_id (results report) = map cd_id items /\
  forall k contract_id analysis_id r,
    results report !! k = Some (ItemCompleted contract_id analysis_id r) ->
    exists item,
      items !! k = Some item /\ contract_id = cd_id item /\
      first_complete
        (yields (analyze k (default "" (cd_text item)) (cd_industry item)
                   (Some (default ["legal"; "financial"; "compliance"]
                            (cd_analysis_types item))))) = Some r /\
      store_analysis k r ("batch_" +:+ task_id +:+ "_" +:+ pretty k) = Returns analysis_id.
Proof.
  intros report. unfold report. rewrite batch_report. simpl. split.
  - generalize 0%nat. induction items as [|item rest IH]; intros i; simpl; [done|].
    rewrite IH. f_equal. apply analyze_item_entry.
  - intros k contract_id analysis_id r Hk.
    destruct (items !! k) as [item|] eqn:Hi.
    + rewrite (entries_from_lookup analyze store_analysis store_issues task_id
                 items 0%nat k item Hi) in Hk.
      injection Hk as Hk. simpl in Hk.
      destruct (analyze_item_entry k item) as [Hid Hc].
      exists item. split; [done|]. rewrite Hk in Hid. simpl in Hid.
      split; [done|]. by apply (Hc contract_id analysis_id r).
    + apply lookup_lt_Some in Hk.
      rewrite entries_from_length in Hk. apply lookup_ge_None in Hi. lia.
Qed.

End Batch.

(** ** The task of one contract *)

Import AsyncTask.




Section Task.
Variable analyze : string -> option string -> option (list string) -> generator chunk.
Variable store_analysis : analysis_result -> string -> outcome string.
Variable store_issues : string -> json -> outcome unit.
Variable task_id : string.


End Task.

End TasksMore.

(* ===================================================================== *)
(** * The handler of the templates never returns a library *)
(* ===================================================================== *)

Module TemplatesFacts.
Import Endpoints Templates.

Lemma values_raises l : l <> [] -> exists e, values l = Raises e.
Proof. destruct l as [|i rest]; [done|]. intros _. simpl. eauto. Qed.

Section Handler.
Variable TemplateLibrary : Type.
Variable allowed_file_types : list string.
Variable retrieve : State -> string -> Result TemplateLibrary.

(** X27. [get_templates] never returns a library and never gets as far
    as the cache or the record store. Whatever the rest of the handler
    would do, its [try] statement raises an HTTP error with status 429,
    400 or 500: the validation of the industry reads [i.value] of every
    allowed file type, which are [str], so with a list that is not empty
    an admitted request for an industry that is not empty raises 500.
    Then the [finally] clause raises [AttributeError], and that is what
    leaves the handler: every request is answered 500, and nothing
    changes but the limiter. *)
Theorem get_templates_never_returns (st : State) (now : Q) (request : Request)
    (industry : string) :
  let body := get_templates_try TemplateLibrary allowed_file_types retrieve st now
                request industry in
  let r := get_templates TemplateLibrary allowed_file_types retrieve st now request
             industry in
  response r = Unhandled log_response_of_None /\
  status_of (response r) = 500 /\
  (exists e, response body = Abort e /\
     (status_code e = 429 \/ status_code e = 400 \/ status_code e = 500)) /\
  cache (state r) = cache st /\
  rate_limiter (state r) =
    snd (RateLimiter.is_allowed (rate_limiter st) now (get_client_id request)) /\
  (fst (RateLimiter.is_allowed (rate_limiter st) now (get_client_id request)) = true ->
   industry <> "" -> allowed_file_types <> [] ->
   exists e, response body = Abort e /\ status_code e = 500).
Proof.
  intros body r. split; [done|]. split; [done|].
  unfold r, get_templates, finally_log_response. cbn [state]. fold body.
  unfold body, get_templates_try.
  destruct (RateLimiter.is_allowed _ _ _) as [allowed limiter]. simpl.
  destruct allowed; simpl.
  - unfold invalid_industry. destruct industry as [|c s].
    + split; [eexists; split; [done|]; simpl; tauto|]. done.
    + destruct allowed_file_types as [|i rest]; simpl.
      * split; [eexists; split; [done|]; simpl; tauto|]. done.
      * split; [eexists; split; [done|]; simpl; tauto|].
        split; [done|]. split; [done|]. intros _ _ _. eexists. done.
  - split; [eexists; split; [done|]; simpl; tauto|]. done.
Qed.

End Handler.

End TemplatesFacts.
